(** * Turn orchestration and event streaming of remote-codexapp

  A shallow embedding of the server's turn engine:
  - [Json]        payload values as the JavaScript code inspects them;
  - [Adapter]     [CodexMcpClient] (codexMcpClient.ts): text forwarding,
                  approval correlation, pending-approval teardown;
  - [Manager]     [CodexManager] (codexManager.ts): one runner per chat,
                  busy guard, session restart decision, heartbeat, abort;
  - [Sessiond]    the gateway daemon (sessiond.ts): stream buffers and the
                  start endpoint;
  - [Store]       [MemoryStore] stream buffers with subscribers (store.ts);
  - [Bridge]      cursor reconciliation (sessiondClient.ts and index.ts);
  - [RateLimit]   [normalizeRateLimitWindow] (index.ts) on binary64 numbers.
  - [JsMap]       JavaScript [Map] and [Set] in insertion order, stable sort;
  - [StoreData]   [MemoryStore] (store.ts): sessions, credentials, chats,
                  messages and terminal records;
  - [Paths]       [toSafePathSegment] and [isWithinRoot] (index.ts);
  - [WebApi]      the compact, chat and settings routes (index.ts).
  - [SessiondApi] the reset, abort and approve endpoints (sessiond.ts);
  - [Usage]       [extractRateLimits] (codexMcpClient.ts);
  - [Claude]      the standard output of the Claude backend
                  (codexMcpClient.ts).

  JavaScript numbers that are event ids, counters and millisecond clocks are
  integers far below 2^53 and are modelled by [Z]; numbers inside payloads
  are binary64 floats ([PrimFloat.float]).  [Date.now()] is an explicit
  argument of every operation that reads the clock. *)

From Stdlib Require Import PrimFloat.
From Stdlib Require Uint63.
From Stdlib Require Import ZArith Lia Ascii String.
From stdpp Require Import base decidable option list strings gmap pretty.

#[local] Set Warnings "-register-all".

Open Scope string_scope.
Open Scope list_scope.
Open Scope Z_scope.

(* ================================================================== *)
(** ** JSON payloads *)
(* ================================================================== *)

Module Json.

(** A value produced by [JSON.parse].  An object is its list of own
    properties in insertion order; keys are assumed distinct, as the parser
    leaves them. *)
Inductive json : Type :=
| JNull
| JBool (b : bool)
| JNum (x : float)
| JStr (s : string)
| JArr (items : list json)
| JObj (fields : list (string * json)).

(** [typeof v === 'object' && v !== null] ([isObj], [isRecord]). *)
Definition isObj (v : json) : bool :=
  match v with
  | JArr _ | JObj _ => true
  | _ => false
  end.

Fixpoint assoc (k : string) (fs : list (string * json)) : option json :=
  match fs with
  | [] => None
  | (k', v) :: rest => if bool_decide (k' = k) then Some v else assoc k rest
  end.

(** [v.k] for a property name [k] that is neither an array index nor
    [length]: [None] is [undefined]. *)
Definition get (v : json) (k : string) : option json :=
  match v with
  | JObj fs => assoc k fs
  | _ => None
  end.

(** [a ?? b]. *)
Definition nullish (a b : option json) : option json :=
  match a with
  | None | Some JNull => b
  | Some _ => a
  end.

(** JavaScript truthiness of a possibly undefined value. *)
Definition truthy (v : option json) : bool :=
  match v with
  | None | Some JNull => false
  | Some (JBool b) => b
  | Some (JNum x) => negb (PrimFloat.is_nan x || PrimFloat.is_zero x)
  | Some (JStr s) => negb (bool_decide (s = ""))
  | Some (JArr _) | Some (JObj _) => true
  end.

(** [typeof v.k === 'string'], returning the string. *)
Definition get_string (v : json) (k : string) : option string :=
  match get v k with
  | Some (JStr s) => Some s
  | _ => None
  end.

(** Whether [String(v)] is the empty string: a string is itself, an array
    is its elements joined by commas with [null] as the empty string, and
    numbers, booleans and plain objects never print as nothing. *)
Fixpoint String_empty (v : json) : bool :=
  match v with
  | JStr s => bool_decide (s = "")
  | JArr [] => true
  | JArr [JNull] => true
  | JArr [x] => String_empty x
  | _ => false
  end.

(** Whether [String(v)] throws a [TypeError].  A parsed object is made a
    string by its [toString], found on [Object.prototype] unless an own
    property of that name hides it, which no JSON value can make callable
    (and [valueOf] returns no primitive); an array joins the strings of
    its elements, [null] counting as the empty string. *)
Fixpoint String_throws (v : json) : bool :=
  match v with
  | JObj fs => bool_decide (is_Some (assoc "toString" fs))
  | JArr items =>
      (fix any (l : list json) : bool :=
         match l with
         | [] => false
         | x :: rest => String_throws x || any rest
         end) items
  | _ => false
  end.

(** [v.type === t]. *)
Definition type_is (v : json) (t : string) : bool :=
  match get v "type" with
  | Some (JStr s) => bool_decide (s = t)
  | _ => false
  end.

End Json.
Import Json.

(* ================================================================== *)
(** ** CodexMcpClient *)
(* ================================================================== *)

Module Adapter.

Record CodexApprovalRequest : Type := {
  req_id : string;
  req_message : option string;
  req_command : option (list string);
  req_cwd : option string
}.

Inductive CodexRunnerEvent : Type :=
| agent_message (message : string)
| approval_request (request : CodexApprovalRequest)
| raw (msg : json).

(** The spawned [claude] child process as [stopActiveClaudeProcess] reads
    it: [exitCode !== null] and [killed]. *)
Record ChildProcess : Type := {
  pid : nat;
  exited : bool;
  killed : bool
}.

(** What the adapter does to the outside world.  A resolver is the
    [resolve] function of the promise an elicitation request awaits; it is
    named by the number of that request. *)
Inductive Effect : Type :=
| Resolve (resolver : nat) (decision : string)
| Kill (proc : nat) (signal : string)
| ArmKiller (proc : nat) (delay_ms : Z)
| AbortSignalled.

(** The fields of [CodexMcpClient] that turns, approvals and aborts read
    or write.  [lastUsage] and [lastRateLimits] are left out: nothing
    below reads them.  [sessionId] and [conversationId] hold the harvested
    value [v] itself where the source stores [String(v)]; the stored string
    is only compared with [null] ([hasSession]), tested for emptiness
    ([stored_falsy]) and handed back to the backend, and a value that has
    no string is never stored, [String(v)] throwing first.  [pendingApprovals] is
    the [Map] in insertion order.  [onEvent] says whether a handler is
    registered. *)
Record Client : Type := {
  sessionId : option json;
  conversationId : option json;
  onEvent : bool;
  pendingApprovals : list (string * nat);
  sawAssistantTextInFlight : bool;
  approvalSeq : Z;
  activeClaudeProc : option ChildProcess
}.

(** How a method of the client ends: it returns, or a [TypeError] leaves
    it, the client being as the statements before the throw left it. *)
Inductive Ended (A : Type) : Type :=
| returned (a : A)
| threw (c : Client).
Arguments returned {A} a.
Arguments threw {A} c.

(** The client a call leaves, however it ended. *)
Definition left_by (e : Ended Client) : Client :=
  match e with
  | returned c => c
  | threw c => c
  end.

Definition new_client : Client :=
  {| sessionId := None; conversationId := None; onEvent := false;
     pendingApprovals := []; sawAssistantTextInFlight := false;
     approvalSeq := 0; activeClaudeProc := None |}.

Definition set_sessionId (v : option json) (c : Client) : Client :=
  {| sessionId := v; conversationId := conversationId c; onEvent := onEvent c;
     pendingApprovals := pendingApprovals c;
     sawAssistantTextInFlight := sawAssistantTextInFlight c;
     approvalSeq := approvalSeq c; activeClaudeProc := activeClaudeProc c |}.

Definition set_conversationId (v : option json) (c : Client) : Client :=
  {| sessionId := sessionId c; conversationId := v; onEvent := onEvent c;
     pendingApprovals := pendingApprovals c;
     sawAssistantTextInFlight := sawAssistantTextInFlight c;
     approvalSeq := approvalSeq c; activeClaudeProc := activeClaudeProc c |}.

Definition set_pending (p : list (string * nat)) (c : Client) : Client :=
  {| sessionId := sessionId c; conversationId := conversationId c;
     onEvent := onEvent c; pendingApprovals := p;
     sawAssistantTextInFlight := sawAssistantTextInFlight c;
     approvalSeq := approvalSeq c; activeClaudeProc := activeClaudeProc c |}.

Definition set_saw (b : bool) (c : Client) : Client :=
  {| sessionId := sessionId c; conversationId := conversationId c;
     onEvent := onEvent c; pendingApprovals := pendingApprovals c;
     sawAssistantTextInFlight := b;
     approvalSeq := approvalSeq c; activeClaudeProc := activeClaudeProc c |}.

Definition set_proc (p : option ChildProcess) (c : Client) : Client :=
  {| sessionId := sessionId c; conversationId := conversationId c;
     onEvent := onEvent c; pendingApprovals := pendingApprovals c;
     sawAssistantTextInFlight := sawAssistantTextInFlight c;
     approvalSeq := approvalSeq c; activeClaudeProc := p |}.

Definition set_seq (n : Z) (c : Client) : Client :=
  {| sessionId := sessionId c; conversationId := conversationId c;
     onEvent := onEvent c; pendingApprovals := pendingApprovals c;
     sawAssistantTextInFlight := sawAssistantTextInFlight c;
     approvalSeq := n; activeClaudeProc := activeClaudeProc c |}.

(** [setEventHandler]. *)
Definition setEventHandler (h : bool) (c : Client) : Client :=
  {| sessionId := sessionId c; conversationId := conversationId c;
     onEvent := h; pendingApprovals := pendingApprovals c;
     sawAssistantTextInFlight := sawAssistantTextInFlight c;
     approvalSeq := approvalSeq c; activeClaudeProc := activeClaudeProc c |}.

(** [this.onEvent?.(e)]: the events handed to the registered handler. *)
Definition fire (c : Client) (e : CodexRunnerEvent) : list CodexRunnerEvent :=
  if onEvent c then [e] else [].

(** *** Identifier harvesting *)

(** [if (v) this.field = String(v)] throws when [v] is truthy and has no
    string. *)
Definition unprintable (v : option json) : bool :=
  truthy v && String_throws (default JNull v).

(** The body of the loop of [updateIdentifiersFromEvent] for one
    candidate. *)
Definition harvest_one (cand : json) (c : Client) : Ended Client :=
  let sid := nullish (get cand "session_id") (get cand "sessionId") in
  if unprintable sid then threw c
  else
    let c1 := if truthy sid then set_sessionId sid c else c in
    let cid :=
      nullish (get cand "conversation_id") (get cand "conversationId") in
    if unprintable cid then threw c1
    else returned (if truthy cid then set_conversationId cid c1 else c1).

Definition updateIdentifiersFromEvent (event : json) (c : Client)
  : Ended Client :=
  if isObj event then
    match harvest_one event c with
    | threw c1 => threw c1
    | returned c1 =>
        match get event "data" with
        | Some d => if isObj d then harvest_one d c1 else returned c1
        | None => returned c1
        end
    end
  else returned c.

(** *** The [codex/event] notification handler *)

(** The loop over [msg.item.content]: the first block that is a non-empty
    [output_text]. *)
Fixpoint first_output_text (content : list json) : option string :=
  match content with
  | [] => None
  | blk :: rest =>
      match (if isObj blk && type_is blk "output_text"
             then get_string blk "text" else None) with
      | Some t => if bool_decide (t = "") then first_output_text rest else Some t
      | None => first_output_text rest
      end
  end.

(** The text of an assistant [raw_response_item], when it has one. *)
Definition raw_item_text (msg : json) : option string :=
  if type_is msg "raw_response_item" then
    match get msg "item" with
    | Some item =>
        if isObj item
           && match get item "role" with
              | Some (JStr r) => bool_decide (r = "assistant")
              | _ => false
              end
        then match get item "content" with
             | Some (JArr content) => first_output_text content
             | _ => None
             end
        else None
    | None => None
    end
  else None.

(** Lines 96-132 of the handler: what is forwarded for [msg] and the new
    value of the per-turn flag. *)
Definition forward_text (msg : json) (c : Client)
  : Client * list CodexRunnerEvent :=
  match (if isObj msg && type_is msg "agent_message_delta"
         then get_string msg "delta" else None) with
  | Some d => (set_saw true c, fire c (agent_message d))
  | None =>
    match (if isObj msg && type_is msg "agent_message_content_delta"
           then get_string msg "delta" else None) with
    | Some _ => (c, [])
    | None =>
      match (if isObj msg && type_is msg "agent_message"
                && negb (sawAssistantTextInFlight c)
             then get_string msg "message" else None) with
      | Some m => (set_saw true c, fire c (agent_message m))
      | None =>
        match (if isObj msg && negb (sawAssistantTextInFlight c)
               then raw_item_text msg else None) with
        | Some t => (set_saw true c, fire c (agent_message t))
        | None => (c, fire c (raw msg))
        end
      end
    end
  end.

(** The whole handler.  It throws a [TypeError], having forwarded nothing,
    when an identifier has no string, and for a [null] message, of which
    [extractUsage(msg)] reads [msg.usage] before any test: [None]. *)
Definition codex_event (msg : json) (c : Client)
  : option (Client * list CodexRunnerEvent) :=
  match updateIdentifiersFromEvent msg c with
  | threw _ => None
  | returned c1 =>
      match msg with
      | JNull => None
      | _ => Some (forward_text msg c1)
      end
  end.

(** A turn's notifications in arrival order, as long as the handler
    returns: [None] when it threw at one of them. *)
Fixpoint codex_events (msgs : list json) (c : Client)
  : option (Client * list CodexRunnerEvent) :=
  match msgs with
  | [] => Some (c, [])
  | msg :: rest =>
      match codex_event msg c with
      | None => None
      | Some (c1, out1) =>
          match codex_events rest c1 with
          | None => None
          | Some (c2, out2) => Some (c2, out1 ++ out2)
          end
      end
  end.

(** The assistant text a consumer assembles from the canonical events. *)
Fixpoint agent_text (out : list CodexRunnerEvent) : string :=
  match out with
  | [] => ""
  | agent_message m :: rest => m +:+ agent_text rest
  | _ :: rest => agent_text rest
  end.

(** *** Pending approvals: a [Map<string, resolver>] in insertion order *)

Fixpoint map_get (k : string) (m : list (string * nat)) : option nat :=
  match m with
  | [] => None
  | (k', v) :: rest => if bool_decide (k' = k) then Some v else map_get k rest
  end.

Fixpoint map_set (k : string) (v : nat) (m : list (string * nat))
  : list (string * nat) :=
  match m with
  | [] => [(k, v)]
  | (k', v') :: rest =>
      if bool_decide (k' = k) then (k, v) :: rest
      else (k', v') :: map_set k v rest
  end.

Fixpoint map_delete (k : string) (m : list (string * nat))
  : list (string * nat) :=
  match m with
  | [] => []
  | (k', v') :: rest =>
      if bool_decide (k' = k) then map_delete k rest
      else (k', v') :: map_delete k rest
  end.

Definition hasPendingApprovals (c : Client) : bool :=
  bool_decide (0 < length (pendingApprovals c))%nat.

(** [nextApprovalId]: [`${Date.now()}-${this.approvalSeq}`] after the
    increment. *)
Definition nextApprovalId (now : Z) (c : Client) : Client * string :=
  let n := approvalSeq c + 1 in
  (set_seq n c, pretty now +:+ "-" +:+ pretty n).

(** The elicitation request handler up to its [await].  [approvalId] is
    the value of
    [String(p?.codex_call_id || p?.codex_mcp_tool_call_id || p?.codex_event_id || '')];
    [resolver] names the promise the handler then awaits. *)
Definition elicit_request (approvalId : string)
    (message : option string) (command : option (list string))
    (cwd : option string) (now : Z) (resolver : nat) (c : Client)
  : Client * list CodexRunnerEvent :=
  let '(c1, id) :=
    if bool_decide (approvalId = "") then nextApprovalId now c
    else (c, approvalId) in
  let req := {| req_id := id; req_message := message;
                req_command := command; req_cwd := cwd |} in
  let c2 := set_pending (map_set id resolver (pendingApprovals c1)) c1 in
  (c2, fire c2 (approval_request req)).

Inductive ElicitAction : Type := accept | decline | cancel.

(** [toElicitResponse]: the [action] of the reply. *)
Definition toElicitResponse (decision : string) : ElicitAction :=
  if bool_decide (decision = "approved") then accept
  else if bool_decide (decision = "approved_for_session") then accept
  else if bool_decide (decision = "denied") then decline
  else cancel.


(** [stopActiveClaudeProcess(target?)]. *)
Definition stopActiveClaudeProcess (target : option ChildProcess) (c : Client)
  : Client * list Effect :=
  match (match target with Some p => Some p | None => activeClaudeProc c end) with
  | None => (c, [])
  | Some proc =>
      let effs :=
        if negb (exited proc) && negb (killed proc)
        then [Kill (pid proc) "SIGTERM"; ArmKiller (pid proc) 1200]
        else [] in
      let c1 :=
        match activeClaudeProc c with
        | Some p => if bool_decide (pid p = pid proc)
                    then set_proc None c else c
        | None => c
        end in
      (c1, effs)
  end.

(** [abortPendingApprovals]: the map is cleared, then every resolver that
    was in it is called with ['abort'], then the child process is stopped. *)
Definition abortPendingApprovals (c : Client) : Client * list Effect * Z :=
  let resolvers := map snd (pendingApprovals c) in
  let c1 := set_pending [] c in
  let resolved := map (fun r => Resolve r "abort") resolvers in
  let '(c2, stopped) := stopActiveClaudeProcess None c1 in
  (c2, resolved ++ stopped, Z.of_nat (length resolvers)).

Definition hasSession (c : Client) : bool :=
  match sessionId c with Some _ => true | None => false end.

(** [!this.sessionId] on the stored string. *)
Definition stored_falsy (stored : option json) : bool :=
  match stored with
  | None => true
  | Some v => String_empty v
  end.

(** [resetSessionState]. *)
Definition resetSessionState (c : Client) : Client * list Effect :=
  let '(c1, effs, _) := abortPendingApprovals c in
  (set_saw false (set_conversationId None (set_sessionId None c1)), effs).

(** [approve(id, decision)]. *)
Definition approve (id : string) (decision : string) (c : Client)
  : Client * list Effect * bool :=
  let pend := pendingApprovals c in
  let '(resolver, pendingApprovalKey) :=
    match map_get id pend with
    | Some r => (Some r, id)
    | None =>
        if bool_decide (length pend = 1%nat) then
          match pend with
          | (fallback, _) :: _ =>
              if bool_decide (fallback = "") then (None, id)
              else (map_get fallback pend, fallback)
          | [] => (None, id)
          end
        else (None, id)
    end in
  match resolver with
  | None => (c, [], false)
  | Some r =>
      let c1 :=
        if bool_decide (pendingApprovalKey = "") then c
        else set_pending (map_delete pendingApprovalKey pend) c in
      (c1, [Resolve r decision], true)
  end.

(** The first statements of [startSession]: the per-turn flag is reset. *)
Definition startSession_begin (c : Client) : Client := set_saw false c.

(** The first statements of [continueSession]: it throws
    ['missing sessionId'] without a session; otherwise [conversationId]
    defaults to [sessionId] and the per-turn flag is reset. *)
Definition continueSession_begin (c : Client) : option Client :=
  if stored_falsy (sessionId c) then None
  else
    let c1 := if stored_falsy (conversationId c)
              then set_conversationId (sessionId c) c else c in
    Some (set_saw false c1).

(** The loop of [extractIdentifiers] over [resp.content]. *)
Fixpoint extract_from_content (content : list json) (c : Client)
  : Ended Client :=
  match content with
  | [] => returned c
  | item :: rest =>
      let isid := get item "sessionId" in
      let take_sid := stored_falsy (sessionId c) && truthy isid in
      if take_sid && String_throws (default JNull isid) then threw c
      else
        let c1 := if take_sid then set_sessionId isid c else c in
        let icid := get item "conversationId" in
        let take_cid := stored_falsy (conversationId c1) && truthy icid in
        if take_cid && String_throws (default JNull icid) then threw c1
        else
          extract_from_content rest
            (if take_cid then set_conversationId icid c1 else c1)
  end.

(** [extractIdentifiers(resp)] on the reply of the tool call. *)
Definition extractIdentifiers (resp : json) (c : Client) : Ended Client :=
  let meta := get resp "meta" in
  let msid := match meta with Some m => get m "sessionId" | None => None end in
  let mcid :=
    match meta with Some m => get m "conversationId" | None => None end in
  if truthy meta && unprintable msid then threw c
  else
    let c1 := if truthy meta && truthy msid then set_sessionId msid c else c in
    if truthy meta && unprintable mcid then threw c1
    else
      let c2 :=
        if truthy meta && truthy mcid then set_conversationId mcid c1
        else c1 in
      match get resp "content" with
      | Some (JArr content) => extract_from_content content c2
      | _ => returned c2
      end.

End Adapter.

(* ================================================================== *)
(** ** CodexManager *)
(* ================================================================== *)

Module Manager.
Import Adapter.

Inductive Sandbox : Type := read_only | workspace_write | danger_full_access.
Inductive ApprovalPolicy : Type := untrusted | on_failure | on_request | never.
Inductive ReasoningEffort : Type := low | medium | high | xhigh.

Definition sandbox_name (x : Sandbox) : string :=
  match x with
  | read_only => "read-only"
  | workspace_write => "workspace-write"
  | danger_full_access => "danger-full-access"
  end.

Definition policy_name (x : ApprovalPolicy) : string :=
  match x with
  | untrusted => "untrusted"
  | on_failure => "on-failure"
  | on_request => "on-request"
  | never => "never"
  end.

Definition effort_name (x : ReasoningEffort) : string :=
  match x with
  | low => "low" | medium => "medium" | high => "high" | xhigh => "xhigh"
  end.

(** The [config] of a turn; [None] is an absent field. *)
Record Config : Type := {
  cwd : option string;
  sandbox : option Sandbox;
  approvalPolicy : option ApprovalPolicy;
  model : option string;
  reasoningEffort : option ReasoningEffort
}.

(** *** [JSON.stringify] of the fingerprint object *)

Definition dquote : ascii := "034"%char.

Definition hex_digit (n : N) : ascii :=
  match String.get (N.to_nat n) "0123456789abcdef" with
  | Some a => a
  | None => "0"%char
  end.

(** One character inside a JSON string literal. *)
Definition quote_char (a : ascii) : string :=
  let n := Ascii.N_of_ascii a in
  if (n =? 34)%N then String "\"%char (String dquote "")
  else if (n =? 92)%N then "\\"
  else if (n =? 8)%N then "\b"
  else if (n =? 12)%N then "\f"
  else if (n =? 10)%N then "\n"
  else if (n =? 13)%N then "\r"
  else if (n =? 9)%N then "\t"
  else if (n <? 32)%N then
    "\u00" +:+ String (hex_digit (n / 16)) (String (hex_digit (n mod 16)) "")
  else String a "".

Fixpoint quote_body (s : string) : string :=
  match s with
  | EmptyString => ""
  | String a rest => quote_char a +:+ quote_body rest
  end.

Definition JSON_quote (s : string) : string :=
  String dquote (quote_body s +:+ String dquote "").

(** [JSON.stringify(v ?? null)] for a string field. *)
Definition JSON_field (v : option string) : string :=
  match v with
  | Some s => JSON_quote s
  | None => "null"
  end.

Definition JSON_key (name : string) : string := JSON_quote name +:+ ":".

(** [sessionConfigKey]. *)
Definition sessionConfigKey (config : Config) : string :=
  "{" +:+ JSON_key "cwd" +:+ JSON_field (cwd config)
  +:+ "," +:+ JSON_key "sandbox" +:+ JSON_field (sandbox_name <$> sandbox config)
  +:+ "," +:+ JSON_key "approvalPolicy"
  +:+ JSON_field (policy_name <$> approvalPolicy config)
  +:+ "," +:+ JSON_key "model" +:+ JSON_field (model config)
  +:+ "," +:+ JSON_key "reasoningEffort"
  +:+ JSON_field (effort_name <$> reasoningEffort config)
  +:+ "}".

(** *** Runners *)

(** [abort] is the [AbortController] of the turn in flight: [Some aborted]. *)
Record RunnerState : Type := {
  client : Client;
  busy : bool;
  abort : option bool;
  configKey : option string;
  instanceId : string;
  codexHome : option string
}.

(** [codexHome] is the value of [binding.codexHome?.trim()]. *)
Record CodexInstanceBinding : Type := {
  b_instanceId : string;
  b_codexHome : option string
}.

Definition set_client (c : Client) (r : RunnerState) : RunnerState :=
  {| client := c; busy := busy r; abort := abort r; configKey := configKey r;
     instanceId := instanceId r; codexHome := codexHome r |}.

Definition set_busy (b : bool) (r : RunnerState) : RunnerState :=
  {| client := client r; busy := b; abort := abort r; configKey := configKey r;
     instanceId := instanceId r; codexHome := codexHome r |}.

Definition set_abort (a : option bool) (r : RunnerState) : RunnerState :=
  {| client := client r; busy := busy r; abort := a; configKey := configKey r;
     instanceId := instanceId r; codexHome := codexHome r |}.

Definition set_configKey (k : option string) (r : RunnerState) : RunnerState :=
  {| client := client r; busy := busy r; abort := abort r; configKey := k;
     instanceId := instanceId r; codexHome := codexHome r |}.

Inductive Result (A : Type) : Type :=
| Ok (a : A)
| Throw (message : string).
Arguments Ok {A} a.
Arguments Throw {A} message.

(** [key] and [chatKey]. *)
Definition key (sessionId chatId : string) : string :=
  sessionId +:+ ":" +:+ chatId.

(** [a || b] on strings. *)
Definition str_or (a : option string) (b : string) : string :=
  match a with
  | Some s => if bool_decide (s = "") then b else s
  | None => b
  end.

Definition nonempty (a : option string) : option string :=
  match a with
  | Some s => if bool_decide (s = "") then None else Some s
  | None => None
  end.

(** [get(sessionId, chatId, binding)]. *)
Definition get (sessionId chatId : string)
    (binding : option CodexInstanceBinding)
    (runners : gmap string RunnerState)
  : Result (gmap string RunnerState * RunnerState) :=
  let k := key sessionId chatId in
  let nextInstanceId := str_or (b_instanceId <$> binding) "default" in
  let nextCodexHome := nonempty (binding ≫= b_codexHome) in
  let fresh :=
    {| client := new_client; busy := false; abort := None;
       configKey := None; instanceId := nextInstanceId;
       codexHome := nextCodexHome |} in
  match runners !! k with
  | Some r =>
      if bool_decide (instanceId r = nextInstanceId)
         && bool_decide (codexHome r = nextCodexHome)
      then Ok (runners, r)
      else if busy r then Throw "chat_busy"
      else Ok (<[k := fresh]> (delete k runners), fresh)
  | None => Ok (<[k := fresh]> runners, fresh)
  end.

Definition isBusy (sessionId chatId : string)
    (runners : gmap string RunnerState) : bool :=
  match runners !! key sessionId chatId with
  | Some r => busy r
  | None => false
  end.

Definition hasPendingApproval (sessionId chatId : string)
    (runners : gmap string RunnerState) : bool :=
  match runners !! key sessionId chatId with
  | Some r => hasPendingApprovals (client r)
  | None => false
  end.

(** [approve(sessionId, chatId, id, decision)]. *)
Definition approve (sessionId chatId id decision : string)
    (runners : gmap string RunnerState)
  : gmap string RunnerState * list Effect * bool :=
  match runners !! key sessionId chatId with
  | None => (runners, [], false)
  | Some r =>
      let '(c, effs, ok) := Adapter.approve id decision (client r) in
      (<[key sessionId chatId := set_client c r]> runners, effs, ok)
  end.

(** [r.abort?.abort()]: the signal fires once. *)
Definition controller_abort (r : RunnerState) : RunnerState * list Effect :=
  match abort r with
  | Some false => (set_abort (Some true) r, [AbortSignalled])
  | _ => (r, [])
  end.

Inductive AbortReply : Type :=
| abort_ok
| abort_error (error : string).

(** [abort(sessionId, chatId)]. *)
Definition abort_turn (sessionId chatId : string)
    (runners : gmap string RunnerState)
  : gmap string RunnerState * list Effect * AbortReply :=
  match runners !! key sessionId chatId with
  | None => (runners, [], abort_error "not_running")
  | Some r =>
      if negb (busy r) then (runners, [], abort_error "not_running")
      else
        let '(c, effs1, _) := abortPendingApprovals (client r) in
        let '(r1, effs2) := controller_abort (set_client c r) in
        (<[key sessionId chatId := r1]> runners, effs1 ++ effs2, abort_ok)
  end.




(** [reset(sessionId, chatId)]. *)
Definition reset (sessionId chatId : string)
    (runners : gmap string RunnerState) : gmap string RunnerState :=
  delete (key sessionId chatId) runners.

(** *** A turn *)

(** [signal]: the caller's [AbortSignal], when given, and whether it is
    already aborted. *)
Record TurnOpts : Type := {
  o_sessionId : string;
  o_chatId : string;
  o_prompt : string;
  o_instance : option CodexInstanceBinding;
  o_config : Config;
  o_signal : option bool
}.

(** The variables [runTurn] closes over while the turn is in flight. *)
Record TurnCtx : Type := {
  nextConfigKey : string;
  turnStartAt : Z;
  lastNonProgressAt : Z;
  lastHeartbeatAt : Z
}.

(** The argument of [client.startSession]. *)
Record CodexSessionConfig : Type := {
  s_prompt : string;
  s_cwd : option string;
  s_sandbox : option Sandbox;
  s_approval_policy : option ApprovalPolicy;
  s_model : option string;
  s_model_reasoning_effort : option ReasoningEffort
}.

(** The backend call the turn then awaits.  [MissingSessionId] is
    [continueSession] throwing before it calls the backend. *)
Inductive Call : Type :=
| StartSession (config : CodexSessionConfig)
| ContinueSession (prompt : string)
| MissingSessionId.

Definition isProgressMsg (msg : json) : bool :=
  isObj msg && type_is msg "progress".

Definition progress (stage message : string) : CodexRunnerEvent :=
  raw (JObj [("type", JStr "progress"); ("stage", JStr stage);
             ("message", JStr message)]).

(** A nonnegative integer as a payload number. *)
Definition num (z : Z) : float := PrimFloat.of_uint63 (Uint63.of_Z z).

Definition heartbeat (quiet_s : Z) (pending : bool) (since_ms : Z)
  : CodexRunnerEvent :=
  raw (JObj [("type", JStr "progress"); ("stage", JStr "heartbeat");
             ("message",
              JStr ("still running; quiet=" +:+ pretty quiet_s
                    +:+ "s; pending_approval="
                    +:+ (if pending then "1" else "0")));
             ("detail", JObj [("sinceMs", JNum (num since_ms))])]).

Definition touch (now : Z) (ctx : TurnCtx) : TurnCtx :=
  {| nextConfigKey := nextConfigKey ctx; turnStartAt := turnStartAt ctx;
     lastNonProgressAt := now; lastHeartbeatAt := lastHeartbeatAt ctx |}.

Definition beat (now : Z) (ctx : TurnCtx) : TurnCtx :=
  {| nextConfigKey := nextConfigKey ctx; turnStartAt := turnStartAt ctx;
     lastNonProgressAt := lastNonProgressAt ctx; lastHeartbeatAt := now |}.

(** [emit]: every event but a progress message moves [lastNonProgressAt];
    the event then goes to [opts.onEvent]. *)
Definition emit (now : Z) (e : CodexRunnerEvent) (ctx : TurnCtx)
  : TurnCtx * list CodexRunnerEvent :=
  let ctx1 :=
    match e with
    | raw msg => if isProgressMsg msg then ctx else touch now ctx
    | _ => touch now ctx
    end in
  (ctx1, [e]).

Fixpoint emit_all (now : Z) (es : list CodexRunnerEvent) (ctx : TurnCtx)
  : TurnCtx * list CodexRunnerEvent :=
  match es with
  | [] => (ctx, [])
  | e :: rest =>
      let '(ctx1, out1) := emit now e ctx in
      let '(ctx2, out2) := emit_all now rest ctx1 in
      (ctx2, out1 ++ out2)
  end.

Definition heartbeatEveryMs : Z := 10000.

(** The body of the [setInterval(..., 1000)] callback. *)
Definition heartbeat_tick (now : Z) (r : RunnerState) (ctx : TurnCtx)
  : TurnCtx * list CodexRunnerEvent :=
  if now - lastNonProgressAt ctx <? heartbeatEveryMs then (ctx, [])
  else if now - lastHeartbeatAt ctx <? heartbeatEveryMs then (ctx, [])
  else
    emit now
      (heartbeat (Z.max 0 ((now - lastNonProgressAt ctx + 500) / 1000))
                 (hasPendingApprovals (client r))
                 (Z.max 0 (now - turnStartAt ctx)))
      (beat now ctx).

(** A [codex/event] notification arriving while the turn is in flight. *)
Definition on_notification (now : Z) (msg : json) (r : RunnerState)
    (ctx : TurnCtx)
  : option (RunnerState * TurnCtx * list CodexRunnerEvent) :=
  match codex_event msg (client r) with
  | None => None
  | Some (c, fired) =>
      let '(ctx1, out) := emit_all now fired ctx in
      Some (set_client c r, ctx1, out)
  end.

(** The caller's signal firing while the turn is in flight. *)
Definition on_signal_abort (r : RunnerState) : RunnerState * list Effect :=
  controller_abort r.

Definition start_message (config : Config) : string :=
  "starting new Codex session (model=" +:+ str_or (model config) "default"
  +:+ ", cwd=" +:+ str_or (cwd config) "(default)" +:+ ")".

Definition continue_message (config : Config) : string :=
  "continuing Codex session (model=" +:+ str_or (model config) "default"
  +:+ ")".

(** [runTurn] from its first statement to the backend call it awaits. *)
Definition runTurn_enter (opts : TurnOpts) (now : Z)
    (runners : gmap string RunnerState)
  : Result (gmap string RunnerState * TurnCtx
            * list CodexRunnerEvent * list Effect * Call) :=
  match get (o_sessionId opts) (o_chatId opts) (o_instance opts) runners with
  | Throw m => Throw m
  | Ok (runners1, r) =>
      if busy r then Throw "chat_busy"
      else
        let r1 := set_abort (Some false) (set_busy true r) in
        let ctx :=
          {| nextConfigKey := sessionConfigKey (o_config opts);
             turnStartAt := now; lastNonProgressAt := now;
             lastHeartbeatAt := 0 |} in
        let r2 := set_client (setEventHandler true (client r1)) r1 in
        let '(r3, effs_signal) :=
          match o_signal opts with
          | Some true => controller_abort r2
          | _ => (r2, [])
          end in
        let '(r4, ctx1, out_reset, effs_reset) :=
          if hasSession (client r3)
             && negb (bool_decide (configKey r3 = Some (nextConfigKey ctx)))
          then
            let '(ctx', out) :=
              emit now
                (progress "session_reset"
                   "session config changed; resetting Codex session") ctx in
            let '(c, effs) := resetSessionState (client r3) in
            (set_client c r3, ctx', out, effs)
          else (r3, ctx, [], []) in
        let '(r5, ctx2, out_call, call) :=
          if negb (hasSession (client r4)) then
            let '(ctx', out) :=
              emit now (progress "start_session"
                          (start_message (o_config opts))) ctx1 in
            (set_client (startSession_begin (client r4)) r4, ctx', out,
             StartSession
               {| s_prompt := o_prompt opts;
                  s_cwd := cwd (o_config opts);
                  s_sandbox := sandbox (o_config opts);
                  s_approval_policy := approvalPolicy (o_config opts);
                  s_model := model (o_config opts);
                  s_model_reasoning_effort :=
                    reasoningEffort (o_config opts) |})
          else
            let '(ctx', out) :=
              emit now (progress "continue_session"
                          (continue_message (o_config opts))) ctx1 in
            match continueSession_begin (client r4) with
            | Some c => (set_client c r4, ctx', out,
                         ContinueSession (o_prompt opts))
            | None => (r4, ctx', out, MissingSessionId)
            end in
        Ok (<[key (o_sessionId opts) (o_chatId opts) := r5]> runners1,
            ctx2, out_reset ++ out_call, effs_signal ++ effs_reset, call)
  end.

(** How the awaited call ends; [usage] and [rateLimits] are what
    [getLastUsage] and [getLastRateLimits] then return. *)
Inductive Outcome : Type :=
| Resolved (usage rateLimits : option json)
| Rejected (message : string).

(** [runTurn] after the call: a started session records its fingerprint,
    and the [finally] block releases the runner. *)
Definition runTurn_settle (call : Call) (outcome : Outcome)
    (ctx : TurnCtx) (r : RunnerState) : RunnerState :=
  let r1 :=
    match call, outcome with
    | StartSession _, Resolved _ _ => set_configKey (Some (nextConfigKey ctx)) r
    | _, _ => r
    end in
  set_abort None (set_busy false
    (set_client (setEventHandler false (client r1)) r1)).

End Manager.

(* ================================================================== *)
(** ** The gateway daemon (sessiond) *)
(* ================================================================== *)

Module Sessiond.
Import Adapter Manager.

Inductive Status : Type := idle | running | done | error.

#[global] Instance Status_eq_dec : EqDecision Status.
Proof. solve_decision. Defined.

Record StreamEvent : Type := {
  id : Z;
  event : string;
  data : json;
  ts : Z
}.

Record ChatStream : Type := {
  status : Status;
  nextId : Z;
  events : list StreamEvent;
  updatedAt : Z
}.

Definition maxEvents : nat := 4000.

Definition ensureStream (now : Z) (k : string)
    (streams : gmap string ChatStream)
  : gmap string ChatStream * ChatStream :=
  match streams !! k with
  | Some s => (streams, s)
  | None =>
      let s := {| status := idle; nextId := 1; events := []; updatedAt := now |} in
      (<[k := s]> streams, s)
  end.

Definition resetStream (now : Z) (k : string)
    (streams : gmap string ChatStream) : gmap string ChatStream :=
  let '(streams1, _) := ensureStream now k streams in
  <[k := {| status := running; nextId := 1; events := []; updatedAt := now |}]>
    streams1.

(** The status after an event of kind [ev]. *)
Definition latch (ev : string) (st : Status) : Status :=
  let st1 := if bool_decide (ev = "done") then done else st in
  if bool_decide (ev = "turn_error") || bool_decide (ev = "error")
  then error else st1.

(** [s.events.splice(0, s.events.length - maxEvents)] when over the cap. *)
Definition trim (cap : nat) (evs : list StreamEvent) : list StreamEvent :=
  if bool_decide (cap < length evs)%nat
  then drop (length evs - cap) evs else evs.

(** What [appendStreamEvent] does to the stream object. *)
Definition push (now : Z) (ev : string) (payload : json) (s : ChatStream)
  : ChatStream * StreamEvent :=
  let e := {| id := nextId s; event := ev; data := payload; ts := now |} in
  ({| status := latch ev (status s);
      nextId := nextId s + 1;
      events := trim maxEvents (events s ++ [e]);
      updatedAt := now |}, e).

Definition appendStreamEvent (now : Z) (k : string) (ev : string)
    (payload : json) (streams : gmap string ChatStream)
  : gmap string ChatStream * StreamEvent :=
  let '(streams1, s) := ensureStream now k streams in
  let '(s1, e) := push now ev payload s in
  (<[k := s1]> streams1, e).

(** [s.events.filter((e) => e.id > afterId)]. *)
Definition since (afterId : Z) (s : ChatStream) : list StreamEvent :=
  filter (fun e => afterId < id e) (events s).

Definition listStreamEventsSince (now : Z) (k : string) (afterId : Z)
    (streams : gmap string ChatStream)
  : gmap string ChatStream * list StreamEvent :=
  let '(streams1, s) := ensureStream now k streams in
  (streams1, since afterId s).

Record Runtime : Type := {
  rt_status : Status;
  rt_lastEventId : Z;
  rt_updatedAt : Z
}.

Definition runtime_of (s : ChatStream) : Runtime :=
  {| rt_status := status s; rt_lastEventId := Z.max 0 (nextId s - 1);
     rt_updatedAt := updatedAt s |}.

Definition getStreamRuntime (now : Z) (k : string)
    (streams : gmap string ChatStream)
  : gmap string ChatStream * Runtime :=
  let '(streams1, s) := ensureStream now k streams in
  (streams1, runtime_of s).

(** The daemon: its [CodexManager] and its stream buffers. *)
Record Daemon : Type := {
  codex : gmap string RunnerState;
  streamsByChatKey : gmap string ChatStream
}.

(** The body of [POST /v1/chats/start] once parsed; [instance.codexHome]
    as [Manager.CodexInstanceBinding] has it. *)
Record StartBody : Type := {
  sessionId : string;
  chatId : string;
  prompt : string;
  assistantMessageId : option string;
  instance : option CodexInstanceBinding;
  config : Config
}.

(** [StartSchema]: the strings that must not be empty.  The home of the
    instance is given trimmed, so this is the schema for a body whose
    [codexHome], when given, is not white space only. *)
Definition valid_start (b : StartBody) : bool :=
  negb (bool_decide (sessionId b = ""))
  && negb (bool_decide (chatId b = ""))
  && negb (bool_decide (prompt b = ""))
  && negb (bool_decide (assistantMessageId b = Some ""))
  && match instance b with
     | Some i => negb (bool_decide (b_instanceId i = ""))
                 && negb (bool_decide (b_codexHome i = Some ""))
     | None => true
     end.

Inductive Reply : Type :=
| reply_ok
| reply_error (http : Z) (error : string).

(** [x || null]. *)
Definition or_null (x : option string) : json :=
  match nonempty x with
  | Some s => JStr s
  | None => JNull
  end.

Definition opt_field (name : string) (x : option json)
  : list (string * json) :=
  match x with
  | Some v => [(name, v)]
  | None => []
  end.

Definition json_of_request (r : CodexApprovalRequest) : json :=
  JObj ([("id", JStr (req_id r))]
        ++ opt_field "message" (JStr <$> req_message r)
        ++ opt_field "command" ((fun l => JArr (JStr <$> l)) <$> req_command r)
        ++ opt_field "cwd" (JStr <$> req_cwd r)).

(** The [onEvent] callback handed to [runTurn]: the stream event a runner
    event becomes. *)
Definition stream_of_event (assistantMessageId : option string)
    (e : CodexRunnerEvent) : string * json :=
  match e with
  | agent_message m =>
      ("delta", JObj [("text", JStr m);
                      ("assistantMessageId", or_null assistantMessageId)])
  | approval_request r => ("approval_request", json_of_request r)
  | raw msg =>
      if isProgressMsg msg then
        ("progress",
         JObj [("stage", JStr (default "progress" (get_string msg "stage")));
               ("message", JStr (default "" (get_string msg "message")));
               ("detail", default JNull (nullish (Json.get msg "detail") None))])
      else ("codex_event", msg)
  end.

Fixpoint append_all (now : Z) (k : string) (items : list (string * json))
    (streams : gmap string ChatStream) : gmap string ChatStream :=
  match items with
  | [] => streams
  | (ev, payload) :: rest =>
      append_all now k rest (appendStreamEvent now k ev payload streams).1
  end.

(** A turn in flight, as the detached [async] block of the start handler
    and the closures of [runTurn] hold it.  The runner object that
    [runTurn] captured when the turn began is not part of the record: the
    functions below that read or write it take its state as [r].  It is
    the runner registered under [f_key] unless the chat was reset, or
    bound to another instance, since the turn began. *)
Record Flight : Type := {
  f_key : string;
  f_assistantMessageId : option string;
  f_ctx : TurnCtx;
  f_call : Call
}.

(** [err?.message ? String(err.message) : 'codex_error']. *)
Definition error_message (m : string) : string :=
  if bool_decide (m = "") then "codex_error" else m.

(** [POST /v1/chats/start], up to the reply: the busy guard, the stream
    reset, the [start] event, and [runTurn] as far as its backend call. *)
Definition start (b : StartBody) (now : Z) (d : Daemon)
  : Daemon * list Effect * Reply * option Flight :=
  if negb (valid_start b) then (d, [], reply_error 400 "bad_request", None)
  else if isBusy (sessionId b) (chatId b) (codex d)
  then (d, [], reply_error 409 "chat_busy", None)
  else
    let k := key (sessionId b) (chatId b) in
    let st1 := resetStream now k (streamsByChatKey d) in
    let st2 :=
      (appendStreamEvent now k "start"
         (JObj [("ok", JBool true);
                ("assistantMessageId", or_null (assistantMessageId b));
                ("instanceId", or_null (b_instanceId <$> instance b))])
         st1).1 in
    match runTurn_enter
            {| o_sessionId := sessionId b; o_chatId := chatId b;
               o_prompt := prompt b; o_instance := instance b;
               o_config := config b; o_signal := None |} now (codex d) with
    | Ok (runners, ctx, out, effs, call) =>
        ({| codex := runners;
            streamsByChatKey :=
              append_all now k
                (stream_of_event (assistantMessageId b) <$> out) st2 |},
         effs, reply_ok,
         Some {| f_key := k; f_assistantMessageId := assistantMessageId b;
                 f_ctx := ctx; f_call := call |})
    | Throw m =>
        ({| codex := codex d;
            streamsByChatKey :=
              (appendStreamEvent now k "turn_error"
                 (JObj [("message", JStr (error_message m))]) st2).1 |},
         [], reply_ok, None)
    end.

(** The events the detached block appends when [runTurn] settles. *)
Definition closing_events (outcome : Outcome) : list (string * json) :=
  match outcome with
  | Resolved usage rateLimits =>
      (if truthy usage then [("codex_usage", default JNull usage)] else [])
      ++ (if truthy rateLimits
          then [("codex_rate_limits", default JNull rateLimits)] else [])
      ++ [("done", JObj [("ok", JBool true)])]
  | Rejected m =>
      [("turn_error", JObj [("message", JStr (error_message m))])]
  end.

Definition with_ctx (ctx : TurnCtx) (f : Flight) : Flight :=
  {| f_key := f_key f; f_assistantMessageId := f_assistantMessageId f;
     f_ctx := ctx; f_call := f_call f |}.

(** The turn settling: the [finally] block of [runTurn] releases the
    runner [r] the turn captured, and the closing events are appended to
    the stream of the chat. *)
Definition settle (f : Flight) (outcome : Outcome) (now : Z)
    (r : RunnerState) (streams : gmap string ChatStream)
  : RunnerState * gmap string ChatStream :=
  (runTurn_settle (f_call f) outcome (f_ctx f) r,
   append_all now (f_key f) (closing_events outcome) streams).

(** A notification of the backend reaching the client of the runner [r]
    while the handler of the turn is registered on it; [None] when the
    handler of the client threw. *)
Definition notify (f : Flight) (msg : json) (now : Z)
    (r : RunnerState) (streams : gmap string ChatStream)
  : option (RunnerState * Flight * gmap string ChatStream) :=
  match on_notification now msg r (f_ctx f) with
  | None => None
  | Some (r1, ctx1, out) =>
      Some (r1, with_ctx ctx1 f,
            append_all now (f_key f)
              (stream_of_event (f_assistantMessageId f) <$> out) streams)
  end.

(** An elicitation request of the backend reaching the client of the
    runner [r]: the approval is pending under its id and the request goes
    to the handler. *)
Definition ask (f : Flight) (approvalId : string) (message : option string)
    (command : option (list string)) (cwd : option string) (resolver : nat)
    (now : Z) (r : RunnerState) (streams : gmap string ChatStream)
  : RunnerState * Flight * gmap string ChatStream :=
  let '(c, fired) :=
    elicit_request approvalId message command cwd now resolver (client r) in
  let '(ctx1, out) := emit_all now fired (f_ctx f) in
  (set_client c r, with_ctx ctx1 f,
   append_all now (f_key f)
     (stream_of_event (f_assistantMessageId f) <$> out) streams).

(** One firing of the heartbeat timer of the turn: it reads the runner
    [r] the turn captured and hands a heartbeat to [opts.onEvent]. *)
Definition tick (f : Flight) (now : Z) (r : RunnerState)
    (streams : gmap string ChatStream) : Flight * gmap string ChatStream :=
  let '(ctx1, out) := heartbeat_tick now r (f_ctx f) in
  (with_ctx ctx1 f,
   append_all now (f_key f)
     (stream_of_event (f_assistantMessageId f) <$> out) streams).

(** [POST /v1/chats/approve] and [POST /v1/chats/abort] reaching the
    runner [r] of a turn in flight: what they leave of it. *)
Definition decided (id decision : string) (r : RunnerState) : RunnerState :=
  set_client (Adapter.approve id decision (client r)).1.1 r.

Definition aborted (r : RunnerState) : RunnerState :=
  (controller_abort
     (set_client (abortPendingApprovals (client r)).1.1 r)).1.

(** What happens to a turn in flight. *)
Inductive Happening : Type :=
| heartbeat_timer
| backend_message (msg : json)
| approval_wanted (approvalId : string) (message : option string)
    (command : option (list string)) (cwd : option string) (resolver : nat)
| decision_given (id decision : string)
| abort_requested.

(** The runner the turn captured, the turn and the streams after one
    happening at the clock reading [now]; [None] when a handler threw. *)
Definition happen (now : Z) (x : Happening)
    (st : RunnerState * Flight * gmap string ChatStream)
  : option (RunnerState * Flight * gmap string ChatStream) :=
  let '(r, f, streams) := st in
  match x with
  | heartbeat_timer =>
      let '(f1, streams1) := tick f now r streams in Some (r, f1, streams1)
  | backend_message msg => notify f msg now r streams
  | approval_wanted approvalId message command cwd resolver =>
      Some (ask f approvalId message command cwd resolver now r streams)
  | decision_given id decision => Some (decided id decision r, f, streams)
  | abort_requested => Some (aborted r, f, streams)
  end.

(** A run of happenings, each with the value of [Date.now()]. *)
Fixpoint play (xs : list (Z * Happening))
    (st : RunnerState * Flight * gmap string ChatStream)
  : option (RunnerState * Flight * gmap string ChatStream) :=
  match xs with
  | [] => Some st
  | (now, x) :: rest =>
      match happen now x st with
      | Some st1 => play rest st1
      | None => None
      end
  end.

(** [GET /v1/chats/runtime]: a stream still marked running whose runner
    is not busy is closed with a reconciled [done] first. *)
Record RuntimeBody : Type := {
  body_status : Status;
  body_lastEventId : Z;
  body_updatedAt : Z;
  body_busy : bool
}.

Definition runtime (sid cid : string) (now : Z) (d : Daemon)
  : Daemon * RuntimeBody :=
  let k := key sid cid in
  let '(st1, rt) := getStreamRuntime now k (streamsByChatKey d) in
  let st2 :=
    if bool_decide (rt_status rt = running) && negb (isBusy sid cid (codex d))
    then (appendStreamEvent now k "done"
            (JObj [("ok", JBool true); ("reconciled", JBool true)]) st1).1
    else st1 in
  let '(st3, nextRt) := getStreamRuntime now k st2 in
  ({| codex := codex d; streamsByChatKey := st3 |},
   {| body_status := rt_status nextRt;
      body_lastEventId := rt_lastEventId nextRt;
      body_updatedAt := rt_updatedAt nextRt;
      body_busy := isBusy sid cid (codex d) |}).

(** [GET /v1/chats/events?after=n]. *)
Definition events_after (sid cid : string) (after : Z) (now : Z) (d : Daemon)
  : Daemon * list StreamEvent :=
  let '(st1, evs) :=
    listStreamEventsSince now (key sid cid) after (streamsByChatKey d) in
  ({| codex := codex d; streamsByChatKey := st1 |}, evs).

End Sessiond.

(* ================================================================== *)
(** ** MemoryStore: stream buffers with subscribers, and message text *)
(* ================================================================== *)

Module Store.
Import Adapter Manager.
Import Sessiond (Status, idle, running, done, error, StreamEvent, id, event,
                 data, ts, latch, trim, Runtime, rt_status, rt_lastEventId,
                 rt_updatedAt).

(** A listener is the callback a subscriber registered, named by a number;
    [listeners] is the [Set] in insertion order. *)
Record ChatStream : Type := {
  status : Status;
  nextId : Z;
  events : list StreamEvent;
  listeners : list nat;
  updatedAt : Z
}.

Record ChatMessage : Type := {
  m_id : string;
  m_text : string
}.

(** The part of [MemoryStore] the turn engine touches: the stream buffers
    and, per session and chat, the messages of the chat. *)
Record MemoryStore : Type := {
  streamsByChatKey : gmap string ChatStream;
  chatsBySession : gmap string (gmap string (list ChatMessage))
}.

Definition maxEvents : nat := 2000.

Definition ensureStream (now : Z) (k : string)
    (streams : gmap string ChatStream)
  : gmap string ChatStream * ChatStream :=
  match streams !! k with
  | Some s => (streams, s)
  | None =>
      let s := {| status := idle; nextId := 1; events := [];
                  listeners := []; updatedAt := now |} in
      (<[k := s]> streams, s)
  end.

(** [resetStream]: the listeners are kept. *)
Definition resetStream (now : Z) (k : string)
    (streams : gmap string ChatStream) : gmap string ChatStream :=
  let '(streams1, s) := ensureStream now k streams in
  <[k := {| status := running; nextId := 1; events := [];
            listeners := listeners s; updatedAt := now |}]> streams1.

Definition runtime_of (s : ChatStream) : Runtime :=
  {| rt_status := status s; rt_lastEventId := Z.max 0 (nextId s - 1);
     rt_updatedAt := updatedAt s |}.

Definition getStreamRuntime (now : Z) (k : string)
    (streams : gmap string ChatStream)
  : gmap string ChatStream * Runtime :=
  let '(streams1, s) := ensureStream now k streams in
  (streams1, runtime_of s).

(** What [appendStreamEvent] does to the stream object, and the calls
    [fn(e)] it makes, in order. *)
Definition push (now : Z) (ev : string) (payload : json) (s : ChatStream)
  : ChatStream * StreamEvent * list (nat * StreamEvent) :=
  let e := {| id := nextId s; event := ev; data := payload; ts := now |} in
  ({| status := latch ev (status s);
      nextId := nextId s + 1;
      events := trim maxEvents (events s ++ [e]);
      listeners := listeners s;
      updatedAt := now |}, e, (fun fn => (fn, e)) <$> listeners s).

Definition appendStreamEvent (now : Z) (k : string) (ev : string)
    (payload : json) (streams : gmap string ChatStream)
  : gmap string ChatStream * StreamEvent * list (nat * StreamEvent) :=
  let '(streams1, s) := ensureStream now k streams in
  let '(s1, e, calls) := push now ev payload s in
  (<[k := s1]> streams1, e, calls).

Definition since (afterId : Z) (s : ChatStream) : list StreamEvent :=
  filter (fun e => afterId < id e) (events s).

Definition listStreamEventsSince (now : Z) (k : string) (afterId : Z)
    (streams : gmap string ChatStream)
  : gmap string ChatStream * list StreamEvent :=
  let '(streams1, s) := ensureStream now k streams in
  (streams1, since afterId s).

(** [s.listeners.add(fn)]. *)
Definition set_add (fn : nat) (l : list nat) : list nat :=
  if bool_decide (fn ∈ l) then l else l ++ [fn].

Definition set_delete (fn : nat) (l : list nat) : list nat :=
  filter (fun x => x ≠ fn) l.

Definition with_listeners (l : list nat) (s : ChatStream) : ChatStream :=
  {| status := status s; nextId := nextId s; events := events s;
     listeners := l; updatedAt := updatedAt s |}.

Definition subscribeStream (now : Z) (k : string) (fn : nat)
    (streams : gmap string ChatStream) : gmap string ChatStream :=
  let '(streams1, s) := ensureStream now k streams in
  <[k := with_listeners (set_add fn (listeners s)) s]> streams1.

(** The function [subscribeStream] returns. *)
Definition unsubscribe (k : string) (fn : nat)
    (streams : gmap string ChatStream) : gmap string ChatStream :=
  match streams !! k with
  | None => streams
  | Some cur => <[k := with_listeners (set_delete fn (listeners cur)) cur]> streams
  end.

(** Appending one event after another; the calls to listeners add up. *)
Fixpoint append_all (now : Z) (k : string) (items : list (string * json))
    (streams : gmap string ChatStream)
  : gmap string ChatStream * list (nat * StreamEvent) :=
  match items with
  | [] => (streams, [])
  | (ev, payload) :: rest =>
      let '(streams1, _, calls1) := appendStreamEvent now k ev payload streams in
      let '(streams2, calls2) := append_all now k rest streams1 in
      (streams2, calls1 ++ calls2)
  end.

(** [chat.messages.findIndex(m => m.id === messageId)] and the update at
    that index. *)
Fixpoint update_text (messageId : string) (f : string -> string)
    (msgs : list ChatMessage) : option (list ChatMessage) :=
  match msgs with
  | [] => None
  | m :: rest =>
      if bool_decide (m_id m = messageId)
      then Some ({| m_id := m_id m; m_text := f (m_text m) |} :: rest)
      else cons m <$> update_text messageId f rest
  end.

(** [setMessageText] and [appendToMessageText] inside [try { } catch { }]:
    a missing chat or message changes no message ([getChatsMapForSession]
    registers an empty map for a session it does not know). *)
Definition try_update_text (sid chatId messageId : string)
    (f : string -> string)
    (chats : gmap string (gmap string (list ChatMessage)))
  : gmap string (gmap string (list ChatMessage)) :=
  match chats !! sid with
  | None => <[sid := ∅]> chats
  | Some m =>
      match m !! chatId with
      | None => chats
      | Some msgs =>
          match update_text messageId f msgs with
          | None => chats
          | Some msgs1 => <[sid := <[chatId := msgs1]> m]> chats
          end
      end
  end.

End Store.

(* ================================================================== *)
(** ** SessiondClient and the reconciliation bridge *)
(* ================================================================== *)

Module Bridge.
Import Adapter Manager.
Import Sessiond (Daemon, StreamEvent, id, event, data, ts, Status, idle,
                 running, done, error, body_status, body_lastEventId,
                 body_updatedAt, body_busy, rt_status, rt_lastEventId).

(** *** [knownCursorByChat] *)

(** [this.knownCursorByChat.get(k) || 0]. *)
Definition getKnownCursor (k : string) (cursors : gmap string Z) : Z :=
  default 0 (cursors !! k).

Definition markKnownCursor (k : string) (i : Z) (cursors : gmap string Z)
  : gmap string Z :=
  if bool_decide (getKnownCursor k cursors < i) then <[k := i]> cursors
  else cursors.

Definition resetKnownCursor (k : string) (cursors : gmap string Z)
  : gmap string Z :=
  delete k cursors.

(** The web server: its store and the cursors of its [SessiondClient]. *)
Record Server : Type := {
  store : Store.MemoryStore;
  knownCursorByChat : gmap string Z
}.

(** [typeof e.data?.k === 'string' ? e.data.k : '']. *)
Definition string_or_empty (payload : json) (k : string) : string :=
  default "" (get_string payload k).

(** One iteration of the loop of [syncStreamFromSessiond]. *)
Definition mirror (sid chatId : string) (now : Z) (e : StreamEvent)
    (acc : Server * bool * list (nat * StreamEvent))
  : Server * bool * list (nat * StreamEvent) :=
  let '(sv, shouldResetAssistantText, calls) := acc in
  let k := key sid chatId in
  let cursors := markKnownCursor k (id e) (knownCursorByChat sv) in
  let streams := Store.streamsByChatKey (store sv) in
  let chats := Store.chatsBySession (store sv) in
  if bool_decide (event e = "start") then
    let '(streams1, _, calls1) :=
      Store.appendStreamEvent now k "start" (data e) streams in
    let assistantMessageId := string_or_empty (data e) "assistantMessageId" in
    let chats1 :=
      if shouldResetAssistantText
         && negb (bool_decide (assistantMessageId = ""))
      then Store.try_update_text sid chatId assistantMessageId
             (fun _ => "") chats
      else chats in
    ({| store := {| Store.streamsByChatKey := streams1;
                    Store.chatsBySession := chats1 |};
        knownCursorByChat := cursors |}, false, calls ++ calls1)
  else if bool_decide (event e = "delta") then
    let assistantMessageId := string_or_empty (data e) "assistantMessageId" in
    let text := string_or_empty (data e) "text" in
    let chats1 :=
      if negb (bool_decide (assistantMessageId = ""))
         && negb (bool_decide (text = ""))
      then Store.try_update_text sid chatId assistantMessageId
             (fun old => old +:+ text) chats
      else chats in
    let '(streams1, _, calls1) :=
      Store.appendStreamEvent now k "delta"
        (JObj [("text", JStr text);
               ("assistantMessageId",
                Sessiond.or_null (Some assistantMessageId))])
        streams in
    ({| store := {| Store.streamsByChatKey := streams1;
                    Store.chatsBySession := chats1 |};
        knownCursorByChat := cursors |},
     shouldResetAssistantText, calls ++ calls1)
  else if bool_decide (event e ∈ ["approval_request"; "progress";
                                  "codex_event"; "codex_usage";
                                  "codex_rate_limits"; "turn_error"; "done"])
  then
    let '(streams1, _, calls1) :=
      Store.appendStreamEvent now k (event e) (data e) streams in
    ({| store := {| Store.streamsByChatKey := streams1;
                    Store.chatsBySession := chats |};
        knownCursorByChat := cursors |},
     shouldResetAssistantText, calls ++ calls1)
  else
    ({| store := store sv; knownCursorByChat := cursors |},
     shouldResetAssistantText, calls).



(** *** The polling loop of [SessiondClient.runTurn] *)

Record PollState : Type := {
  after : Z;
  usage : option json;
  rateLimits : option json;
  lastTurnErrorMessage : string
}.

(** What the loop hands to [opts.onEvent].  [forwarded_text payload] is
    the raw progress message whose text is [String(payload || '')]. *)
Inductive Forwarded : Type :=
| forwarded (e : CodexRunnerEvent)
| forwarded_text (payload : json)
| forwarded_approval (request : json).

(** [{ type: 'progress', ...fields }]. *)
Fixpoint obj_set (k : string) (v : json) (fs : list (string * json))
  : list (string * json) :=
  match fs with
  | [] => [(k, v)]
  | (k', v') :: rest =>
      if bool_decide (k' = k) then (k, v) :: rest
      else (k', v') :: obj_set k v rest
  end.

Definition spread_progress (payload : json) : json :=
  match payload with
  | JObj fs =>
      JObj (fold_left (fun acc kv => obj_set kv.1 kv.2 acc) fs
                      [("type", JStr "progress")])
  | JArr items =>
      JObj (imap (fun i v => (pretty (Z.of_nat i), v)) items
            ++ [("type", JStr "progress")])
  | _ => JObj [("type", JStr "progress")]
  end.

Definition with_after (a : Z) (ps : PollState) : PollState :=
  {| after := a; usage := usage ps; rateLimits := rateLimits ps;
     lastTurnErrorMessage := lastTurnErrorMessage ps |}.

(** The body of [for (const e of events)]. *)
Definition consume (k : string) (e : StreamEvent)
    (acc : PollState * gmap string Z * list Forwarded)
  : PollState * gmap string Z * list Forwarded :=
  let '(ps0, cursors0, out) := acc in
  let ps := with_after (id e) ps0 in
  let cursors := markKnownCursor k (id e) cursors0 in
  if bool_decide (event e = "progress") then
    (ps, cursors,
     out ++ [if isObj (data e) then forwarded (raw (spread_progress (data e)))
             else forwarded_text (data e)])
  else
    match (if bool_decide (event e = "delta")
           then get_string (data e) "text" else None) with
    | Some text => (ps, cursors, out ++ [forwarded (agent_message text)])
    | None =>
      if bool_decide (event e = "approval_request") then
        (ps, cursors, out ++ [forwarded_approval (data e)])
      else if bool_decide (event e = "codex_event") then
        (ps, cursors, out ++ [forwarded (raw (data e))])
      else if bool_decide (event e = "codex_usage") && isObj (data e) then
        ({| after := after ps; usage := Some (data e);
            rateLimits := rateLimits ps;
            lastTurnErrorMessage := lastTurnErrorMessage ps |}, cursors, out)
      else if bool_decide (event e = "codex_rate_limits") && isObj (data e) then
        ({| after := after ps; usage := usage ps;
            rateLimits := Some (data e);
            lastTurnErrorMessage := lastTurnErrorMessage ps |}, cursors, out)
      else if bool_decide (event e = "turn_error") then
        ({| after := after ps; usage := usage ps;
            rateLimits := rateLimits ps;
            lastTurnErrorMessage :=
              default "codex_error" (get_string (data e) "message") |},
         cursors, out)
      else (ps, cursors, out)
    end.

Inductive PollResult : Type :=
| Again (ps : PollState)
| Finished (usage rateLimits : option json)
| Failed (message : string).

(** One iteration of [while (true)] with the caller's signal not aborted:
    fetch since [after], consume, read the runtime, compare the cursor. *)
Definition poll (sid chatId : string) (now : Z) (d : Daemon)
    (cursors : gmap string Z) (ps : PollState)
  : Daemon * gmap string Z * list Forwarded * PollResult :=
  let k := key sid chatId in
  let '(d1, evs) :=
    Sessiond.events_after sid chatId (Z.max 0 (after ps)) now d in
  let '(ps1, cursors1, out) :=
    fold_left (fun acc e => consume k e acc) evs (ps, cursors, []) in
  let '(d2, rt) := Sessiond.runtime sid chatId now d1 in
  let '(ps2, cursors2) :=
    if bool_decide (body_lastEventId rt < after ps1)
    then (with_after 0 ps1, resetKnownCursor k cursors1)
    else (ps1, cursors1) in
  (d2, cursors2, out,
   if bool_decide (body_status rt = done)
   then Finished (usage ps2) (rateLimits ps2)
   else if bool_decide (body_status rt = error)
   then Failed (if bool_decide (lastTurnErrorMessage ps2 = "")
                then "codex_error" else lastTurnErrorMessage ps2)
   else Again ps2).

End Bridge.

(* ================================================================== *)
(** ** Rate-limit windows *)
(* ================================================================== *)

Module RateLimit.

(** [Math.min] and [Math.max] on two numbers: [NaN] is contagious and
    [-0] is below [+0]. *)
Definition Math_min (a b : float) : float :=
  if PrimFloat.is_nan a || PrimFloat.is_nan b then PrimFloat.nan
  else if PrimFloat.ltb a b then a
  else if PrimFloat.ltb b a then b
  else if PrimFloat.get_sign a then a else b.

Definition Math_max (a b : float) : float :=
  if PrimFloat.is_nan a || PrimFloat.is_nan b then PrimFloat.nan
  else if PrimFloat.ltb a b then b
  else if PrimFloat.ltb b a then a
  else if PrimFloat.get_sign a then b else a.

Section Numeric.

(** [Number(s.trim())], the numeric value JavaScript reads off a
    string. *)
Variable Number : string -> float.

(** [normalizeNumeric]. *)
Definition normalizeNumeric (value : option json) : option float :=
  match value with
  | Some (JNum x) => if PrimFloat.is_finite x then Some x else None
  | Some (JStr s) =>
      let parsed := Number s in
      if PrimFloat.is_finite parsed then Some parsed else None
  | _ => None
  end.

(** [a ?? b ?? ...] over property reads of [raw]. *)
Definition first_present (raw : json) (names : list string) : option json :=
  fold_right (fun name rest => nullish (Json.get raw name) rest) None names.

(** Lines 1108-1152 of [normalizeRateLimitWindow]: [usedPercent]. *)
Definition usedPercent (raw : json) : option float :=
  match normalizeNumeric
          (first_present raw
             ["used_percent"; "usedPercent"; "percent_used"; "percentUsed"])
  with
  | Some p => Some p
  | None =>
    match normalizeNumeric
            (first_present raw
               ["remaining_percent"; "remainingPercent";
                "percent_remaining"; "percentRemaining";
                "left_percent"; "leftPercent"])
    with
    | Some remainingPercent => Some (100 - remainingPercent)%float
    | None =>
      let used :=
        normalizeNumeric
          (first_present raw
             ["used"; "usedAmount"; "current"; "total_used";
              "tokens_used"; "usedTokens"]) in
      let limit :=
        normalizeNumeric
          (first_present raw
             ["limit"; "limitAmount"; "max"; "max_tokens"; "capacity";
              "total_limit"; "totalLimit"; "limitTokens"; "maxTokens";
              "capacity_tokens"; "capacityTokens"]) in
      match used, limit with
      | Some u, Some l =>
          if PrimFloat.ltb 0 l
          then Some (Math_max 0 (Math_min 100 (u / l * 100)%float))
          else None
      | _, _ => None
      end
    end
  end.

(** [normalizeRateLimitWindow(raw)]: [None] when it returns [null],
    otherwise the [used_percent] of the window it returns.  The
    [window_minutes] and [resets_at] it may add to the window are
    computed from other properties and are not modelled. *)
Definition normalizeRateLimitWindow (raw : json) : option float :=
  if isObj raw then usedPercent raw else None.

End Numeric.

End RateLimit.

(* ================================================================== *)
(** ** JavaScript [Map] and [Set] in insertion order *)
(* ================================================================== *)

Module JsMap.

Section Entries.
Context {A : Type}.

(** [m.get(k)]. *)
Fixpoint get (k : string) (m : list (string * A)) : option A :=
  match m with
  | [] => None
  | (k', v) :: rest => if bool_decide (k' = k) then Some v else get k rest
  end.

(** [m.set(k, v)]: a known key keeps its place. *)
Fixpoint set (k : string) (v : A) (m : list (string * A))
  : list (string * A) :=
  match m with
  | [] => [(k, v)]
  | (k', v') :: rest =>
      if bool_decide (k' = k) then (k, v) :: rest
      else (k', v') :: set k v rest
  end.

(** [m.delete(k)]. *)
Fixpoint delete (k : string) (m : list (string * A)) : list (string * A) :=
  match m with
  | [] => []
  | (k', v') :: rest =>
      if bool_decide (k' = k) then delete k rest
      else (k', v') :: delete k rest
  end.

(** [m.has(k)]. *)
Definition has (k : string) (m : list (string * A)) : bool :=
  match get k m with
  | Some _ => true
  | None => false
  end.

End Entries.

(** [set.add(x)] and [set.delete(x)] on a [Set] of strings. *)
Definition add (x : string) (l : list string) : list string :=
  if bool_decide (x ∈ l) then l else l ++ [x].

Definition remove (x : string) (l : list string) : list string :=
  filter (fun y => y ≠ x) l.

(** [arr.sort((a, b) => key(b) - key(a))]: the sort is stable, so among
    equal keys the earlier element stays first. *)
Section Sort.
Context {A : Type} (sort_key : A -> Z).

Fixpoint insert_desc (x : A) (l : list A) : list A :=
  match l with
  | [] => [x]
  | y :: rest =>
      if sort_key x <? sort_key y then y :: insert_desc x rest
      else x :: y :: rest
  end.

Definition sort_desc (l : list A) : list A := foldr insert_desc [] l.

End Sort.

End JsMap.

(* ================================================================== *)
(** ** MemoryStore: sessions, credentials, chats and terminal records *)
(* ================================================================== *)

Module StoreData.

(** What a store method does: it returns or it throws [new Error(message)].
    The store the method leaves behind is given beside the outcome. *)
Inductive Outcome (A : Type) : Type :=
| Returned (a : A)
| Thrown (message : string).
Arguments Returned {A} a.
Arguments Thrown {A} message.

Record Session : Type := {
  s_id : string;
  s_createdAt : Z;
  s_expiresAt : Z;
  activeChatId : option string;
  createdBySessionId : option string;
  createdByCredentialId : option string;
  isPersistent : option bool
}.

Record CredentialRecord : Type := {
  c_id : string;
  tokenHash : string;
  label : option string;
  c_createdBySessionId : string;
  c_createdAt : Z;
  lastUsedAt : option Z;
  usedCount : option Z;
  revokedAt : option Z
}.

(** [PublicCredentialRecord]: a credential without its token hash. *)
Record PublicCredentialRecord : Type := {
  pc_id : string;
  pc_label : option string;
  pc_createdBySessionId : string;
  pc_createdAt : Z;
  pc_lastUsedAt : option Z;
  pc_usedCount : option Z
}.

Inductive Role : Type := user | assistant | system.

Record ChatMessage : Type := {
  m_id : string;
  role : Role;
  text : string;
  m_createdAt : Z
}.

(** [ChatSettings]: [None] is a setting that is not there. *)
Record ChatSettings : Type := {
  model : option string;
  reasoningEffort : option Manager.ReasoningEffort;
  cwd : option string;
  sandbox : option Manager.Sandbox;
  approvalPolicy : option Manager.ApprovalPolicy
}.

(** [ChatSettingsPatch]: [None] is a key that is absent or [undefined],
    [Some None] is [null], [Some (Some v)] is the value [v]. *)
Record ChatSettingsPatch : Type := {
  p_model : option (option string);
  p_reasoningEffort : option (option Manager.ReasoningEffort);
  p_cwd : option (option string);
  p_sandbox : option (option Manager.Sandbox);
  p_approvalPolicy : option (option Manager.ApprovalPolicy)
}.

Record Chat : Type := {
  chat_id : string;
  chat_createdAt : Z;
  chat_updatedAt : Z;
  messages : list ChatMessage;
  settings : ChatSettings
}.

Inductive TerminalStatus : Type := t_running | t_stopped.

Record TerminalSessionRecord : Type := {
  t_id : string;
  t_createdAt : Z;
  t_cwd : string;
  t_status : TerminalStatus
}.

(** The fields of [MemoryStore].  The chats of a session are a [Map] in
    insertion order and the credential ids of an owner a [Set] in insertion
    order; the other maps are only read by key.  Writing to disk
    ([markForPersist]) is left out. *)
Record MemoryStore : Type := {
  sessionTtlMs : Z;
  sessions : gmap string Session;
  chatsBySession : gmap string (list (string * Chat));
  terminalSessionsBySid : gmap string (list TerminalSessionRecord);
  streamsByChatKey : gmap string Store.ChatStream;
  credentials : gmap string CredentialRecord;
  credentialsByOwner : gmap string (list string);
  credentialById : gmap string string
}.

Definition new_store (ttl : Z) : MemoryStore :=
  {| sessionTtlMs := ttl; sessions := ∅; chatsBySession := ∅;
     terminalSessionsBySid := ∅; streamsByChatKey := ∅; credentials := ∅;
     credentialsByOwner := ∅; credentialById := ∅ |}.

Definition with_sessions (x : gmap string Session) (st : MemoryStore)
  : MemoryStore :=
  {| sessionTtlMs := sessionTtlMs st; sessions := x;
     chatsBySession := chatsBySession st;
     terminalSessionsBySid := terminalSessionsBySid st;
     streamsByChatKey := streamsByChatKey st; credentials := credentials st;
     credentialsByOwner := credentialsByOwner st;
     credentialById := credentialById st |}.

Definition with_chats (x : gmap string (list (string * Chat)))
    (st : MemoryStore) : MemoryStore :=
  {| sessionTtlMs := sessionTtlMs st; sessions := sessions st;
     chatsBySession := x;
     terminalSessionsBySid := terminalSessionsBySid st;
     streamsByChatKey := streamsByChatKey st; credentials := credentials st;
     credentialsByOwner := credentialsByOwner st;
     credentialById := credentialById st |}.

Definition with_terminals (x : gmap string (list TerminalSessionRecord))
    (st : MemoryStore) : MemoryStore :=
  {| sessionTtlMs := sessionTtlMs st; sessions := sessions st;
     chatsBySession := chatsBySession st;
     terminalSessionsBySid := x;
     streamsByChatKey := streamsByChatKey st; credentials := credentials st;
     credentialsByOwner := credentialsByOwner st;
     credentialById := credentialById st |}.

Definition with_streams (x : gmap string Store.ChatStream)
    (st : MemoryStore) : MemoryStore :=
  {| sessionTtlMs := sessionTtlMs st; sessions := sessions st;
     chatsBySession := chatsBySession st;
     terminalSessionsBySid := terminalSessionsBySid st;
     streamsByChatKey := x; credentials := credentials st;
     credentialsByOwner := credentialsByOwner st;
     credentialById := credentialById st |}.

Definition with_credentials (x : gmap string CredentialRecord)
    (st : MemoryStore) : MemoryStore :=
  {| sessionTtlMs := sessionTtlMs st; sessions := sessions st;
     chatsBySession := chatsBySession st;
     terminalSessionsBySid := terminalSessionsBySid st;
     streamsByChatKey := streamsByChatKey st; credentials := x;
     credentialsByOwner := credentialsByOwner st;
     credentialById := credentialById st |}.

Definition with_owners (x : gmap string (list string)) (st : MemoryStore)
  : MemoryStore :=
  {| sessionTtlMs := sessionTtlMs st; sessions := sessions st;
     chatsBySession := chatsBySession st;
     terminalSessionsBySid := terminalSessionsBySid st;
     streamsByChatKey := streamsByChatKey st; credentials := credentials st;
     credentialsByOwner := x;
     credentialById := credentialById st |}.

Definition with_credentialById (x : gmap string string) (st : MemoryStore)
  : MemoryStore :=
  {| sessionTtlMs := sessionTtlMs st; sessions := sessions st;
     chatsBySession := chatsBySession st;
     terminalSessionsBySid := terminalSessionsBySid st;
     streamsByChatKey := streamsByChatKey st; credentials := credentials st;
     credentialsByOwner := credentialsByOwner st;
     credentialById := x |}.

(** *** Sessions *)

(** [resolveExpiresAt]. *)
Definition resolveExpiresAt (now : Z) (st : MemoryStore) : Z :=
  now + sessionTtlMs st.

Definition set_expiresAt (t : Z) (s : Session) : Session :=
  {| s_id := s_id s; s_createdAt := s_createdAt s; s_expiresAt := t;
     activeChatId := activeChatId s;
     createdBySessionId := createdBySessionId s;
     createdByCredentialId := createdByCredentialId s;
     isPersistent := isPersistent s |}.

Definition set_isPersistent (p : option bool) (s : Session) : Session :=
  {| s_id := s_id s; s_createdAt := s_createdAt s;
     s_expiresAt := s_expiresAt s; activeChatId := activeChatId s;
     createdBySessionId := createdBySessionId s;
     createdByCredentialId := createdByCredentialId s;
     isPersistent := p |}.

Definition set_activeChatId (c : option string) (s : Session) : Session :=
  {| s_id := s_id s; s_createdAt := s_createdAt s;
     s_expiresAt := s_expiresAt s; activeChatId := c;
     createdBySessionId := createdBySessionId s;
     createdByCredentialId := createdByCredentialId s;
     isPersistent := isPersistent s |}.

(** The [opts] of [createSession]. *)
Record SessionOpts : Type := {
  o_createdBySessionId : option string;
  o_createdByCredentialId : option string;
  o_isPersistent : option bool
}.

Definition no_opts : SessionOpts :=
  {| o_createdBySessionId := None; o_createdByCredentialId := None;
     o_isPersistent := None |}.

(** [createSession(opts)]; [fresh] is the value of [nanoid(24)]. *)
Definition createSession (opts : SessionOpts) (fresh : string) (now : Z)
    (st : MemoryStore) : MemoryStore * Session :=
  let session :=
    {| s_id := fresh; s_createdAt := now;
       s_expiresAt := resolveExpiresAt now st; activeChatId := None;
       createdBySessionId := o_createdBySessionId opts;
       createdByCredentialId := o_createdByCredentialId opts;
       isPersistent := o_isPersistent opts |} in
  (with_sessions (<[fresh := session]> (sessions st)) st, session).

(** [getOrCreateSessionWithId(id, { isPersistent })]. *)
Definition getOrCreateSessionWithId (id : string) (persistent : option bool)
    (now : Z) (st : MemoryStore) : MemoryStore * Session :=
  match sessions st !! id with
  | Some existing =>
      let s1 := set_expiresAt (resolveExpiresAt now st) existing in
      let s2 :=
        match persistent with
        | Some b => set_isPersistent (Some b) s1
        | None => s1
        end in
      (with_sessions (<[id := s2]> (sessions st)) st, s2)
  | None =>
      let session :=
        {| s_id := id; s_createdAt := now;
           s_expiresAt := resolveExpiresAt now st; activeChatId := None;
           createdBySessionId := None; createdByCredentialId := None;
           isPersistent := persistent |} in
      (with_sessions (<[id := session]> (sessions st)) st, session)
  end.

(** [getSession(id)]. *)
Definition getSession (id : string) (now : Z) (st : MemoryStore)
  : option Session :=
  match sessions st !! id with
  | Some s => if bool_decide (s_expiresAt s <= now) then None else Some s
  | None => None
  end.

(** [refreshSession(id)]. *)
Definition refreshSession (id : string) (now : Z) (st : MemoryStore)
  : MemoryStore * option Session :=
  match getSession id now st with
  | None => (st, None)
  | Some s =>
      let s1 := set_expiresAt (now + sessionTtlMs st) s in
      (with_sessions (<[id := s1]> (sessions st)) st, Some s1)
  end.

(** *** Credentials *)

(** A number read as a condition: [undefined] and [0] are falsy. *)
Definition truthy_num (x : option Z) : bool :=
  match x with
  | Some n => negb (n =? 0)
  | None => false
  end.

(** [addCredentialOwner]. *)
Definition addCredentialOwner (ownerSessionId credentialId : string)
    (owners : gmap string (list string)) : gmap string (list string) :=
  <[ownerSessionId :=
      JsMap.add credentialId (default [] (owners !! ownerSessionId))]> owners.

(** [removeCredentialOwner]. *)
Definition removeCredentialOwner (ownerSessionId credentialId : string)
    (owners : gmap string (list string)) : gmap string (list string) :=
  match owners !! ownerSessionId with
  | None => owners
  | Some l =>
      match JsMap.remove credentialId l with
      | [] => delete ownerSessionId owners
      | l1 => <[ownerSessionId := l1]> owners
      end
  end.

(** [getCredentialById]. *)
Definition getCredentialById (credentialId : string) (st : MemoryStore)
  : option CredentialRecord :=
  match credentialById st !! credentialId with
  | None => None
  | Some h => if bool_decide (h = "") then None else credentials st !! h
  end.

Definition set_used (now : Z) (r : CredentialRecord) : CredentialRecord :=
  {| c_id := c_id r; tokenHash := tokenHash r; label := label r;
     c_createdBySessionId := c_createdBySessionId r;
     c_createdAt := c_createdAt r; lastUsedAt := Some now;
     usedCount := Some (default 0 (usedCount r) + 1);
     revokedAt := revokedAt r |}.

Definition set_revokedAt (now : Z) (r : CredentialRecord)
  : CredentialRecord :=
  {| c_id := c_id r; tokenHash := tokenHash r; label := label r;
     c_createdBySessionId := c_createdBySessionId r;
     c_createdAt := c_createdAt r; lastUsedAt := lastUsedAt r;
     usedCount := usedCount r; revokedAt := Some now |}.

Definition public (r : CredentialRecord) : PublicCredentialRecord :=
  {| pc_id := c_id r; pc_label := label r;
     pc_createdBySessionId := c_createdBySessionId r;
     pc_createdAt := c_createdAt r; pc_lastUsedAt := lastUsedAt r;
     pc_usedCount := usedCount r |}.

(** What [createCredential] returns. *)
Record IssuedCredential : Type := {
  token : string;
  i_id : string;
  i_createdAt : Z;
  i_label : option string
}.

(** What [consumeCredential] returns. *)
Inductive Consumed : Type :=
| consumed_ok (session : Session) (credentialId : string)
| consumed_error (error : string).

Section Hashing.

(** [sha256Hex]. *)
Variable sha256Hex : string -> string.

(** The [do { } while (this.credentials.has(tokenHash))] loop over the
    tokens [crypto.randomBytes] hands out, in order: the first one whose
    hash is not in use. *)
Fixpoint draw_token (draws : list string)
    (creds : gmap string CredentialRecord) : option string :=
  match draws with
  | [] => None
  | t :: rest =>
      match creds !! sha256Hex t with
      | Some _ => draw_token rest creds
      | None => Some t
      end
  end.

(** [createCredential(sessionId, label)].  [draws] are the random tokens
    in the order they are drawn, [fresh] is the value of [nanoid(10)], and
    [label] is [label?.trim()].  [None] is the loop still drawing after
    [draws] are used up. *)
Definition createCredential (sessionId : string) (label : option string)
    (draws : list string) (fresh : string) (now : Z) (st : MemoryStore)
  : option (MemoryStore * IssuedCredential) :=
  match draw_token draws (credentials st) with
  | None => None
  | Some tok =>
      let h := sha256Hex tok in
      let rec :=
        {| c_id := fresh; tokenHash := h; label := Manager.nonempty label;
           c_createdBySessionId := sessionId; c_createdAt := now;
           lastUsedAt := None; usedCount := Some 0; revokedAt := None |} in
      Some (with_owners
              (addCredentialOwner sessionId fresh (credentialsByOwner st))
              (with_credentialById (<[fresh := h]> (credentialById st))
                 (with_credentials (<[h := rec]> (credentials st)) st)),
            {| token := tok; i_id := fresh; i_createdAt := now;
               i_label := Manager.nonempty label |})
  end.

(** [consumeCredential(token)]; [fresh] is the id of the session it
    creates. *)
Definition consumeCredential (tok : string) (fresh : string) (now : Z)
    (st : MemoryStore) : MemoryStore * Consumed :=
  let h := sha256Hex tok in
  match credentials st !! h with
  | None => (st, consumed_error "invalid_credential")
  | Some rec =>
      if truthy_num (revokedAt rec)
      then (st, consumed_error "revoked_credential")
      else
        let st1 :=
          with_credentials (<[h := set_used now rec]> (credentials st)) st in
        let '(st2, session) :=
          createSession
            {| o_createdBySessionId := Some (c_createdBySessionId rec);
               o_createdByCredentialId := Some (c_id rec);
               o_isPersistent := None |} fresh now st1 in
        (st2, consumed_ok session (c_id rec))
  end.

End Hashing.

(** [revokeCredential(sessionId, credentialId)]. *)
Definition revokeCredential (sessionId credentialId : string) (now : Z)
    (st : MemoryStore) : MemoryStore * bool :=
  match getCredentialById credentialId st with
  | None => (st, false)
  | Some rec =>
      if negb (bool_decide (c_createdBySessionId rec = sessionId))
      then (st, false)
      else if truthy_num (revokedAt rec) then (st, false)
      else
        (with_owners
           (removeCredentialOwner sessionId (c_id rec)
              (credentialsByOwner st))
           (with_credentials
              (<[tokenHash rec := set_revokedAt now rec]> (credentials st))
              st),
         true)
  end.

(** [listCredentialsForSession(sessionId)]. *)
Definition listCredentialsForSession (sessionId : string) (st : MemoryStore)
  : list PublicCredentialRecord :=
  match credentialsByOwner st !! sessionId with
  | None => []
  | Some ids =>
      JsMap.sort_desc pc_createdAt
        (omap (fun id =>
                 match getCredentialById id st with
                 | None => None
                 | Some rec =>
                     if negb (bool_decide
                                (c_createdBySessionId rec = sessionId))
                     then None
                     else if truthy_num (revokedAt rec) then None
                     else Some (public rec)
                 end) ids)
  end.

(** *** Chats *)

(** [getChatsMapForSession]: a session without chats gets an empty map. *)
Definition getChatsMapForSession (sessionId : string) (st : MemoryStore)
  : MemoryStore * list (string * Chat) :=
  match chatsBySession st !! sessionId with
  | Some m => (st, m)
  | None => (with_chats (<[sessionId := []]> (chatsBySession st)) st, [])
  end.

(** [getChat(sessionId, chatId)]. *)
Definition getChat (sessionId chatId : string) (st : MemoryStore)
  : MemoryStore * option Chat :=
  let '(st1, m) := getChatsMapForSession sessionId st in
  (st1, JsMap.get chatId m).

(** Writing through the chat object [getChat(sessionId, chatId)]
    returned. *)
Definition put_chat (sessionId chatId : string) (c : Chat)
    (st : MemoryStore) : MemoryStore :=
  with_chats
    (<[sessionId :=
         JsMap.set chatId c (default [] (chatsBySession st !! sessionId))]>
       (chatsBySession st)) st.

(** [createChat(sessionId)]; [fresh] is the value of [nanoid(14)]. *)
Definition createChat (sessionId : string) (fresh : string) (now : Z)
    (st : MemoryStore) : MemoryStore * Chat :=
  let chat :=
    {| chat_id := fresh; chat_createdAt := now; chat_updatedAt := now;
       messages := [];
       settings := {| model := None; reasoningEffort := None; cwd := None;
                      sandbox := None; approvalPolicy := None |} |} in
  let '(st1, m) := getChatsMapForSession sessionId st in
  let st2 :=
    with_chats (<[sessionId := JsMap.set fresh chat m]> (chatsBySession st1))
      st1 in
  let st3 :=
    match getSession sessionId now st2 with
    | Some s =>
        with_sessions
          (<[sessionId := set_activeChatId (Some fresh) s]> (sessions st2))
          st2
    | None => st2
    end in
  (st3, chat).

(** What [listChats] returns for one chat. *)
Record ChatSummary : Type := {
  cs_id : string;
  cs_createdAt : Z;
  cs_updatedAt : Z;
  preview : option string
}.

Definition summary_of (c : Chat) : ChatSummary :=
  {| cs_id := chat_id c; cs_createdAt := chat_createdAt c;
     cs_updatedAt := chat_updatedAt c;
     preview := text <$> last (messages c) |}.

(** [listChats(sessionId)]. *)
Definition listChats (sessionId : string) (st : MemoryStore)
  : MemoryStore * list ChatSummary :=
  let '(st1, m) := getChatsMapForSession sessionId st in
  (st1, JsMap.sort_desc cs_updatedAt (summary_of <$> m.*2)).

(** [deleteChat(sessionId, chatId)]. *)
Definition deleteChat (sessionId chatId : string) (st : MemoryStore)
  : MemoryStore * bool :=
  match chatsBySession st !! sessionId with
  | None => (st, false)
  | Some m =>
      if negb (JsMap.has chatId m) then (st, false)
      else
        let m1 := JsMap.delete chatId m in
        let chats1 :=
          match m1 with
          | [] => delete sessionId (chatsBySession st)
          | _ => <[sessionId := m1]> (chatsBySession st)
          end in
        let sessions1 :=
          match sessions st !! sessionId with
          | Some s =>
              if bool_decide (activeChatId s = Some chatId)
              then <[sessionId := set_activeChatId None s]> (sessions st)
              else sessions st
          | None => sessions st
          end in
        (with_streams
           (delete (Manager.key sessionId chatId) (streamsByChatKey st))
           (with_sessions sessions1 (with_chats chats1 st)),
         true)
  end.

(** [getActiveChatId(sessionId)]. *)
Definition getActiveChatId (sessionId : string) (now : Z) (st : MemoryStore)
  : MemoryStore * option string :=
  match getSession sessionId now st with
  | None => (st, None)
  | Some s =>
      match Manager.nonempty (activeChatId s) with
      | None => (st, None)
      | Some active =>
          let '(st1, m) := getChatsMapForSession sessionId st in
          if JsMap.has active m then (st1, Some active)
          else
            (with_sessions
               (<[sessionId := set_activeChatId None s]> (sessions st1)) st1,
             None)
      end
  end.

(** [setActiveChatId(sessionId, chatId)]. *)
Definition setActiveChatId (sessionId chatId : string) (now : Z)
    (st : MemoryStore) : MemoryStore * bool :=
  match getSession sessionId now st with
  | None => (st, false)
  | Some s =>
      let '(st1, m) := getChatsMapForSession sessionId st in
      if JsMap.has chatId m
      then (with_sessions
              (<[sessionId := set_activeChatId (Some chatId) s]>
                 (sessions st1)) st1,
            true)
      else (st1, false)
  end.

Definition apply_patch {A : Type} (p : option (option A)) (cur : option A)
  : option A :=
  match p with
  | None => cur
  | Some v => v
  end.

(** The loop of [updateChatSettings] over the entries of the patch. *)
Definition patched (patch : ChatSettingsPatch) (s : ChatSettings)
  : ChatSettings :=
  {| model := apply_patch (p_model patch) (model s);
     reasoningEffort :=
       apply_patch (p_reasoningEffort patch) (reasoningEffort s);
     cwd := apply_patch (p_cwd patch) (cwd s);
     sandbox := apply_patch (p_sandbox patch) (sandbox s);
     approvalPolicy :=
       apply_patch (p_approvalPolicy patch) (approvalPolicy s) |}.

Definition set_settings (s : ChatSettings) (now : Z) (c : Chat) : Chat :=
  {| chat_id := chat_id c; chat_createdAt := chat_createdAt c;
     chat_updatedAt := now; messages := messages c; settings := s |}.

Definition set_messages (ms : list ChatMessage) (now : Z) (c : Chat) : Chat :=
  {| chat_id := chat_id c; chat_createdAt := chat_createdAt c;
     chat_updatedAt := now; messages := ms; settings := settings c |}.

(** [updateChatSettings(sessionId, chatId, patch)]. *)
Definition updateChatSettings (sessionId chatId : string)
    (patch : ChatSettingsPatch) (now : Z) (st : MemoryStore)
  : MemoryStore * Outcome ChatSettings :=
  let '(st1, found) := getChat sessionId chatId st in
  match found with
  | None => (st1, Thrown "chat_not_found")
  | Some chat =>
      let next := patched patch (settings chat) in
      (put_chat sessionId chatId (set_settings next now chat) st1, Returned next)
  end.

(** The argument of [appendMessage]: [id] and [createdAt] may be left
    out. *)
Record NewMessage : Type := {
  n_id : option string;
  n_role : Role;
  n_text : string;
  n_createdAt : option Z
}.

(** [appendMessage(sessionId, chatId, msg)]; [fresh] is the value of
    [nanoid(12)]. *)
Definition appendMessage (sessionId chatId : string) (msg : NewMessage)
    (fresh : string) (now : Z) (st : MemoryStore)
  : MemoryStore * Outcome ChatMessage :=
  let '(st1, found) := getChat sessionId chatId st in
  match found with
  | None => (st1, Thrown "chat_not_found")
  | Some chat =>
      let full :=
        {| m_id := default fresh (n_id msg); role := n_role msg;
           text := n_text msg;
           m_createdAt := default now (n_createdAt msg) |} in
      (put_chat sessionId chatId (set_messages (messages chat ++ [full]) now chat)
         st1,
       Returned full)
  end.

(** [chat.messages.findIndex((m) => m.id === messageId)] and the write to
    [chat.messages[idx]]. *)
Fixpoint update_text (messageId : string) (f : string -> string)
    (msgs : list ChatMessage) : option (list ChatMessage) :=
  match msgs with
  | [] => None
  | m :: rest =>
      if bool_decide (m_id m = messageId)
      then Some ({| m_id := m_id m; role := role m; text := f (text m);
                    m_createdAt := m_createdAt m |} :: rest)
      else cons m <$> update_text messageId f rest
  end.

Definition write_text (sessionId chatId messageId : string)
    (f : string -> string) (now : Z) (st : MemoryStore)
  : MemoryStore * Outcome unit :=
  let '(st1, found) := getChat sessionId chatId st in
  match found with
  | None => (st1, Thrown "chat_not_found")
  | Some chat =>
      match update_text messageId f (messages chat) with
      | None => (st1, Thrown "message_not_found")
      | Some ms =>
          (put_chat sessionId chatId (set_messages ms now chat) st1, Returned tt)
      end
  end.

(** [appendToMessageText(sessionId, chatId, messageId, delta)]. *)
Definition appendToMessageText (sessionId chatId messageId delta : string)
    (now : Z) (st : MemoryStore) : MemoryStore * Outcome unit :=
  write_text sessionId chatId messageId (fun old => old +:+ delta) now st.

(** [setMessageText(sessionId, chatId, messageId, text)]. *)
Definition setMessageText (sessionId chatId messageId new_text : string)
    (now : Z) (st : MemoryStore) : MemoryStore * Outcome unit :=
  write_text sessionId chatId messageId (fun _ => new_text) now st.

(** A message as [replaceMessages] reads it: [l_id] is the id when it is
    a string, [l_role] the role when it is one of the three, [l_text] the
    text when it is a string, [l_createdAt] the time when it is a finite
    number. *)
Record LooseMessage : Type := {
  l_id : option string;
  l_role : option Role;
  l_text : option string;
  l_createdAt : option Z
}.

Definition loose (m : ChatMessage) : LooseMessage :=
  {| l_id := Some (m_id m); l_role := Some (role m);
     l_text := Some (text m); l_createdAt := Some (m_createdAt m) |}.

(** The callback of [messages.map((m, i) => ...)] in [replaceMessages]. *)
Definition safe_message (now : Z) (i : nat) (m : LooseMessage)
  : ChatMessage :=
  {| m_id :=
       match Manager.nonempty (l_id m) with
       | Some s => s
       | None => "msg-" +:+ pretty now +:+ "-" +:+ pretty (Z.of_nat i)
       end;
     role := default system (l_role m);
     text := default "" (l_text m);
     m_createdAt := default now (l_createdAt m) |}.

(** [replaceMessages(sessionId, chatId, messages)]. *)
Definition replaceMessages (sessionId chatId : string)
    (msgs : list LooseMessage) (now : Z) (st : MemoryStore)
  : MemoryStore * Outcome (list ChatMessage) :=
  let '(st1, found) := getChat sessionId chatId st in
  match found with
  | None => (st1, Thrown "chat_not_found")
  | Some chat =>
      let safe := imap (safe_message now) msgs in
      (put_chat sessionId chatId (set_messages safe now chat) st1, Returned safe)
  end.

(** *** Terminal records *)

(** [while (list.length > 20) list.pop()]; [fuel] bounds the number of
    rounds. *)
Fixpoint pop_down (fuel : nat) (l : list TerminalSessionRecord)
  : list TerminalSessionRecord :=
  match fuel with
  | O => l
  | S fuel' =>
      if (20 <? length l)%nat then pop_down fuel' (removelast l) else l
  end.

(** [createTerminalSession(sid, cwd)]; [fresh] is the value of
    [nanoid(9)]. *)
Definition createTerminalSession (sid cwd_ fresh : string) (now : Z)
    (st : MemoryStore) : MemoryStore * TerminalSessionRecord :=
  let record :=
    {| t_id := "terminal_" +:+ fresh; t_createdAt := now; t_cwd := cwd_;
       t_status := t_running |} in
  let l := record :: default [] (terminalSessionsBySid st !! sid) in
  (with_terminals
     (<[sid := pop_down (length l) l]> (terminalSessionsBySid st)) st,
   record).

(** [listTerminalSessions(sid)]. *)
Definition listTerminalSessions (sid : string) (st : MemoryStore)
  : list TerminalSessionRecord :=
  default [] (terminalSessionsBySid st !! sid).

(** [list.findIndex((item) => item.id === terminalId)] and the write at
    that index: [None] is [return false]. *)
Fixpoint stop_first (terminalId : string) (l : list TerminalSessionRecord)
  : option (list TerminalSessionRecord) :=
  match l with
  | [] => None
  | item :: rest =>
      if bool_decide (t_id item = terminalId) then
        match t_status item with
        | t_stopped => None
        | t_running =>
            Some ({| t_id := t_id item; t_createdAt := t_createdAt item;
                     t_cwd := t_cwd item; t_status := t_stopped |} :: rest)
        end
      else cons item <$> stop_first terminalId rest
  end.

(** [setTerminalSessionStopped(sid, terminalId)]. *)
Definition setTerminalSessionStopped (sid terminalId : string)
    (st : MemoryStore) : MemoryStore * bool :=
  match terminalSessionsBySid st !! sid with
  | None => (st, false)
  | Some l =>
      match stop_first terminalId l with
      | None => (st, false)
      | Some l1 =>
          (with_terminals (<[sid := l1]> (terminalSessionsBySid st)) st, true)
      end
  end.

(** *** [sweep] *)

Definition streamTtlMs : Z := 15 * 60 * 1000.

(** [sweep()]: streams that are not running and were last touched 15
    minutes ago or earlier go, and so does every credential id whose
    record cannot be found. *)
Definition sweep (now : Z) (st : MemoryStore) : MemoryStore :=
  let keep_stream (s : Store.ChatStream) : bool :=
    bool_decide (Store.status s = Sessiond.running)
    || negb (bool_decide (Store.updatedAt s + streamTtlMs <= now)) in
  let dangling (id : string) : bool :=
    match getCredentialById id st with
    | Some _ => false
    | None => bool_decide (is_Some (credentialById st !! id))
    end in
  with_credentialById
    (filter (fun kv => dangling kv.1 = false) (credentialById st))
    (with_owners
       ((fun l => filter (fun id => dangling id = false) l)
          <$> credentialsByOwner st)
       (with_streams
          (filter (fun kv => keep_stream kv.2 = true) (streamsByChatKey st))
          st)).

End StoreData.

(* ================================================================== *)
(** ** Path helpers of the web server (index.ts) *)
(* ================================================================== *)

Module Paths.

(** The class [[a-zA-Z0-9._-]]. *)
Definition safe_char (a : ascii) : bool :=
  let n := Ascii.N_of_ascii a in
  ((97 <=? n) && (n <=? 122) || (65 <=? n) && (n <=? 90)
   || (48 <=? n) && (n <=? 57) || (n =? 46) || (n =? 95) || (n =? 45))%N.

Definition is_underscore (a : ascii) : bool :=
  (Ascii.N_of_ascii a =? 95)%N.

(** [.replace(/[^a-zA-Z0-9._-]+/g, '_')]: every maximal run of characters
    outside the class becomes one underscore.  [in_run] says that the
    character before was outside the class. *)
Fixpoint squash (in_run : bool) (s : string) : string :=
  match s with
  | EmptyString => ""
  | String a rest =>
      if safe_char a then String a (squash false rest)
      else if in_run then squash true rest
      else String "_"%char (squash true rest)
  end.

(** [.replace(/^_+/, '')]. *)
Fixpoint strip_leading (s : string) : string :=
  match s with
  | EmptyString => ""
  | String a rest => if is_underscore a then strip_leading rest else s
  end.

(** [.replace(/_+$/, '')]. *)
Fixpoint strip_trailing (s : string) : string :=
  match s with
  | EmptyString => ""
  | String a rest =>
      match strip_trailing rest with
      | EmptyString => if is_underscore a then "" else String a ""
      | kept => String a kept
      end
  end.

(** [toSafePathSegment(input, fallback)]. *)
Definition toSafePathSegment (input fallback : string) : string :=
  let safe := strip_trailing (strip_leading (squash false input)) in
  if bool_decide (safe = "") then fallback else safe.

Section Separator.

(** [path.sep]: ['/'] on POSIX, ['\\'] on Windows. *)
Variable sep : ascii.

(** [s.endsWith(path.sep)]. *)
Fixpoint endsWith_sep (s : string) : bool :=
  match s with
  | EmptyString => false
  | String a EmptyString => bool_decide (a = sep)
  | String _ rest => endsWith_sep rest
  end.

(** [isWithinRoot(real, rootReal)]; [String.prefix p s] is
    [s.startsWith(p)]. *)
Definition isWithinRoot (real rootReal : string) : bool :=
  if bool_decide (real = rootReal) then true
  else
    let pref :=
      if endsWith_sep rootReal then rootReal
      else rootReal +:+ String sep "" in
    String.prefix pref real.

End Separator.

End Paths.

(* ================================================================== *)
(** ** Chat routes of the web server (index.ts) *)
(* ================================================================== *)

Module WebApi.
Import StoreData.

(** A number as [Number.isFinite] and [Math.floor] read it: a finite
    number, given by its [Math.floor], or one of [NaN], [Infinity] and
    [-Infinity]. *)
Inductive number : Type :=
| finite (floor : Z)
| not_finite.

Definition COMPACT_KEEP_LAST_DEFAULT : Z := 8.
Definition COMPACT_SUMMARY_MAX_CHARS : nat := 2000.

(** [normalizeCompactKeep(value)] on [Number(value)]. *)
Definition normalizeCompactKeep (value : number) : Z :=
  match value with
  | not_finite => COMPACT_KEEP_LAST_DEFAULT
  | finite fl => Z.max 0 fl
  end.

Definition role_name (r : Role) : string :=
  match r with
  | user => "user"
  | assistant => "assistant"
  | system => "system"
  end.

Definition newline : string := String "010"%char "".

(** One line of the summary.  The messages of a chat carry one of the
    three roles and a string as text, so the guards of the source on both
    always pass. *)
Definition summary_line (m : ChatMessage) : string :=
  let clipped :=
    if (260 <? String.length (text m))%nat
    then String.substring 0 257 (text m) +:+ "..."
    else text m in
  "[" +:+ role_name (role m) +:+ "] " +:+ clipped.

(** [summarizeChatForCompact(messages)]. *)
Definition summarizeChatForCompact (msgs : list ChatMessage) : string :=
  match msgs with
  | [] => ""
  | _ =>
      let raw := String.concat newline (summary_line <$> msgs) in
      if (COMPACT_SUMMARY_MAX_CHARS <? String.length raw)%nat
      then String.substring 0 COMPACT_SUMMARY_MAX_CHARS raw +:+ "..."
      else raw
  end.

(** [buildCompactedMessages(messages, keepLast)]: the messages and
    [removedCount]. *)
Definition buildCompactedMessages (msgs : list ChatMessage)
    (keepLast : number) (now : Z) : list ChatMessage * nat :=
  let n := normalizeCompactKeep keepLast in
  let keep :=
    if 0 <? n then drop (length msgs - Z.to_nat n) msgs else [] in
  let toCompact :=
    if (length keep <? length msgs)%nat
    then take (length msgs - length keep) msgs else [] in
  match toCompact with
  | [] => (keep, 0%nat)
  | _ =>
      let compactSummary :=
        {| m_id := "compact-" +:+ pretty now; role := system;
           text := "Conversation compacted. Summary of "
                   +:+ pretty (Z.of_nat (length toCompact))
                   +:+ " earlier messages:" +:+ newline
                   +:+ summarizeChatForCompact toCompact;
           m_createdAt := now |} in
      (compactSummary :: keep, length toCompact)
  end.

Inductive CompactReply : Type :=
| compact_refused (http : Z) (error : string)
| compact_nothing
| compact_done (removedCount keptCount : nat)
| compact_threw (message : string).

(** [POST /api/chats/:chatId/compact] for the session [sid] that
    [requireAuth] found.  [parsed] is what [CompactSchema] made of the
    body: [None] when it refused it, otherwise [keep_last], an integer
    from 0 to 300 when it is there. *)
Definition compact_route (sid chatId : string) (parsed : option (option Z))
    (now : Z) (st : MemoryStore) : MemoryStore * CompactReply :=
  let '(st1, found) := getChat sid chatId st in
  match found with
  | None => (st1, compact_refused 404 "not_found")
  | Some chat =>
      let '(streams1, rt) :=
        Store.getStreamRuntime now (Manager.key sid chatId)
          (streamsByChatKey st1) in
      let st2 := with_streams streams1 st1 in
      if bool_decide (Sessiond.rt_status rt = Sessiond.running)
      then (st2, compact_refused 409 "chat_busy")
      else
        match parsed with
        | None => (st2, compact_refused 400 "bad_request")
        | Some keep_last =>
            let '(msgs, removedCount) :=
              buildCompactedMessages (messages chat)
                (finite (default COMPACT_KEEP_LAST_DEFAULT keep_last)) now in
            match msgs, removedCount with
            | [], _ | _, O => (st2, compact_nothing)
            | _, _ =>
                match replaceMessages sid chatId (loose <$> msgs) now st2 with
                | (st3, Returned _) =>
                    (st3, compact_done removedCount (length msgs))
                | (st3, Thrown m) => (st3, compact_threw m)
                end
            end
        end
  end.

(** What [GET /api/chats/:chatId] sends of a chat. *)
Record ChatView : Type := {
  v_id : string;
  v_createdAt : Z;
  v_updatedAt : Z;
  v_messages : list ChatMessage;
  messagesStart : nat;
  messagesTotal : nat;
  v_settings : ChatSettings
}.

(** [delete safeSettings.sandbox; delete safeSettings.approvalPolicy]. *)
Definition safeSettings (s : ChatSettings) : ChatSettings :=
  {| model := model s; reasoningEffort := reasoningEffort s; cwd := cwd s;
     sandbox := None; approvalPolicy := None |}.

(** [GET /api/chats/:chatId?tail=n] for the session [sid]; [rawTail] is
    [Number(req.query.tail)], or [NaN] when the parameter is not there. *)
Definition chat_route (sid chatId : string) (rawTail : number) (now : Z)
    (st : MemoryStore) : MemoryStore * option ChatView :=
  let '(st1, found) := getChat sid chatId st in
  match found with
  | None => (st1, None)
  | Some chat =>
      let '(st2, _) := setActiveChatId sid chatId now st1 in
      let totalMessages := length (messages chat) in
      let tail :=
        match rawTail with
        | finite fl => Z.max 0 (Z.min 1000 fl)
        | not_finite => 0
        end in
      let start :=
        if 0 <? tail then (totalMessages - Z.to_nat tail)%nat else 0%nat in
      let msgs :=
        if 0 <? tail then drop start (messages chat) else messages chat in
      (st2,
       Some {| v_id := chat_id chat; v_createdAt := chat_createdAt chat;
               v_updatedAt := chat_updatedAt chat; v_messages := msgs;
               messagesStart := start; messagesTotal := totalMessages;
               v_settings := safeSettings (settings chat) |})
  end.

(** [SettingsSchema] on a patch whose values have the right types: a
    model and a working directory, when given, are not empty. *)
Definition valid_settings (p : ChatSettingsPatch) : bool :=
  negb (bool_decide (p_model p = Some (Some "")))
  && negb (bool_decide (p_cwd p = Some (Some ""))).

(** [const { sandbox, approvalPolicy, ...rest } = parsed.data]. *)
Definition rest_of (p : ChatSettingsPatch) : ChatSettingsPatch :=
  {| p_model := p_model p; p_reasoningEffort := p_reasoningEffort p;
     p_cwd := p_cwd p; p_sandbox := None; p_approvalPolicy := None |}.

(** [POST /api/chats/:chatId/settings] for the session [sid]. *)
Definition settings_route (sid chatId : string) (body : ChatSettingsPatch)
    (now : Z) (st : MemoryStore) : MemoryStore * Sessiond.Reply :=
  let '(st1, found) := getChat sid chatId st in
  match found with
  | None => (st1, Sessiond.reply_error 404 "not_found")
  | Some _ =>
      if negb (valid_settings body)
      then (st1, Sessiond.reply_error 400 "bad_request")
      else ((updateChatSettings sid chatId (rest_of body) now st1).1,
            Sessiond.reply_ok)
  end.

End WebApi.

(* ================================================================== *)
(** ** The other endpoints of the gateway daemon (sessiond.ts) *)
(* ================================================================== *)

Module SessiondApi.
Import Adapter Manager Sessiond.

Definition set_status (st : Status) (s : ChatStream) : ChatStream :=
  {| status := st; nextId := nextId s; events := events s;
     updatedAt := updatedAt s |}.

(** [POST /v1/chats/reset] for a body [AbortSchema] accepts: the runner
    is dropped, the stream is reset and then marked idle. *)
Definition reset_chat (sid cid : string) (now : Z) (d : Daemon) : Daemon :=
  let k := key sid cid in
  let st1 := resetStream now k (streamsByChatKey d) in
  let '(st2, s) := ensureStream now k st1 in
  {| codex := reset sid cid (codex d);
     streamsByChatKey := <[k := set_status idle s]> st2 |}.

(** [POST /v1/chats/abort] for a body [AbortSchema] accepts. *)
Definition abort_chat (sid cid : string) (d : Daemon)
  : Daemon * list Effect * Reply :=
  let '(runners, effs, r) := abort_turn sid cid (codex d) in
  ({| codex := runners; streamsByChatKey := streamsByChatKey d |}, effs,
   match r with
   | abort_ok => reply_ok
   | abort_error e =>
       reply_error 409 (if bool_decide (e = "") then "abort_failed" else e)
   end).

(** [POST /v1/chats/approve] for a body [ApproveSchema] accepts. *)
Definition approve_chat (sid cid id decision : string) (d : Daemon)
  : Daemon * list Effect * Reply :=
  let '(runners, effs, ok) := approve sid cid id decision (codex d) in
  ({| codex := runners; streamsByChatKey := streamsByChatKey d |}, effs,
   if ok then reply_ok else reply_error 404 "not_found").

End SessiondApi.

(* ================================================================== *)
(** ** Rate limits found in a payload (codexMcpClient.ts) *)
(* ================================================================== *)

Module Usage.

(** [asObj(x)]: [x] when it is an object, otherwise [null]. *)
Definition asObj (x : option json) : option json :=
  match x with
  | Some v => if isObj v then Some v else None
  | None => None
  end.

(** [a || b] on two results of [asObj]. *)
Definition or_else (a b : option json) : option json :=
  match a with
  | Some _ => a
  | None => b
  end.

(** [asObj(current.rate_limits) || asObj(current.rateLimits) || ...]. *)
Definition direct (current : json) : option json :=
  or_else (asObj (get current "rate_limits"))
    (or_else (asObj (get current "rateLimits"))
       (or_else (asObj (get current "rate_limits_raw"))
          (asObj (get current "rateLimitsRaw")))).

(** The limits under [current.usage], [current.meta] or [current.info]. *)
Definition under (holder : string) (current : json) : option json :=
  match asObj (get current holder) with
  | Some h => or_else (asObj (get h "rate_limits"))
                      (asObj (get h "rateLimits"))
  | None => None
  end.

(** [Object.values(v)], for an object whose keys are not array indices
    (JavaScript lists those first). *)
Definition values (v : json) : list json :=
  match v with
  | JObj fs => fs.*2
  | JArr items => items
  | _ => []
  end.

(** [for (const value of values) { const found = f(value); if (found)
    return found; } return null;]. *)
Fixpoint first_found (f : json -> option json) (l : list json)
  : option json :=
  match l with
  | [] => None
  | value :: rest =>
      match f value with
      | Some found => Some found
      | None => first_found f rest
      end
  end.

(** [searchRec(node, depth)]; [levels] is the number of levels still
    open, 9 less [depth].  The payloads searched are trees, on which the
    [seen] set never stops the search. *)
Fixpoint searchRec (levels : nat) (node : json) : option json :=
  match levels with
  | O => None
  | S levels' =>
      if negb (isObj node) then None
      else
        match direct node with
        | Some r => Some r
        | None =>
          match under "usage" node with
          | Some r => Some r
          | None =>
            match under "meta" node with
            | Some r => Some r
            | None =>
              match under "info" node with
              | Some r => Some r
              | None => first_found (searchRec levels') (values node)
              end
            end
          end
        end
  end.

(** [extractRateLimits(v)]. *)
Definition extractRateLimits (v : json) : option json := searchRec 9 v.

End Usage.

(* ================================================================== *)
(** ** The Claude backend of the adapter (codexMcpClient.ts) *)
(* ================================================================== *)

Module Claude.
Import Adapter.

(** The chunks [extractClaudeAssistantText] collects from
    [message.content]: the non-empty texts of the [text] items. *)
Definition chunks (content : list json) : list string :=
  omap (fun item =>
          match (if isObj item && type_is item "text"
                 then get_string item "text" else None) with
          | Some t => if bool_decide (t = "") then None else Some t
          | None => None
          end) content.

(** [extractClaudeAssistantText(payload)]. *)
Definition extractClaudeAssistantText (payload : json) : string :=
  match get payload "message" with
  | Some msg =>
      if isObj msg then
        match get msg "content" with
        | Some (JArr content) => foldr String.append "" (chunks content)
        | _ => ""
        end
      else ""
  | None => ""
  end.

(** The text of a [stream_event] payload that is a text delta. *)
Definition stream_delta (payload : json) : option string :=
  if isObj payload && type_is payload "stream_event" then
    match get payload "event" with
    | Some ev =>
        if isObj ev && type_is ev "content_block_delta" then
          match get ev "delta" with
          | Some delta =>
              if isObj delta && type_is delta "text_delta"
              then get_string delta "text" else None
          | None => None
          end
        else None
    | None => None
    end
  else None.

(** [{ type: 'claude_event', data: payload }]. *)
Definition claude_event (payload : json) : CodexRunnerEvent :=
  raw (JObj [("type", JStr "claude_event"); ("data", payload)]).

(** [{ type: 'claude_stdout', line: raw }]. *)
Definition claude_stdout (line : string) : CodexRunnerEvent :=
  raw (JObj [("type", JStr "claude_stdout"); ("line", JStr line)]).

(** [if (!this.conversationId && this.sessionId) ...]. *)
Definition default_conversation (c : Client) : Client :=
  if stored_falsy (conversationId c) && negb (stored_falsy (sessionId c))
  then set_conversationId (sessionId c) c else c.

(** [handleClaudeJsonLine(payload)].  It throws a [TypeError] when an
    identifier of the payload has no string and, after the identifiers
    were looked at, for a [null] payload, of which [extractUsage(payload)]
    reads [payload.usage]: [inr] is the client at the throw. *)
Definition handleClaudeJsonLine (payload : json) (c : Client)
  : (Client * list CodexRunnerEvent) + Client :=
  match updateIdentifiersFromEvent payload c with
  | threw c0 => inr c0
  | returned c0 =>
      let c1 := default_conversation c0 in
      match payload with
      | JNull => inr c1
      | _ =>
          inl (let '(c2, out1) :=
                 match stream_delta payload with
                 | Some t => (set_saw true c1, fire c1 (agent_message t))
                 | None => (c1, [])
                 end in
               let '(c3, out2) :=
                 if isObj payload && type_is payload "assistant"
                    && negb (sawAssistantTextInFlight c2)
                 then
                   let t := extractClaudeAssistantText payload in
                   if bool_decide (t = "") then (c2, [])
                   else (set_saw true c2, fire c2 (agent_message t))
                 else (c2, []) in
               (c3, out1 ++ out2 ++ fire c3 (claude_event payload)))
      end
  end.

(** [onStdoutLine(line)] for a line that is not blank: [parsed] is what
    [JSON.parse] makes of the trimmed line [raw_line], [None] when it
    throws. *)
Definition onStdoutLine (parsed : option json) (raw_line : string)
    (c : Client) : Client * list CodexRunnerEvent :=
  match parsed with
  | None => (c, fire c (claude_stdout raw_line))
  | Some payload =>
      match handleClaudeJsonLine payload c with
      | inl r => r
      | inr c1 => (c1, fire c1 (claude_stdout raw_line))
      end
  end.

(** The lines of a turn in arrival order. *)
Fixpoint stdout_lines (lines : list (option json * string)) (c : Client)
  : Client * list CodexRunnerEvent :=
  match lines with
  | [] => (c, [])
  | (parsed, raw_line) :: rest =>
      let '(c1, out1) := onStdoutLine parsed raw_line c in
      let '(c2, out2) := stdout_lines rest c1 in
      (c2, out1 ++ out2)
  end.

End Claude.

(* ================================================================== *)
(** * Vocabulary of the properties *)
(* ================================================================== *)

Module TextSpec.
Import Adapter.

(** The three channels, read off a message the way the handler tests
    them. *)
Definition delta_of (msg : json) : option string :=
  if isObj msg && type_is msg "agent_message_delta"
  then get_string msg "delta" else None.

Definition is_content_delta (msg : json) : bool :=
  isObj msg && type_is msg "agent_message_content_delta"
  && bool_decide (is_Some (get_string msg "delta")).

Definition fallback_of (msg : json) : option string :=
  match (if isObj msg && type_is msg "agent_message"
         then get_string msg "message" else None) with
  | Some m => Some m
  | None => if isObj msg then raw_item_text msg else None
  end.

(** Whether the harvest of identifiers throws on a candidate, and on a
    message. *)
Definition harvest_throws (cand : json) : bool :=
  unprintable (nullish (get cand "session_id") (get cand "sessionId"))
  || unprintable
       (nullish (get cand "conversation_id") (get cand "conversationId")).

Definition identifiers_throw (event : json) : bool :=
  isObj event
  && (harvest_throws event
      || match get event "data" with
         | Some d => isObj d && harvest_throws d
         | None => false
         end).

(** A message the handler reads without a [TypeError]: it is not [null]
    and the identifiers it carries, if any, have a string. *)
Definition readable (msg : json) : bool :=
  match msg with
  | JNull => false
  | _ => negb (identifiers_throw msg)
  end.

(** The texts of the primary delta events, in order. *)
Definition deltas (msgs : list json) : list string := omap delta_of msgs.

(** The text of a full message or raw content block that arrives before
    any delta, full message or content block of the turn. *)
Fixpoint leading_fallback (msgs : list json) : list string :=
  match msgs with
  | [] => []
  | msg :: rest =>
      match delta_of msg with
      | Some _ => []
      | None =>
          if is_content_delta msg then leading_fallback rest
          else match fallback_of msg with
               | Some t => [t]
               | None => leading_fallback rest
               end
      end
  end.

(** The texts of the [agent_message] events among [out]. *)
Definition agent_messages (out : list CodexRunnerEvent) : list string :=
  omap (fun e => match e with agent_message m => Some m | _ => None end) out.

Fixpoint concat_text (l : list string) : string :=
  match l with
  | [] => ""
  | s :: rest => s +:+ concat_text rest
  end.

Definition delta_msg (text : string) : json :=
  JObj [("type", JStr "agent_message_delta"); ("delta", JStr text)].

Definition content_delta_msg (text : string) : json :=
  JObj [("type", JStr "agent_message_content_delta"); ("delta", JStr text)].

Definition full_msg (text : string) : json :=
  JObj [("type", JStr "agent_message"); ("message", JStr text)].

(** A delta whose session id is an object with a property [toString]. *)
Definition unreadable_delta (text : string) : json :=
  JObj [("type", JStr "agent_message_delta"); ("delta", JStr text);
        ("session_id", JObj [("toString", JNum 1)])].

Definition raw_item_msg (blocks : list string) : json :=
  JObj [("type", JStr "raw_response_item");
        ("item",
         JObj [("role", JStr "assistant");
               ("content",
                JArr ((fun t => JObj [("type", JStr "output_text");
                                      ("text", JStr t)]) <$> blocks))])].

End TextSpec.

Module ApprovalSpec.
Import Adapter.

(** Every key of the pending map is a non-empty string: what
    [elicit_request] stores is a correlation id that is not empty or a
    minted id. *)
Definition keys_nonempty (m : list (string * nat)) : Prop :=
  Forall (fun kv => kv.1 <> "") m.

End ApprovalSpec.

Module AbortSpec.
Import Adapter Manager.

(** The effects that tear the turn down: signals to the child process and
    the abort signal of the in-flight call. *)
Definition is_teardown (e : Effect) : Prop :=
  match e with
  | Resolve _ _ => False
  | Kill _ _ | ArmKiller _ _ | AbortSignalled => True
  end.

(** The resolver calls [abort] owes to the approvals pending in [c]. *)
Definition abort_resolutions (c : Client) : list Effect :=
  (fun kv => Resolve kv.2 "abort") <$> pendingApprovals c.


(** A runner waiting on two approvals, with a live child process. *)
Definition blocked_runner : RunnerState :=
  {| client :=
       set_proc (Some {| pid := 41; exited := false; killed := false |})
         (set_pending [("call-1", 7%nat); ("call-2", 8%nat)] new_client);
     busy := true; abort := Some false; configKey := None;
     instanceId := "default"; codexHome := None |}.

End AbortSpec.

Module BusySpec.
Import Adapter Manager Sessiond.

(** A daemon in the middle of a turn: the runner is busy and the stream
    holds the [start] event and one delta. *)
Definition daemon_mid_turn : Daemon :=
  {| codex :=
       {[ key "s" "c" :=
            {| client := setEventHandler true new_client; busy := true;
               abort := Some false; configKey := None;
               instanceId := "default"; codexHome := None |} ]};
     streamsByChatKey :=
       {[ key "s" "c" :=
            {| status := running; nextId := 3;
               events :=
                 [ {| id := 1; event := "start"; data := JNull; ts := 10 |};
                   {| id := 2; event := "delta"; data := JNull; ts := 11 |} ];
               updatedAt := 11 |} ]} |}.

Definition second_start : StartBody :=
  {| sessionId := "s"; chatId := "c"; prompt := "again";
     assistantMessageId := None; instance := None;
     config := {| cwd := None; sandbox := None; approvalPolicy := None;
                  model := None; reasoningEffort := None |} |}.

End BusySpec.

Module SessionSpec.
Import Adapter Manager.

Definition session_reset_event : CodexRunnerEvent :=
  progress "session_reset" "session config changed; resetting Codex session".

Definition session_config (opts : TurnOpts) : CodexSessionConfig :=
  {| s_prompt := o_prompt opts;
     s_cwd := cwd (o_config opts);
     s_sandbox := sandbox (o_config opts);
     s_approval_policy := approvalPolicy (o_config opts);
     s_model := model (o_config opts);
     s_model_reasoning_effort := reasoningEffort (o_config opts) |}.

(** [continueSession] was the method called. *)
Definition calls_continueSession (opts : TurnOpts) (call : Call) : Prop :=
  call = ContinueSession (o_prompt opts) \/ call = MissingSessionId.

End SessionSpec.

Module FingerprintSpec.
Import Adapter Manager.

Definition unhex (a : ascii) : option N :=
  let n := Ascii.N_of_ascii a in
  if ((48 <=? n) && (n <=? 57))%N then Some (n - 48)%N
  else if ((97 <=? n) && (n <=? 102))%N then Some (n - 87)%N
  else None.

(** Reads back one character of a JSON string literal. *)
Definition unquote_char (s : string) : option (ascii * string) :=
  match s with
  | EmptyString => None
  | String a rest =>
      if (Ascii.N_of_ascii a =? 34)%N then None
      else if (Ascii.N_of_ascii a =? 92)%N then
        match rest with
        | EmptyString => None
        | String b rest1 =>
            let m := Ascii.N_of_ascii b in
            if (m =? 34)%N then Some (dquote, rest1)
            else if (m =? 92)%N then Some ("\"%char, rest1)
            else if (m =? 98)%N then Some (Ascii.ascii_of_N 8, rest1)
            else if (m =? 102)%N then Some (Ascii.ascii_of_N 12, rest1)
            else if (m =? 110)%N then Some (Ascii.ascii_of_N 10, rest1)
            else if (m =? 114)%N then Some (Ascii.ascii_of_N 13, rest1)
            else if (m =? 116)%N then Some (Ascii.ascii_of_N 9, rest1)
            else if (m =? 117)%N then
              match rest1 with
              | String _ (String _ (String h (String l rest2))) =>
                  match unhex h, unhex l with
                  | Some x, Some y => Some (Ascii.ascii_of_N (16 * x + y), rest2)
                  | _, _ => None
                  end
              | _ => None
              end
            else None
        end
      else Some (a, rest)
  end.

End FingerprintSpec.

Module RestartSpec.
Import Adapter Manager SessionSpec.

Definition config_gpt : Config :=
  {| cwd := Some "/work"; sandbox := Some workspace_write;
     approvalPolicy := Some on_request; model := Some "gpt-5.3-codex";
     reasoningEffort := Some high |}.

Definition config_other_model : Config :=
  {| cwd := Some "/work"; sandbox := Some workspace_write;
     approvalPolicy := Some on_request; model := Some "o3";
     reasoningEffort := Some high |}.

(** An idle runner bound to an agent session started under [config_gpt]. *)
Definition bound_runner : RunnerState :=
  {| client := set_sessionId (Some (JStr "sess-1")) new_client;
     busy := false; abort := None;
     configKey := Some (sessionConfigKey config_gpt);
     instanceId := "default"; codexHome := None |}.

Definition turn_other_model : TurnOpts :=
  {| o_sessionId := "s"; o_chatId := "c"; o_prompt := "next";
     o_instance := None; o_config := config_other_model; o_signal := None |}.

Definition turn_gpt : TurnOpts :=
  {| o_sessionId := "s"; o_chatId := "c"; o_prompt := "next";
     o_instance := None; o_config := config_gpt; o_signal := None |}.

(** The notification in which the backend names the session it made. *)
Definition session_configured (sid : string) : json :=
  JObj [("type", JStr "session_configured"); ("session_id", JStr sid)].

(** The runner of a turn back in the map once [runTurn] has settled. *)
Definition settled (opts : TurnOpts) (call : Call) (outcome : Outcome)
    (ctx : TurnCtx) (r : RunnerState) (runners : gmap string RunnerState)
  : gmap string RunnerState :=
  <[key (o_sessionId opts) (o_chatId opts) :=
      runTurn_settle call outcome ctx r]> runners.

End RestartSpec.

Module StreamSpec.
Import Sessiond.

Definition ids (evs : list StreamEvent) : list Z := id <$> evs.

(** An appended item: the clock at the append, the kind, the payload. *)
Definition Item : Type := Z * string * json.

Definition event_of (n : Z) (it : Item) : StreamEvent :=
  {| id := n; event := it.1.2; data := it.2; ts := it.1.1 |}.

(** The buffer of either store, as a next id and the retained events,
    after one append and after a run of appends. *)
Definition feed1 (cap : nat) (it : Item) (st : Z * list StreamEvent)
  : Z * list StreamEvent :=
  (st.1 + 1, trim cap (st.2 ++ [event_of st.1 it])).

Definition feed (cap : nat) (items : list Item) (st : Z * list StreamEvent)
  : Z * list StreamEvent :=
  fold_left (fun acc it => feed1 cap it acc) items st.

(** After the items [all] were appended to an empty buffer: the next id
    is one more than their number, the retained events are the newest
    [cap] of them, with consecutive ids ending at the last id, and each
    retained event is the appended item of its id. *)
Definition newest (cap : nat) (all : list Item) (st : Z * list StreamEvent)
  : Prop :=
  st.1 = 1 + Z.of_nat (length all)
  /\ length st.2 = (length all `min` cap)%nat
  /\ ids st.2 = seqZ (st.1 - Z.of_nat (length st.2)) (Z.of_nat (length st.2))
  /\ Forall (fun e => all !! Z.to_nat (id e - 1) = Some (ts e, event e, data e))
            st.2.

Definition gateway_buffer (k : string) (streams : gmap string ChatStream)
  : Z * list StreamEvent :=
  match streams !! k with
  | Some s => (nextId s, events s)
  | None => (1, [])
  end.

Definition gateway_history (k : string) (items : list Item)
    (streams : gmap string ChatStream) : gmap string ChatStream :=
  fold_left (fun st it => (appendStreamEvent it.1.1 k it.1.2 it.2 st).1)
            items streams.

Definition store_buffer (k : string) (streams : gmap string Store.ChatStream)
  : Z * list StreamEvent :=
  match streams !! k with
  | Some s => (Store.nextId s, Store.events s)
  | None => (1, [])
  end.

Definition store_history (k : string) (items : list Item)
    (streams : gmap string Store.ChatStream) : gmap string Store.ChatStream :=
  fold_left
    (fun st it => (Store.appendStreamEvent it.1.1 k it.1.2 it.2 st).1.1)
    items streams.

(** What [listSince(c)] returns on a buffer: exactly the retained events
    with an id above [c], and their ids are the consecutive integers from
    the first retained id above [c] to the last id. *)
Definition exactly_since (c : Z) (buf : Z * list StreamEvent)
    (result : list StreamEvent) : Prop :=
  (forall e, e ∈ result <-> e ∈ buf.2 /\ c < id e)
  /\ ids result
     = seqZ (Z.max (buf.1 - Z.of_nat (length buf.2)) (c + 1))
            (buf.1 - Z.max (buf.1 - Z.of_nat (length buf.2)) (c + 1)).

End StreamSpec.

Module BufferSpec.
Import Sessiond StreamSpec.

Definition three_items : list Item :=
  [(10, "start", JNull); (11, "delta", JNull); (12, "done", JNull)].

End BufferSpec.

Module ListenerSpec.
Import Sessiond (Status, idle, running, done, error, StreamEvent, id, event,
                 data, ts).
Import Store StreamSpec.

(** A run of appends to the stream of [k], with the calls it makes to
    listeners. *)
Fixpoint run (k : string) (items : list Item)
    (streams : gmap string ChatStream)
  : gmap string ChatStream * list (nat * StreamEvent) :=
  match items with
  | [] => (streams, [])
  | it :: rest =>
      let '(streams1, _, calls1) :=
        appendStreamEvent it.1.1 k it.1.2 it.2 streams in
      let '(streams2, calls2) := run k rest streams1 in
      (streams2, calls1 ++ calls2)
  end.

(** The events the listener [fn] was called with, in order. *)
Definition heard (fn : nat) (calls : list (nat * StreamEvent))
  : list StreamEvent :=
  omap (fun fe => if bool_decide (fe.1 = fn) then Some fe.2 else None) calls.

(** The events a run of appends creates when the next id is [n]. *)
Fixpoint created (n : Z) (items : list Item) : list StreamEvent :=
  match items with
  | [] => []
  | it :: rest => event_of n it :: created (n + 1) rest
  end.

(** Two conversations; the first has a finished turn and two listeners. *)
Definition two_streams : gmap string ChatStream :=
  <["s:c" := {| status := done; nextId := 3;
                events := [ {| id := 1; event := "start"; data := JNull; ts := 1 |};
                            {| id := 2; event := "done"; data := JNull; ts := 2 |} ];
                listeners := [5; 6]%nat; updatedAt := 2 |}]>
    {[ "s:d" := {| status := running; nextId := 2;
                   events := [ {| id := 1; event := "start"; data := JNull;
                                  ts := 1 |} ];
                   listeners := [7]%nat; updatedAt := 1 |} ]}.

End ListenerSpec.

Module CursorSpec.
Import Adapter Manager Bridge.
Import Sessiond (Daemon, StreamEvent, id, event, data, ts, Status, idle,
                 running, done, error, body_status, body_lastEventId).

(** The highest id among [evs], or [base] if that is higher. *)
Definition max_id (evs : list StreamEvent) (base : Z) : Z :=
  fold_left (fun m e => Z.max m (id e)) evs base.


(** What one iteration of the polling loop has consumed before it reads
    the runtime. *)
Definition consumed (sid chatId : string) (now : Z) (d : Daemon)
    (cursors : gmap string Z) (ps : PollState)
  : PollState * gmap string Z * list Forwarded :=
  fold_left (fun acc e => consume (key sid chatId) e acc)
    (Sessiond.events_after sid chatId (Z.max 0 (after ps)) now d).2
    (ps, cursors, []).

(** The runtime that iteration then reads. *)
Definition polled_runtime (sid chatId : string) (now : Z) (d : Daemon)
    (ps : PollState) : Sessiond.RuntimeBody :=
  (Sessiond.runtime sid chatId now
     (Sessiond.events_after sid chatId (Z.max 0 (after ps)) now d).1).2.






(** The remote buffer was reset by a newer turn and holds two events; the
    bridge still remembers event 7 of the turn before. *)
Definition remote_after_reset : Daemon :=
  {| Sessiond.codex :=
       {[ key "s" "c" :=
            {| client := setEventHandler true new_client; busy := true;
               abort := Some false; configKey := None;
               instanceId := "default"; codexHome := None |} ]};
     Sessiond.streamsByChatKey :=
       {[ key "s" "c" :=
            {| Sessiond.status := running; Sessiond.nextId := 3;
               Sessiond.events :=
                 [ {| id := 1; event := "start"; data := JNull; ts := 10 |};
                   {| id := 2; event := "delta";
                      data := JObj [("text", JStr "hi")]; ts := 11 |} ];
               Sessiond.updatedAt := 11 |} ]} |}.

Definition server_with_stale_cursor : Server :=
  {| store := {| Store.streamsByChatKey := ∅; Store.chatsBySession := ∅ |};
     knownCursorByChat := {[ key "s" "c" := 7 ]} |}.



End CursorSpec.

Module Timeline.
Import Adapter Manager.







(** An event that is not a progress message: it moves
    [lastNonProgressAt]. *)
Definition is_activity (e : CodexRunnerEvent) : bool :=
  match e with
  | raw msg => negb (isProgressMsg msg)
  | _ => true
  end.







End Timeline.

Module PathSpec.
Import Paths.

Fixpoint all_safe (s : string) : bool :=
  match s with
  | EmptyString => true
  | String a rest => safe_char a && all_safe rest
  end.

Definition first_char (s : string) : option ascii :=
  match s with
  | EmptyString => None
  | String a _ => Some a
  end.

Fixpoint last_char (s : string) : option ascii :=
  match s with
  | EmptyString => None
  | String a EmptyString => Some a
  | String _ rest => last_char rest
  end.

(** A path segment that [toSafePathSegment] has nothing to do on: not
    empty, made of [[a-zA-Z0-9._-]] only, with no underscore at either
    end. *)
Definition clean (s : string) : Prop :=
  s <> ""
  /\ all_safe s = true
  /\ first_char s <> Some "_"%char
  /\ last_char s <> Some "_"%char.

(** The prefix [isWithinRoot] compares with: the root followed by one
    separator. *)
Definition with_sep (sep : ascii) (root : string) : string :=
  if endsWith_sep sep root then root else root +:+ String sep "".

End PathSpec.

Module StoreSpec.
Import StoreData.

(** Descending by [key]: every element is followed only by elements
    whose key is not larger. *)
Fixpoint descending {A : Type} (key : A -> Z) (l : list A) : Prop :=
  match l with
  | [] => True
  | x :: rest => Forall (fun y => key y <= key x) rest /\ descending key rest
  end.

(** The credential index points at records of the right id and hash. *)
Definition index_ok (st : MemoryStore) : Prop :=
  forall id h, credentialById st !! id = Some h ->
    h <> "" ->
    exists rec, credentials st !! h = Some rec
                /\ c_id rec = id /\ tokenHash rec = h.

(** The chat of a session, without the side effect of [getChat]. *)
Definition chat_of (sid chatId : string) (st : MemoryStore) : option Chat :=
  (getChat sid chatId st).2.

(** The text of the first message of a chat with the given id. *)
Definition text_of (sid chatId messageId : string) (st : MemoryStore)
  : option string :=
  match chat_of sid chatId st with
  | None => None
  | Some c =>
      text <$> head (filter (fun m => m_id m = messageId) (messages c))
  end.

(** A message with its text replaced. *)
Definition with_text (f : string -> string) (m : ChatMessage) : ChatMessage :=
  {| m_id := m_id m; role := role m; text := f (text m);
     m_createdAt := m_createdAt m |}.

(** Appending deltas one after the other, as the turn pump does; [None]
    when one of the calls throws. *)
Fixpoint append_deltas (sid chatId messageId : string) (ds : list string)
    (now : Z) (st : MemoryStore) : option MemoryStore :=
  match ds with
  | [] => Some st
  | d :: rest =>
      match appendToMessageText sid chatId messageId d now st with
      | (st1, Returned _) => append_deltas sid chatId messageId rest now st1
      | (_, Thrown _) => None
      end
  end.

(** [s1 + s2 + ...]. *)
Definition concat_strings (l : list string) : string :=
  foldr String.append "" l.

(** A message [replaceMessages] has nothing to repair on. *)
Definition well_formed (m : LooseMessage) : Prop :=
  (exists s, l_id m = Some s /\ s <> "")
  /\ is_Some (l_role m) /\ is_Some (l_text m) /\ is_Some (l_createdAt m).

(** A stand-in for [sha256Hex] and a store that has issued one
    credential, for the examples. *)
Definition demo_hash (t : string) : string := "h:" +:+ t.

Definition store_with_credential : MemoryStore :=
  match createCredential demo_hash "owner" (Some "laptop") ["tok-a"]
          "cred1" 50 (new_store 1000) with
  | Some (st1, _) => st1
  | None => new_store 1000
  end.

(** A store with one chat of two messages, for the examples. *)
Definition demo_chat : Chat :=
  {| chat_id := "c"; chat_createdAt := 1; chat_updatedAt := 1;
     messages := [ {| m_id := "m1"; role := user; text := "hi";
                      m_createdAt := 1 |};
                   {| m_id := "m2"; role := assistant; text := "";
                      m_createdAt := 1 |} ];
     settings := {| model := None; reasoningEffort := None; cwd := None;
                    sandbox := Some Manager.read_only;
                    approvalPolicy := None |} |}.

Definition store_with_chat : MemoryStore :=
  put_chat "s" "c" demo_chat (new_store 1000).

End StoreSpec.

Module WebSpec.
Import StoreData.

(** The status of the stream of a chat in the web server's store; a chat
    without a stream counts as idle, as [ensureStream] makes it. *)
Definition stream_status (sid chatId : string) (st : MemoryStore)
  : Sessiond.Status :=
  match streamsByChatKey st !! Manager.key sid chatId with
  | Some s => Store.status s
  | None => Sessiond.idle
  end.

(** The system message that stands for the messages removed. *)
Definition compact_summary (removed : list ChatMessage) (now : Z)
  : ChatMessage :=
  {| m_id := "compact-" +:+ pretty now; role := system;
     text := "Conversation compacted. Summary of "
             +:+ pretty (Z.of_nat (length removed))
             +:+ " earlier messages:" +:+ WebApi.newline
             +:+ WebApi.summarizeChatForCompact removed;
     m_createdAt := now |}.

End WebSpec.

Module DaemonSpec.
Import Adapter Manager Sessiond.

(** The payload of the [done] event that closes an orphaned stream. *)
Definition reconciled_done : json :=
  JObj [("ok", JBool true); ("reconciled", JBool true)].

(** The options the start handler hands to [runTurn]. *)
Definition turn_opts (b : StartBody) : TurnOpts :=
  {| o_sessionId := Sessiond.sessionId b; o_chatId := chatId b;
     o_prompt := prompt b; o_instance := instance b;
     o_config := config b; o_signal := None |}.

(** The [start] event of a turn. *)
Definition start_event (b : StartBody) (now : Z) : StreamEvent :=
  {| id := 1; event := "start";
     data := JObj [("ok", JBool true);
                   ("assistantMessageId", or_null (assistantMessageId b));
                   ("instanceId", or_null (b_instanceId <$> instance b))];
     ts := now |}.

(** A stream that was just made, as [ensureStream] makes it. *)
Definition idle_stream (now : Z) : ChatStream :=
  {| status := idle; nextId := 1; events := []; updatedAt := now |}.

(** The instance and the home a binding asks for. *)
Definition wanted_instance (binding : option CodexInstanceBinding) : string :=
  str_or (b_instanceId <$> binding) "default".

Definition wanted_home (binding : option CodexInstanceBinding)
  : option string :=
  nonempty (binding ≫= b_codexHome).

(** The runner [get] makes for a binding. *)
Definition fresh_runner (binding : option CodexInstanceBinding)
  : RunnerState :=
  {| client := new_client; busy := false; abort := None; configKey := None;
     instanceId := wanted_instance binding;
     codexHome := wanted_home binding |}.

(** The stream event a progress message of [runTurn] becomes. *)
Definition progress_event (n now : Z) (stage message : string)
  : StreamEvent :=
  {| id := n; event := "progress";
     data := JObj [("stage", JStr stage); ("message", JStr message);
                   ("detail", JNull)];
     ts := now |}.

(** The status a settled turn leaves on its stream. *)
Definition closed_status (outcome : Outcome) : Status :=
  match outcome with
  | Resolved _ _ => done
  | Rejected _ => error
  end.

(** The abort controller of a turn whose caller's signal was [signal]. *)
Definition signal_effects (signal : option bool) : list Effect :=
  match signal with
  | Some true => [AbortSignalled]
  | _ => []
  end.

(** A daemon that knows no chat, and one whose chat finished a turn with
    the instance ['default']. *)
Definition empty_daemon : Daemon := {| codex := ∅; streamsByChatKey := ∅ |}.

Definition plain_config : Config :=
  {| cwd := None; sandbox := None; approvalPolicy := None;
     model := None; reasoningEffort := None |}.

Definition first_start : StartBody :=
  {| Sessiond.sessionId := "s"; chatId := "c"; prompt := "hello";
     assistantMessageId := Some "m1"; instance := None;
     config := plain_config |}.

Definition settled_runner : RunnerState :=
  {| client := set_sessionId (Some (JStr "thread-1")) new_client;
     busy := false; abort := None;
     configKey := Some (sessionConfigKey plain_config);
     instanceId := "default"; codexHome := None |}.

Definition other_instance : TurnOpts :=
  {| o_sessionId := "s"; o_chatId := "c"; o_prompt := "hello";
     o_instance := Some {| b_instanceId := "second"; b_codexHome := None |};
     o_config := plain_config; o_signal := None |}.

End DaemonSpec.

Module TurnSpec.
Import Adapter Manager Timeline.
Import Sessiond (Happening, heartbeat_timer, backend_message, approval_wanted,
                 decision_given, abort_requested,
                 StartBody, stream_of_event, closing_events, or_null,
                 assistantMessageId, instance).








(** No backend message of the run makes the handler of the client
    throw. *)
Definition clean (xs : list (Z * Happening)) : Prop :=
  Forall (fun x => match x.2 with
                   | backend_message msg => TextSpec.readable msg = true
                   | _ => True
                   end) xs.


(** What a stream shows of its events: the clock, the kind and the
    stage of a progress message. *)
Definition shown (s : Sessiond.ChatStream)
  : list (Z * string * option string) :=
  (fun e => (Sessiond.ts e, Sessiond.event e,
             get_string (Sessiond.data e) "stage")) <$> Sessiond.events s.



(** A turn with one delta at 5 s and then silence, the timer firing
    every five seconds. *)
Definition quiet_run : list (Z * Happening) :=
  [(5000, backend_message
            (JObj [("type", JStr "agent_message_delta");
                   ("delta", JStr "a")]));
   (10000, heartbeat_timer); (15000, heartbeat_timer);
   (20000, heartbeat_timer); (25000, heartbeat_timer)].

End TurnSpec.

Module UsageSpec.
Import Usage.

(** The names under which rate limits are looked for. *)
Definition limit_keys : list string :=
  ["rate_limits"; "rateLimits"; "rate_limits_raw"; "rateLimitsRaw"].

(** [x] is the value [v] itself ([n = 0]) or a value found [n] levels
    down in it. *)
Fixpoint at_depth (n : nat) (x v : json) : Prop :=
  match n with
  | O => x = v
  | S m => exists y, y ∈ values v /\ at_depth m x y
  end.

(** [x] wrapped in [n] one-element arrays. *)
Definition nested (n : nat) (x : json) : json :=
  Nat.iter n (fun v => JArr [v]) x.

End UsageSpec.

Module ClaudeSpec.
Import Adapter Claude.

(** A line of the standard output: what [JSON.parse] made of it and the
    trimmed line. *)
Definition Line : Type := (option json * string)%type.

(** The payload of a line the handler reads without a [TypeError]: the
    line is JSON, not [null], and the identifiers it carries have a
    string. *)
Definition line_payload (l : Line) : option json :=
  match l.1 with
  | Some payload =>
      if TextSpec.readable payload then Some payload else None
  | None => None
  end.

(** The text of a line that is a text delta of the stream. *)
Definition line_delta (l : Line) : option string :=
  match line_payload l with
  | Some payload => stream_delta payload
  | None => None
  end.

(** The text of a line that is a whole assistant message with text. *)
Definition line_assistant (l : Line) : option string :=
  match line_payload l with
  | Some payload =>
      if isObj payload && type_is payload "assistant"
      then let t := extractClaudeAssistantText payload in
           if bool_decide (t = "") then None else Some t
      else None
  | None => None
  end.

(** The text of a whole assistant message that arrives before any text
    delta and any other such message. *)
Fixpoint leading_assistant (lines : list Line) : list string :=
  match lines with
  | [] => []
  | l :: rest =>
      match line_delta l with
      | Some _ => []
      | None =>
          match line_assistant l with
          | Some t => [t]
          | None => leading_assistant rest
          end
      end
  end.

(** The raw event of a line. *)
Definition line_raw (l : Line) : json :=
  match line_payload l with
  | Some payload => JObj [("type", JStr "claude_event"); ("data", payload)]
  | None => JObj [("type", JStr "claude_stdout"); ("line", JStr l.2)]
  end.

(** The payloads of the raw events among [out]. *)
Definition raws (out : list CodexRunnerEvent) : list json :=
  omap (fun e => match e with raw m => Some m | _ => None end) out.

Definition text_delta_line (text : string) : Line :=
  (Some (JObj [("type", JStr "stream_event");
               ("event",
                JObj [("type", JStr "content_block_delta");
                      ("delta", JObj [("type", JStr "text_delta");
                                      ("text", JStr text)])])]),
   "").

Definition assistant_line (text : string) : Line :=
  (Some (JObj [("type", JStr "assistant");
               ("message",
                JObj [("content",
                       JArr [JObj [("type", JStr "text");
                                   ("text", JStr text)]])])]),
   "").

(** A text delta whose session id is an object with a property
    [toString]. *)
Definition unreadable_payload (text : string) : json :=
  JObj [("type", JStr "stream_event");
        ("session_id", JObj [("toString", JNum 1)]);
        ("event",
         JObj [("type", JStr "content_block_delta");
               ("delta", JObj [("type", JStr "text_delta");
                               ("text", JStr text)])])].

Definition unreadable_line (text raw_line : string) : Line :=
  (Some (unreadable_payload text), raw_line).

End ClaudeSpec.

Module RelaySpec.
Import Adapter Manager Bridge.
Import Sessiond (Daemon, StreamEvent, ChatStream, id, event, data, ts,
                 stream_of_event, json_of_request, append_all).

(** What the web server's handler receives for an event a runner emitted
    in the daemon: assistant text and raw events as they were, a progress
    message with its stage, message and detail, an approval request as
    its payload. *)
Definition relayed (e : CodexRunnerEvent) : Forwarded :=
  match e with
  | agent_message m => forwarded (agent_message m)
  | approval_request r => forwarded_approval (json_of_request r)
  | raw msg =>
      if isProgressMsg msg then
        forwarded
          (raw (JObj [("type", JStr "progress");
                      ("stage",
                       JStr (default "progress" (get_string msg "stage")));
                      ("message",
                       JStr (default "" (get_string msg "message")));
                      ("detail",
                       default JNull (nullish (Json.get msg "detail") None))]))
      else forwarded (raw msg)
  end.

(** The items the daemon appends for a run of runner events. *)
Definition posted (now : Z) (amid : option string)
    (es : list CodexRunnerEvent) : list StreamSpec.Item :=
  (fun e => (now, (stream_of_event amid e).1, (stream_of_event amid e).2))
    <$> es.

(** The daemon after its runner emitted [es] in the turn of a chat. *)
Definition after_events (sid cid : string) (now : Z) (amid : option string)
    (es : list CodexRunnerEvent) (d : Daemon) : Daemon :=
  {| Sessiond.codex := Sessiond.codex d;
     Sessiond.streamsByChatKey :=
       append_all now (key sid cid) (stream_of_event amid <$> es)
         (Sessiond.streamsByChatKey d) |}.

(** A polling loop that has consumed the two events of
    [BusySpec.daemon_mid_turn]. *)
Definition caught_up : PollState :=
  {| after := 2; usage := None; rateLimits := None;
     lastTurnErrorMessage := "" |}.

End RelaySpec.

(* ================================================================== *)
(** * Properties *)
(* ================================================================== *)

(* ------------------------------------------------------------------ *)
(** ** Assistant text is forwarded from the delta channel *)
(* ------------------------------------------------------------------ *)

Module TextFacts.
Import Adapter.
Import TextSpec.

Lemma agent_text_concat out :
  agent_text out = concat_text (agent_messages out).
Proof.
  induction out as [|e out IH]; [reflexivity|].
  destruct e; simpl; rewrite ?IH; reflexivity.
Qed.

Lemma agent_messages_app a b :
  agent_messages (a ++ b) = agent_messages a ++ agent_messages b.
Proof. apply omap_app. Qed.

Lemma harvest_one_keeps cand c :
  onEvent (left_by (harvest_one cand c)) = onEvent c
  /\ sawAssistantTextInFlight (left_by (harvest_one cand c))
     = sawAssistantTextInFlight c
  /\ pendingApprovals (left_by (harvest_one cand c)) = pendingApprovals c.
Proof.
  unfold harvest_one.
  repeat match goal with |- context [if ?b then _ else _] => destruct b end;
    simpl; auto.
Qed.

Lemma updateIdentifiers_keeps event c :
  onEvent (left_by (updateIdentifiersFromEvent event c)) = onEvent c
  /\ sawAssistantTextInFlight (left_by (updateIdentifiersFromEvent event c))
     = sawAssistantTextInFlight c
  /\ pendingApprovals (left_by (updateIdentifiersFromEvent event c))
     = pendingApprovals c.
Proof.
  unfold updateIdentifiersFromEvent.
  destruct (isObj event); [|auto].
  destruct (harvest_one_keeps event c) as (H1 & H2 & H3).
  destruct (harvest_one event c) as [c1|c1]; [|auto].
  cbn [left_by] in H1, H2, H3.
  destruct (Json.get event "data") as [d|]; [|auto].
  destruct (isObj d); [|auto].
  destruct (harvest_one_keeps d c1) as (K1 & K2 & K3).
  rewrite K1, K2, K3. auto.
Qed.

Lemma harvest_one_ends cand c :
  harvest_one cand c
  = if harvest_throws cand then threw (left_by (harvest_one cand c))
    else returned (left_by (harvest_one cand c)).
Proof.
  unfold harvest_one, harvest_throws.
  destruct (unprintable (nullish (Json.get cand "session_id")
                                 (Json.get cand "sessionId"))); [reflexivity|].
  cbn [orb].
  destruct (unprintable (nullish (Json.get cand "conversation_id")
                                 (Json.get cand "conversationId")));
    reflexivity.
Qed.

(** The harvest throws exactly on the messages [identifiers_throw] names. *)
Lemma updateIdentifiers_ends event c :
  updateIdentifiersFromEvent event c
  = if identifiers_throw event
    then threw (left_by (updateIdentifiersFromEvent event c))
    else returned (left_by (updateIdentifiersFromEvent event c)).
Proof.
  unfold updateIdentifiersFromEvent, identifiers_throw.
  destruct (isObj event); [|reflexivity]. cbn [andb].
  rewrite (harvest_one_ends event c).
  destruct (harvest_throws event); [reflexivity|]. cbn [orb left_by].
  destruct (Json.get event "data") as [d|]; [|reflexivity].
  destruct (isObj d); [|reflexivity]. cbn [andb].
  rewrite (harvest_one_ends d). destruct (harvest_throws d); reflexivity.
Qed.

(** The handler returns exactly on the readable messages. *)
Lemma codex_event_readable msg c :
  codex_event msg c
  = if readable msg
    then Some (forward_text msg (left_by (updateIdentifiersFromEvent msg c)))
    else None.
Proof.
  unfold codex_event, readable. rewrite (updateIdentifiers_ends msg c).
  destruct (identifiers_throw msg); destruct msg; reflexivity.
Qed.

(** The handler's cascade, by channel. *)
Lemma forward_text_by_channel msg c :
  forward_text msg c =
    match delta_of msg with
    | Some d => (set_saw true c, fire c (agent_message d))
    | None =>
        if is_content_delta msg then (c, [])
        else match (if sawAssistantTextInFlight c then None
                    else fallback_of msg) with
             | Some t => (set_saw true c, fire c (agent_message t))
             | None => (c, fire c (raw msg))
             end
    end.
Proof.
  unfold forward_text, delta_of, is_content_delta, fallback_of.
  destruct (isObj msg) eqn:Hobj; simpl.
  - destruct (type_is msg "agent_message_delta") eqn:Hd; simpl.
    + destruct (get_string msg "delta") as [d|] eqn:Hg; [reflexivity|].
      assert (type_is msg "agent_message_content_delta" = false) as ->.
      { unfold type_is in *. destruct (Json.get msg "type") as [[]|]; try done.
        apply bool_decide_eq_true in Hd. subst. reflexivity. }
      assert (type_is msg "agent_message" = false) as ->.
      { unfold type_is in *. destruct (Json.get msg "type") as [[]|]; try done.
        apply bool_decide_eq_true in Hd. subst. reflexivity. }
      simpl. destruct (sawAssistantTextInFlight c); reflexivity.
    + destruct (type_is msg "agent_message_content_delta") eqn:Hc; simpl.
      * destruct (get_string msg "delta") as [d|] eqn:Hg; simpl; [reflexivity|].
        assert (type_is msg "agent_message" = false) as ->.
        { unfold type_is in *. destruct (Json.get msg "type") as [[]|]; try done.
          apply bool_decide_eq_true in Hc. subst. reflexivity. }
        simpl. destruct (sawAssistantTextInFlight c); reflexivity.
      * destruct (type_is msg "agent_message") eqn:Hm; simpl.
        -- destruct (sawAssistantTextInFlight c); simpl; [reflexivity|].
           destruct (get_string msg "message"); reflexivity.
        -- destruct (sawAssistantTextInFlight c); reflexivity.
  - destruct (sawAssistantTextInFlight c); reflexivity.
Qed.

Lemma deltas_cons msg rest :
  deltas (msg :: rest)
  = match delta_of msg with Some d => d :: deltas rest | None => deltas rest end.
Proof. unfold deltas. simpl. destruct (delta_of msg); reflexivity. Qed.

(** From any state of the flag: once text has been forwarded only the
    deltas get through. *)
Lemma codex_events_text msgs :
  forall c,
    onEvent c = true ->
    Forall (fun m => readable m = true) msgs ->
    exists c' out,
      codex_events msgs c = Some (c', out)
      /\ agent_messages out
         = (if sawAssistantTextInFlight c then [] else leading_fallback msgs)
           ++ deltas msgs.
Proof.
  induction msgs as [|msg rest IH]; intros c Hon Hall.
  - exists c, []. split; [reflexivity|].
    simpl. destruct (sawAssistantTextInFlight c); reflexivity.
  - inversion Hall as [|? ? Hmsg Hrest]; subst.
    destruct (updateIdentifiers_keeps msg c) as (Kon & Ksaw & _).
    assert (codex_event msg c
            = Some (forward_text msg
                      (left_by (updateIdentifiersFromEvent msg c))))
      as Hstep.
    { rewrite codex_event_readable, Hmsg. reflexivity. }
    remember (left_by (updateIdentifiersFromEvent msg c)) as c1 eqn:Hc1.
    cbn [codex_events leading_fallback].
    rewrite Hstep, forward_text_by_channel, deltas_cons.
    unfold fire. rewrite Kon, Hon, Ksaw.
    destruct (delta_of msg) as [d|] eqn:Hd.
    + destruct (IH (set_saw true c1)) as (c' & out & Hrun & Hout); auto.
      { simpl. congruence. }
      rewrite Hrun. exists c', (agent_message d :: out). split; [reflexivity|].
      cbn [sawAssistantTextInFlight set_saw app] in Hout.
      change (agent_messages (agent_message d :: out))
        with (d :: agent_messages out).
      rewrite Hout. destruct (sawAssistantTextInFlight c); reflexivity.
    + destruct (is_content_delta msg) eqn:Hc.
      * destruct (IH c1) as (c' & out & Hrun & Hout); auto.
        { congruence. }
        rewrite Hrun. exists c', out. split; [reflexivity|].
        rewrite Hout, Ksaw. reflexivity.
      * destruct (sawAssistantTextInFlight c) eqn:Hsaw.
        -- destruct (IH c1) as (c' & out & Hrun & Hout); auto.
           { congruence. }
           rewrite Hrun. exists c', (raw msg :: out). split; [reflexivity|].
           rewrite Ksaw in Hout. exact Hout.
        -- destruct (fallback_of msg) as [t|] eqn:Hf.
           ++ destruct (IH (set_saw true c1)) as (c' & out & Hrun & Hout); auto.
              { simpl. congruence. }
              rewrite Hrun. exists c', (agent_message t :: out).
              split; [reflexivity|].
              cbn [sawAssistantTextInFlight set_saw app] in Hout.
              change (agent_messages (agent_message t :: out))
                with (t :: agent_messages out).
              rewrite Hout. reflexivity.
           ++ destruct (IH c1) as (c' & out & Hrun & Hout); auto.
              { congruence. }
              rewrite Hrun. exists c', (raw msg :: out). split; [reflexivity|].
              rewrite Ksaw in Hout. exact Hout.
Qed.

Lemma begin_resets_flag c c0 :
  (c0 = startSession_begin c \/ continueSession_begin c = Some c0) ->
  sawAssistantTextInFlight c0 = false /\ onEvent c0 = onEvent c.
Proof.
  intros [->|H]; [split; reflexivity|].
  unfold continueSession_begin in H.
  destruct (stored_falsy (sessionId c)); [discriminate|].
  destruct (stored_falsy (conversationId c)); inversion H; split; reflexivity.
Qed.

(** C1, as the code has it.  In a turn (the per-turn flag having been
    reset by [startSession] or [continueSession]) with a handler
    registered, for every sequence of backend messages that the handler
    reads without a [TypeError] (none is [null], and the session and
    conversation identifiers they carry have a string): every
    [agent_message_delta] is forwarded, no [agent_message_content_delta]
    is, and a full message or raw content block is forwarded exactly when
    it arrives before any delta and before any other forwarded full
    message or content block.  So the forwarded assistant text is the
    concatenation of the deltas, preceded by one leading fallback text
    when a fallback event comes first; when none does, it is the delta
    concatenation exactly once.  On any other message the handler throws
    before it forwards anything, a delta included. *)
Theorem assistant_text_from_deltas (c c0 : Client) (msgs : list json) :
  onEvent c = true ->
  (c0 = startSession_begin c \/ continueSession_begin c = Some c0) ->
  Forall (fun m => readable m = true) msgs ->
  (exists c' out,
     codex_events msgs c0 = Some (c', out)
     /\ agent_messages out = leading_fallback msgs ++ deltas msgs
     /\ agent_text out = concat_text (leading_fallback msgs ++ deltas msgs)
     /\ (leading_fallback msgs = [] ->
         agent_text out = concat_text (deltas msgs)))
  /\ (forall m c1, readable m = false -> codex_event m c1 = None)
  /\ (forall text c1, codex_event (unreadable_delta text) c1 = None).
Proof.
  intros Hon Hbegin Hall.
  destruct (begin_resets_flag c c0 Hbegin) as [Hsaw Hon0].
  destruct (codex_events_text msgs c0) as (c' & out & Hrun & Hout);
    [congruence | assumption |].
  rewrite Hsaw in Hout.
  split; [|split].
  - exists c', out. repeat split; auto.
    + rewrite agent_text_concat, Hout. reflexivity.
    + intros Hnone. rewrite agent_text_concat, Hout, Hnone. reflexivity.
  - intros m c1 Hm. rewrite codex_event_readable, Hm. reflexivity.
  - intros text c1. rewrite codex_event_readable. reflexivity.
Qed.

(** Deltas followed by the final full message: the text once. *)
Lemma assistant_text_from_deltas_witness :
  exists c' out,
    codex_events [delta_msg "Hello"; content_delta_msg "Hello";
                  delta_msg " world"; content_delta_msg " world";
                  full_msg "Hello world"]
                 (startSession_begin (setEventHandler true new_client))
    = Some (c', out)
    /\ agent_messages out
       = leading_fallback [delta_msg "Hello"; content_delta_msg "Hello";
                           delta_msg " world"; content_delta_msg " world";
                           full_msg "Hello world"]
         ++ deltas [delta_msg "Hello"; content_delta_msg "Hello";
                    delta_msg " world"; content_delta_msg " world";
                    full_msg "Hello world"]
    /\ agent_text out
       = concat_text
           (leading_fallback [delta_msg "Hello"; content_delta_msg "Hello";
                              delta_msg " world"; content_delta_msg " world";
                              full_msg "Hello world"]
            ++ deltas [delta_msg "Hello"; content_delta_msg "Hello";
                       delta_msg " world"; content_delta_msg " world";
                       full_msg "Hello world"])
    /\ (leading_fallback [delta_msg "Hello"; content_delta_msg "Hello";
                          delta_msg " world"; content_delta_msg " world";
                          full_msg "Hello world"] = [] ->
        agent_text out
        = concat_text (deltas [delta_msg "Hello"; content_delta_msg "Hello";
                               delta_msg " world"; content_delta_msg " world";
                               full_msg "Hello world"])).
Proof.
  refine (proj1 (assistant_text_from_deltas
                   (setEventHandler true new_client) _ _
                   eq_refl (or_introl eq_refl) _)).
  repeat constructor.
Defined.

(** C1 as stated fails when the full message comes first: the same text
    carried by a full message and then by two deltas is forwarded twice. *)
Lemma full_message_first_repeats_text :
  codex_events [full_msg "Hello world"; delta_msg "Hello"; delta_msg " world"]
               (startSession_begin (setEventHandler true new_client))
  = Some (set_saw true (setEventHandler true new_client),
          [agent_message "Hello world"; agent_message "Hello";
           agent_message " world"])
  /\ agent_text [agent_message "Hello world"; agent_message "Hello";
                 agent_message " world"] = "Hello worldHello world"
  /\ concat_text (deltas [full_msg "Hello world"; delta_msg "Hello";
                          delta_msg " world"]) = "Hello world"
  /\ agent_text [agent_message "Hello world"; agent_message "Hello";
                 agent_message " world"]
     <> concat_text (deltas [full_msg "Hello world"; delta_msg "Hello";
                             delta_msg " world"]).
Proof. repeat split; try reflexivity. discriminate. Qed.

End TextFacts.

(* ------------------------------------------------------------------ *)
(** ** Approval correlation *)
(* ------------------------------------------------------------------ *)

Module ApprovalFacts.
Import Adapter.
Import ApprovalSpec.

Lemma map_get_delete_eq k m : map_get k (map_delete k m) = None.
Proof.
  induction m as [|[k' v] m IH]; [reflexivity|].
  simpl. destruct (bool_decide (k' = k)) eqn:E; [exact IH|].
  simpl. rewrite E. exact IH.
Qed.

Lemma map_get_delete_ne k k' m :
  k <> k' -> map_get k (map_delete k' m) = map_get k m.
Proof.
  intros Hne. induction m as [|[k0 v] m IH]; [reflexivity|].
  simpl. destruct (bool_decide (k0 = k')) eqn:E.
  - apply bool_decide_eq_true in E. subst k0.
    rewrite bool_decide_eq_false_2 by congruence. exact IH.
  - simpl. destruct (bool_decide (k0 = k)); [reflexivity | exact IH].
Qed.

Lemma map_get_Some_in k r m : map_get k m = Some r -> (k, r) ∈ m.
Proof.
  induction m as [|[k' v] m IH]; [discriminate|].
  simpl. destruct (bool_decide (k' = k)) eqn:E.
  - apply bool_decide_eq_true in E. intros [= ->]. subst. left.
  - intros H. right. auto.
Qed.

Lemma map_get_set_eq k v m : map_get k (map_set k v m) = Some v.
Proof.
  induction m as [|[k' v'] m IH]; simpl.
  - rewrite bool_decide_eq_true_2; reflexivity.
  - destruct (bool_decide (k' = k)) eqn:E; simpl.
    + rewrite bool_decide_eq_true_2; reflexivity.
    + rewrite E. exact IH.
Qed.

Lemma keys_nonempty_set k v m :
  k <> "" -> keys_nonempty m -> keys_nonempty (map_set k v m).
Proof.
  intros Hk. induction 1 as [|[k' v'] m Hk' Hm IH]; simpl.
  - repeat constructor. exact Hk.
  - destruct (bool_decide (k' = k)); constructor; auto.
Qed.

Lemma keys_nonempty_delete k m :
  keys_nonempty m -> keys_nonempty (map_delete k m).
Proof.
  induction 1 as [|[k' v'] m Hk' Hm IH]; simpl; [constructor|].
  destruct (bool_decide (k' = k)); [exact IH | constructor; auto].
Qed.

Lemma minted_id_nonempty now c : (nextApprovalId now c).2 <> "".
Proof.
  unfold nextApprovalId. simpl.
  destruct (pretty now); discriminate.
Qed.

(** The elicitation handler keeps the keys non-empty, and registers the
    resolver under the id it announces. *)
Lemma elicit_request_keeps_keys approvalId message command cwd now resolver c :
  keys_nonempty (pendingApprovals c) ->
  keys_nonempty
    (pendingApprovals
       (elicit_request approvalId message command cwd now resolver c).1).
Proof.
  intros Hk. unfold elicit_request.
  destruct (bool_decide (approvalId = "")) eqn:E.
  - pose proof (minted_id_nonempty now c) as Hm.
    destruct (nextApprovalId now c) as [c1 i] eqn:En. simpl in *.
    apply keys_nonempty_set; [exact Hm|].
    unfold nextApprovalId in En. inversion En; subst. exact Hk.
  - simpl. apply keys_nonempty_set; [|exact Hk].
    apply bool_decide_eq_false in E. exact E.
Qed.

Lemma approve_pending i decision c :
  pendingApprovals (approve i decision c).1.1 = pendingApprovals c
  \/ exists k, pendingApprovals (approve i decision c).1.1
               = map_delete k (pendingApprovals c).
Proof.
  unfold approve.
  destruct (map_get i (pendingApprovals c)) as [r|].
  - destruct (bool_decide (i = "")); simpl; [left; reflexivity|].
    right. exists i. reflexivity.
  - destruct (bool_decide (length (pendingApprovals c) = 1%nat));
      [|left; reflexivity].
    destruct (pendingApprovals c) as [|[fb r0] rest] eqn:Hp;
      [left; exact Hp|].
    destruct (bool_decide (fb = "")) eqn:Hfb; [left; exact Hp|].
    destruct (map_get fb ((fb, r0) :: rest)); [|left; exact Hp].
    rewrite Hfb. right. exists fb. reflexivity.
Qed.

Lemma approve_keeps_keys i decision c :
  keys_nonempty (pendingApprovals c) ->
  keys_nonempty (pendingApprovals (approve i decision c).1.1).
Proof.
  intros Hk. destruct (approve_pending i decision c) as [-> | [k ->]];
    [exact Hk | apply keys_nonempty_delete, Hk].
Qed.

(** C8.  With the keys of the pending map non-empty (as the elicitation
    handler leaves them): [approve(id, decision)] resolves the entry stored
    under exactly [id] when there is one, and removes it; when [id] matches
    nothing and exactly one approval is pending it resolves and removes
    that one; when no resolver is found it returns [false] and changes
    nothing; the decision becomes the reply [accept] for ['approved'] and
    ['approved_for_session'], [decline] for ['denied'], [cancel] for
    ['abort'] and for anything else; and approving the same id a second
    time, with no or several other approvals pending, returns [false]. *)
Theorem approve_correlates (c : Client) (i decision : string) :
  keys_nonempty (pendingApprovals c) ->
  (forall r, map_get i (pendingApprovals c) = Some r ->
     approve i decision c
     = (set_pending (map_delete i (pendingApprovals c)) c,
        [Resolve r decision], true)
     /\ map_get i (map_delete i (pendingApprovals c)) = None
     /\ (forall i', i' <> i ->
           map_get i' (map_delete i (pendingApprovals c))
           = map_get i' (pendingApprovals c)))
  /\ (forall k r, map_get i (pendingApprovals c) = None ->
        pendingApprovals c = [(k, r)] ->
        approve i decision c = (set_pending [] c, [Resolve r decision], true))
  /\ (map_get i (pendingApprovals c) = None ->
      length (pendingApprovals c) <> 1%nat ->
      approve i decision c = (c, [], false))
  /\ (forall c' effs, approve i decision c = (c', effs, false) ->
        c' = c /\ effs = [])
  /\ (forall r decision',
        map_get i (pendingApprovals c) = Some r ->
        length (map_delete i (pendingApprovals c)) <> 1%nat ->
        approve i decision' (approve i decision c).1.1
        = ((approve i decision c).1.1, [], false))
  /\ toElicitResponse "approved" = accept
  /\ toElicitResponse "approved_for_session" = accept
  /\ toElicitResponse "denied" = decline
  /\ toElicitResponse "abort" = cancel
  /\ (decision <> "approved" -> decision <> "approved_for_session" ->
      decision <> "denied" -> toElicitResponse decision = cancel).
Proof.
  intros Hk.
  assert (Hexact : forall r d, map_get i (pendingApprovals c) = Some r ->
            approve i d c
            = (set_pending (map_delete i (pendingApprovals c)) c,
               [Resolve r d], true)).
  { intros r d Hg. unfold approve. rewrite Hg.
    assert (i <> "") as Hi.
    { apply map_get_Some_in in Hg.
      unfold keys_nonempty in Hk. rewrite Forall_forall in Hk.
      apply (Hk (i, r)). exact Hg. }
    rewrite bool_decide_eq_false_2 by exact Hi. reflexivity. }
  repeat apply conj.
  - intros r Hg. repeat apply conj.
    + apply Hexact, Hg.
    + apply map_get_delete_eq.
    + intros i' Hne. apply map_get_delete_ne, Hne.
  - intros k r Hg Hp.
    assert (k <> "") as Hne.
    { rewrite Hp in Hk. inversion Hk; auto. }
    unfold approve. rewrite Hg, Hp. simpl.
    repeat (case_bool_decide; simpl); congruence.
  - intros Hg Hlen. unfold approve. rewrite Hg.
    rewrite bool_decide_eq_false_2 by exact Hlen. reflexivity.
  - intros c' effs. unfold approve.
    destruct (map_get i (pendingApprovals c)) as [r|].
    + intros [=].
    + destruct (bool_decide (length (pendingApprovals c) = 1%nat)).
      * destruct (pendingApprovals c) as [|[fb r0] rest].
        -- intros [= <- <-]. auto.
        -- destruct (bool_decide (fb = "")).
           ++ intros [= <- <-]. auto.
           ++ destruct (map_get fb ((fb, r0) :: rest)).
              ** intros [=].
              ** intros [= <- <-]. auto.
      * intros [= <- <-]. auto.
  - intros r d' Hg Hlen. rewrite (Hexact r decision Hg). simpl.
    unfold approve. simpl. rewrite map_get_delete_eq.
    rewrite bool_decide_eq_false_2 by exact Hlen. reflexivity.
  - reflexivity.
  - reflexivity.
  - reflexivity.
  - reflexivity.
  - intros H1 H2 H3. unfold toElicitResponse.
    rewrite !bool_decide_eq_false_2 by assumption. reflexivity.
Qed.

(** Two approvals pending; the first is approved by its id, a stale id
    finds nothing, and the same id a second time falls back to the one
    approval left only because exactly one is left. *)
Lemma approve_correlates_witness :
  keys_nonempty [("call-1", 7%nat); ("call-2", 8%nat)]
  /\ approve "call-1" "approved"
       (set_pending [("call-1", 7%nat); ("call-2", 8%nat)] new_client)
     = (set_pending [("call-2", 8%nat)] new_client,
        [Resolve 7 "approved"], true)
  /\ approve "stale" "denied"
       (set_pending [("call-1", 7%nat); ("call-2", 8%nat)] new_client)
     = (set_pending [("call-1", 7%nat); ("call-2", 8%nat)] new_client,
        [], false).
Proof.
  assert (keys_nonempty [("call-1", 7%nat); ("call-2", 8%nat)]) as Hk.
  { repeat constructor; discriminate. }
  split; [exact Hk|]. split.
  - destruct (approve_correlates
                (set_pending [("call-1", 7%nat); ("call-2", 8%nat)] new_client)
                "call-1" "approved" Hk) as (H & _).
    destruct (H 7%nat eq_refl) as (Heq & _). exact Heq.
  - destruct (approve_correlates
                (set_pending [("call-1", 7%nat); ("call-2", 8%nat)] new_client)
                "stale" "denied" Hk) as (_ & _ & H & _).
    apply H; [reflexivity | discriminate].
Defined.

End ApprovalFacts.

(* ------------------------------------------------------------------ *)
(** ** Abort resolves pending approvals before teardown *)
(* ------------------------------------------------------------------ *)

Module AbortFacts.
Import Adapter Manager.
Import AbortSpec.

Lemma stop_process_effects target c :
  Forall is_teardown (stopActiveClaudeProcess target c).2
  /\ pendingApprovals (stopActiveClaudeProcess target c).1 = pendingApprovals c.
Proof.
  unfold stopActiveClaudeProcess.
  destruct (match target with Some p => Some p | None => activeClaudeProc c end)
    as [proc|]; [|split; [constructor | reflexivity]].
  split.
  - simpl. destruct (negb (exited proc) && negb (killed proc));
      repeat constructor.
  - simpl. destruct (activeClaudeProc c) as [p|]; [|reflexivity].
    destruct (bool_decide (pid p = pid proc)); reflexivity.
Qed.

Lemma abortPendingApprovals_trace c :
  exists stopped,
    (abortPendingApprovals c).1.2 = abort_resolutions c ++ stopped
    /\ Forall is_teardown stopped
    /\ pendingApprovals (abortPendingApprovals c).1.1 = []
    /\ (abortPendingApprovals c).2 = Z.of_nat (length (pendingApprovals c)).
Proof.
  unfold abortPendingApprovals.
  destruct (stop_process_effects None (set_pending [] c)) as [Hs Hp].
  destruct (stopActiveClaudeProcess None (set_pending [] c)) as [c2 stopped].
  simpl in *. exists stopped. repeat split; auto.
  - unfold abort_resolutions. rewrite <- list_fmap_compose. reflexivity.
  - rewrite length_map. reflexivity.
Qed.

Lemma controller_abort_effects r :
  Forall is_teardown (controller_abort r).2
  /\ client (controller_abort r).1 = client r
  /\ busy (controller_abort r).1 = busy r
  /\ (abort r = Some false -> (controller_abort r).2 = [AbortSignalled]).
Proof.
  unfold controller_abort. destruct (abort r) as [[]|]; simpl;
    repeat split; try constructor; auto; try discriminate; constructor.
Qed.

Lemma abort_resolutions_not_teardown c :
  Forall (fun e => ~ is_teardown e) (abort_resolutions c).
Proof.
  unfold abort_resolutions. apply Forall_fmap, Forall_forall.
  intros kv _ H. exact H.
Qed.

(** In a sequence made of resolutions followed by anything, whatever
    precedes a teardown effect contains every resolution. *)
Lemma resolutions_come_first (res rest pre post : list Effect) (e : Effect) :
  Forall (fun x => ~ is_teardown x) res ->
  res ++ rest = pre ++ e :: post ->
  is_teardown e ->
  forall x, x ∈ res -> x ∈ pre.
Proof.
  intros Hres. revert pre.
  induction Hres as [|a res Ha Hres IH]; intros pre Heq Htd x Hx.
  - inversion Hx.
  - destruct pre as [|p pre'].
    + simpl in Heq. inversion Heq; subst. contradiction.
    + simpl in Heq. inversion Heq; subst.
      apply elem_of_cons in Hx as [->|Hx]; [left|].
      right. apply IH; assumption.
Qed.

(** The synchronous part.  [abort] on a conversation whose turn is
    running first empties the pending map and calls every resolver that
    was in it with ['abort'], and only then signals teardown ([SIGTERM] to
    the child process, the abort of the in-flight call): in the sequence
    of effects every resolution precedes every teardown signal, for any
    number of pending approvals.  On a conversation with no running turn
    it does nothing. *)
Theorem abort_resolves_before_teardown
    (runners : gmap string RunnerState) (sid cid : string) :
  (forall r, runners !! key sid cid = Some r -> busy r = true ->
     exists teardown r',
       abort_turn sid cid runners
       = (<[key sid cid := r']> runners,
          abort_resolutions (client r) ++ teardown, abort_ok)
       /\ Forall is_teardown teardown
       /\ pendingApprovals (client r') = []
       /\ busy r' = true
       /\ (abort r = Some false -> AbortSignalled ∈ teardown))
  /\ (forall r pre e post,
        runners !! key sid cid = Some r ->
        (abort_turn sid cid runners).1.2 = pre ++ e :: post ->
        is_teardown e ->
        forall k v, (k, v) ∈ pendingApprovals (client r) ->
                    Resolve v "abort" ∈ pre)
  /\ ((runners !! key sid cid = None
       \/ exists r, runners !! key sid cid = Some r /\ busy r = false) ->
      abort_turn sid cid runners = (runners, [], abort_error "not_running")).
Proof.
  assert (Hrun : forall r, runners !! key sid cid = Some r -> busy r = true ->
     exists teardown r',
       abort_turn sid cid runners
       = (<[key sid cid := r']> runners,
          abort_resolutions (client r) ++ teardown, abort_ok)
       /\ Forall is_teardown teardown
       /\ pendingApprovals (client r') = []
       /\ busy r' = true
       /\ (abort r = Some false -> AbortSignalled ∈ teardown)).
  { intros r Hr Hb. unfold abort_turn. rewrite Hr, Hb. simpl.
    destruct (abortPendingApprovals_trace (client r))
      as (stopped & Htr & Hstop & Hempty & _).
    destruct (abortPendingApprovals (client r)) as [[c effs1] n].
    simpl in Htr, Hempty.
    destruct (controller_abort_effects (set_client c r))
      as (Hsig & Hcl & Hbusy & Hfire).
    destruct (controller_abort (set_client c r)) as [r1 effs2].
    simpl in *. exists (stopped ++ effs2), r1. repeat split.
    - rewrite Htr, <- app_assoc. reflexivity.
    - apply Forall_app. split; assumption.
    - rewrite Hcl. exact Hempty.
    - rewrite Hbusy. exact Hb.
    - intros Ha. rewrite (Hfire Ha). apply elem_of_app. right. left. }
  split; [exact Hrun|]. split.
  - intros r pre e post Hr Htrace Htd k v Hin.
    destruct (busy r) eqn:Hb.
    + destruct (Hrun r Hr Hb) as (teardown & r' & Heq & Hall & _).
      rewrite Heq in Htrace. simpl in Htrace.
      apply (resolutions_come_first (abort_resolutions (client r))
               teardown pre post e);
        [apply abort_resolutions_not_teardown | exact Htrace | exact Htd |].
      unfold abort_resolutions.
      apply (list_elem_of_fmap_2 (fun kv => Resolve kv.2 "abort") _ (k, v)).
      exact Hin.
    + unfold abort_turn in Htrace. rewrite Hr, Hb in Htrace. simpl in Htrace.
      destruct pre; discriminate.
  - intros [Hn | (r & Hr & Hb)]; unfold abort_turn.
    + rewrite Hn. reflexivity.
    + rewrite Hr, Hb. reflexivity.
Qed.

Lemma abort_resolves_before_teardown_witness :
  abort_turn "s" "c" {[ key "s" "c" := blocked_runner ]}
  = (<[key "s" "c" :=
         {| client := new_client; busy := true; abort := Some true;
            configKey := None; instanceId := "default"; codexHome := None |}]>
       {[ key "s" "c" := blocked_runner ]},
     [Resolve 7 "abort"; Resolve 8 "abort";
      Kill 41 "SIGTERM"; ArmKiller 41 1200; AbortSignalled],
     abort_ok)
  /\ Resolve 8 "abort" ∈ [Resolve 7 "abort"; Resolve 8 "abort"].
Proof.
  split; [reflexivity|].
  destruct (abort_resolves_before_teardown
              {[ key "s" "c" := blocked_runner ]} "s" "c") as (_ & Horder & _).
  apply (Horder blocked_runner [Resolve 7 "abort"; Resolve 8 "abort"]
           (Kill 41 "SIGTERM") [ArmKiller 41 1200; AbortSignalled]
           eq_refl eq_refl I "call-2" 8%nat).
  right. left.
Defined.






End AbortFacts.

(* ------------------------------------------------------------------ *)
(** ** A busy conversation refuses a new turn *)
(* ------------------------------------------------------------------ *)

Module BusyFacts.
Import Adapter Manager Sessiond.
Import BusySpec.

Lemma isBusy_runner sid cid runners :
  isBusy sid cid runners = true ->
  exists r, runners !! key sid cid = Some r /\ busy r = true.
Proof.
  unfold isBusy. destruct (runners !! key sid cid) as [r|]; [|discriminate].
  intros Hb. exists r. auto.
Qed.

(** [runTurn] on a busy conversation throws ['chat_busy'], whichever
    instance binding the request carries. *)
Lemma runTurn_busy_throws opts now runners :
  isBusy (o_sessionId opts) (o_chatId opts) runners = true ->
  runTurn_enter opts now runners = Throw "chat_busy".
Proof.
  intros Hb. apply isBusy_runner in Hb as (r & Hr & Hbusy).
  unfold runTurn_enter, get. rewrite Hr.
  destruct (bool_decide (instanceId r = _) && bool_decide (codexHome r = _)).
  - rewrite Hbusy. reflexivity.
  - rewrite Hbusy. reflexivity.
Qed.

(** C2.  While the runner of a conversation is busy, a start request is
    answered at once with the conflict ['chat_busy'] (HTTP 409) and
    [runTurn] throws ['chat_busy']; the daemon is left exactly as it was:
    no stream is reset, no event is appended, and the runner of the turn
    in flight (busy flag, abort controller, session binding) is the same. *)
Theorem start_while_busy_conflicts (b : StartBody) (now : Z) (d : Daemon) :
  valid_start b = true ->
  isBusy (sessionId b) (chatId b) (codex d) = true ->
  start b now d = (d, [], reply_error 409 "chat_busy", None)
  /\ (forall opts now',
        o_sessionId opts = sessionId b -> o_chatId opts = chatId b ->
        runTurn_enter opts now' (codex d) = Throw "chat_busy").
Proof.
  intros Hv Hb. split.
  - unfold start. rewrite Hv, Hb. reflexivity.
  - intros opts now' Hs Hc. apply runTurn_busy_throws.
    rewrite Hs, Hc. exact Hb.
Qed.

Lemma start_while_busy_conflicts_witness :
  start second_start 20 daemon_mid_turn
  = (daemon_mid_turn, [], reply_error 409 "chat_busy", None).
Proof.
  apply (start_while_busy_conflicts second_start 20 daemon_mid_turn);
    reflexivity.
Defined.

End BusyFacts.

(* ------------------------------------------------------------------ *)
(** ** A changed configuration restarts the agent session *)
(* ------------------------------------------------------------------ *)

Module SessionFacts.
Import Adapter Manager.
Import SessionSpec.

Lemma resetSessionState_drops c :
  hasSession (resetSessionState c).1 = false
  /\ sessionId (resetSessionState c).1 = None
  /\ conversationId (resetSessionState c).1 = None
  /\ sawAssistantTextInFlight (resetSessionState c).1 = false
  /\ pendingApprovals (resetSessionState c).1 = [].
Proof.
  unfold resetSessionState.
  destruct (AbortFacts.abortPendingApprovals_trace c) as (st & _ & _ & Hp & _).
  destruct (abortPendingApprovals c) as [[c1 effs] n]. simpl in *.
  repeat split; auto.
Qed.

Lemma continueSession_begin_keeps c c1 :
  continueSession_begin c = Some c1 -> sessionId c1 = sessionId c.
Proof.
  unfold continueSession_begin.
  destruct (stored_falsy (sessionId c)); [discriminate|].
  destruct (stored_falsy (conversationId c)); intros [= <-]; reflexivity.
Qed.

Lemma progress_is_progress stage message :
  isProgressMsg
    (JObj [("type", JStr "progress"); ("stage", JStr stage);
           ("message", JStr message)]) = true.
Proof. reflexivity. Qed.

(** The two branches of [runTurn] for a runner that holds a session. *)
Lemma runTurn_enter_with_session opts now runners runners1 r :
  get (o_sessionId opts) (o_chatId opts) (o_instance opts) runners
  = Ok (runners1, r) ->
  busy r = false ->
  hasSession (client r) = true ->
  (configKey r <> Some (sessionConfigKey (o_config opts)) ->
   exists r' ctx effs,
     runTurn_enter opts now runners
     = Ok (<[key (o_sessionId opts) (o_chatId opts) := r']> runners1, ctx,
           [session_reset_event;
            progress "start_session" (start_message (o_config opts))],
           effs, StartSession (session_config opts))
     /\ sessionId (client r') = None
     /\ conversationId (client r') = None
     /\ nextConfigKey ctx = sessionConfigKey (o_config opts))
  /\ (configKey r = Some (sessionConfigKey (o_config opts)) ->
      exists r' ctx effs call,
        runTurn_enter opts now runners
        = Ok (<[key (o_sessionId opts) (o_chatId opts) := r']> runners1, ctx,
              [progress "continue_session" (continue_message (o_config opts))],
              effs, call)
        /\ calls_continueSession opts call
        /\ sessionId (client r') = sessionId (client r)
        /\ (stored_falsy (sessionId (client r)) = false ->
            call = ContinueSession (o_prompt opts))).
Proof.
  intros Hget Hbusy Hsess.
  assert (Hsig : exists a effs0,
    (match o_signal opts with
     | Some true =>
         controller_abort
           (set_client (setEventHandler true
                          (client (set_abort (Some false) (set_busy true r))))
              (set_abort (Some false) (set_busy true r)))
     | _ => (set_client (setEventHandler true
                           (client (set_abort (Some false) (set_busy true r))))
               (set_abort (Some false) (set_busy true r)), [])
     end)
    = ({| client := setEventHandler true (client r); busy := true;
          abort := a; configKey := configKey r;
          instanceId := instanceId r; codexHome := codexHome r |}, effs0)).
  { destruct (o_signal opts) as [[|]|]; simpl; eauto. }
  destruct Hsig as (a & effs0 & Hsig).
  split.
  - intros Hne. unfold runTurn_enter. rewrite Hget, Hbusy, Hsig.
    cbn [client configKey nextConfigKey].
    assert (hasSession (setEventHandler true (client r)) = true) as ->
      by exact Hsess.
    rewrite bool_decide_eq_false_2 by exact Hne.
    unfold emit, progress. rewrite !progress_is_progress.
    cbn [negb andb].
    destruct (resetSessionState_drops (setEventHandler true (client r)))
      as (Hhas & Hsid & Hcid & _).
    destruct (resetSessionState (setEventHandler true (client r)))
      as [c effs1] eqn:Hreset.
    cbn [fst] in Hhas, Hsid, Hcid.
    cbn [set_client client]. rewrite Hhas.
    cbn [negb].
    eexists _, _, _. split; [reflexivity|].
    cbn. auto.
  - intros Heq. unfold runTurn_enter. rewrite Hget, Hbusy, Hsig.
    cbn [client configKey nextConfigKey].
    assert (hasSession (setEventHandler true (client r)) = true) as ->
      by exact Hsess.
    rewrite bool_decide_eq_true_2 by exact Heq.
    unfold emit, progress. rewrite !progress_is_progress.
    cbn [negb andb client].
    assert (hasSession (setEventHandler true (client r)) = true) as ->
      by exact Hsess.
    cbn [negb].
    destruct (continueSession_begin (setEventHandler true (client r)))
      as [c1|] eqn:Hc.
    + eexists _, _, _, _. split; [reflexivity|].
      split; [left; reflexivity|]. split.
      * cbn. apply continueSession_begin_keeps in Hc. exact Hc.
      * intros _. reflexivity.
    + eexists _, _, _, _. split; [reflexivity|].
      split; [right; reflexivity|]. split; [cbn; reflexivity|].
      intros Hf. unfold continueSession_begin in Hc. cbn in Hc.
      rewrite Hf in Hc. destruct (stored_falsy (conversationId (client r)));
        discriminate.
Qed.

End SessionFacts.

(* ------------------------------------------------------------------ *)
(** ** The configuration fingerprint determines the configuration *)
(* ------------------------------------------------------------------ *)

Module FingerprintFacts.
Import Adapter Manager.
Import FingerprintSpec.

Lemma append_cons (x : ascii) (a b : string) :
  String x a +:+ b = String x (a +:+ b).
Proof. reflexivity. Qed.

Lemma append_nil (b : string) : "" +:+ b = b.
Proof. reflexivity. Qed.

Lemma append_assoc (a b c : string) : (a +:+ b) +:+ c = a +:+ (b +:+ c).
Proof.
  induction a as [|x a IH]; [reflexivity|].
  rewrite !append_cons, IH. reflexivity.
Qed.

Lemma append_prefix_inj (p x y : string) : p +:+ x = p +:+ y -> x = y.
Proof.
  induction p as [|a p IH]; [auto|].
  rewrite !append_cons. intros [= H]. auto.
Qed.

Lemma unquote_quote (a : ascii) (r : string) :
  unquote_char (quote_char a +:+ r) = Some (a, r).
Proof.
  destruct a as [[] [] [] [] [] [] [] []]; reflexivity.
Qed.

Lemma quote_body_cons (a : ascii) (s r : string) :
  quote_body (String a s) +:+ r = quote_char a +:+ (quote_body s +:+ r).
Proof. cbn [quote_body]. apply append_assoc. Qed.

Lemma quote_body_inj (s s' r r' : string) :
  quote_body s +:+ String dquote r = quote_body s' +:+ String dquote r' ->
  s = s' /\ r = r'.
Proof.
  revert s'. induction s as [|a s IH]; intros [|a' s'] H.
  - cbn [quote_body] in H. rewrite !append_nil in H. injection H as H. auto.
  - rewrite quote_body_cons in H. cbn [quote_body] in H.
    rewrite append_nil in H.
    apply (f_equal unquote_char) in H. rewrite unquote_quote in H.
    discriminate.
  - rewrite quote_body_cons in H. cbn [quote_body] in H.
    rewrite append_nil in H.
    apply (f_equal unquote_char) in H. rewrite unquote_quote in H.
    discriminate.
  - rewrite !quote_body_cons in H.
    apply (f_equal unquote_char) in H. rewrite !unquote_quote in H.
    injection H as -> H. destruct (IH _ H) as [-> ->]. auto.
Qed.

(** A stringified field is self-delimiting: what follows it can be read
    off. *)
Lemma JSON_field_prefix (v v' : option string) (r r' : string) :
  JSON_field v +:+ r = JSON_field v' +:+ r' -> v = v' /\ r = r'.
Proof.
  destruct v as [s|], v' as [s'|]; unfold JSON_field, JSON_quote;
    rewrite ?append_cons; intros H; try discriminate.
  - injection H as H. rewrite !append_assoc, !append_cons, !append_nil in H.
    destruct (quote_body_inj _ _ _ _ H) as [-> ->]. auto.
  - apply (append_prefix_inj "null") in H. auto.
Qed.

Lemma sandbox_name_inj (a b : option Sandbox) :
  sandbox_name <$> a = sandbox_name <$> b -> a = b.
Proof. destruct a as [[]|], b as [[]|]; simpl; intros; congruence. Qed.

Lemma policy_name_inj (a b : option ApprovalPolicy) :
  policy_name <$> a = policy_name <$> b -> a = b.
Proof. destruct a as [[]|], b as [[]|]; simpl; intros; congruence. Qed.

Lemma effort_name_inj (a b : option ReasoningEffort) :
  effort_name <$> a = effort_name <$> b -> a = b.
Proof. destruct a as [[]|], b as [[]|]; simpl; intros; congruence. Qed.

(** Two configurations with the same fingerprint are the same. *)
Lemma sessionConfigKey_inj (c1 c2 : Config) :
  sessionConfigKey c1 = sessionConfigKey c2 -> c1 = c2.
Proof.
  unfold sessionConfigKey. intros H.
  apply append_prefix_inj in H. apply append_prefix_inj in H.
  apply JSON_field_prefix in H as [H1 H].
  apply append_prefix_inj in H. apply append_prefix_inj in H.
  apply JSON_field_prefix in H as [H2 H].
  apply append_prefix_inj in H. apply append_prefix_inj in H.
  apply JSON_field_prefix in H as [H3 H].
  apply append_prefix_inj in H. apply append_prefix_inj in H.
  apply JSON_field_prefix in H as [H4 H].
  apply append_prefix_inj in H. apply append_prefix_inj in H.
  apply JSON_field_prefix in H as [H5 _].
  apply sandbox_name_inj in H2. apply policy_name_inj in H3.
  apply effort_name_inj in H5.
  destruct c1, c2. simpl in *. congruence.
Qed.

End FingerprintFacts.

Module RestartFacts.
Import Adapter Manager SessionSpec SessionFacts.
Import RestartSpec.

(** One turn, whatever fingerprint the runner has on record.  The
    fingerprint is a function of (cwd, sandbox, approval policy, model,
    reasoning effort) that differs exactly when one of them differs.  For
    a runner that is not busy and holds a session: when the fingerprint of
    the requested turn differs from the one on record, [runTurn] emits the
    progress event of stage ['session_reset'], discards the binding
    ([resetSessionState]) and calls [startSession]; when it is equal, it
    calls [continueSession] and keeps the binding. *)
Theorem config_change_restarts_session
    (opts : TurnOpts) (now : Z) (runners runners1 : gmap string RunnerState)
    (r : RunnerState) :
  get (o_sessionId opts) (o_chatId opts) (o_instance opts) runners
  = Ok (runners1, r) ->
  busy r = false ->
  hasSession (client r) = true ->
  (forall prev,
     sessionConfigKey (o_config opts) = sessionConfigKey prev
     <-> o_config opts = prev)
  /\ (configKey r <> Some (sessionConfigKey (o_config opts)) ->
      exists r' ctx effs,
        runTurn_enter opts now runners
        = Ok (<[key (o_sessionId opts) (o_chatId opts) := r']> runners1, ctx,
              [session_reset_event;
               progress "start_session" (start_message (o_config opts))],
              effs, StartSession (session_config opts))
        /\ sessionId (client r') = None
        /\ conversationId (client r') = None
        /\ nextConfigKey ctx = sessionConfigKey (o_config opts))
  /\ (configKey r = Some (sessionConfigKey (o_config opts)) ->
      exists r' ctx effs call,
        runTurn_enter opts now runners
        = Ok (<[key (o_sessionId opts) (o_chatId opts) := r']> runners1, ctx,
              [progress "continue_session" (continue_message (o_config opts))],
              effs, call)
        /\ calls_continueSession opts call
        /\ sessionId (client r') = sessionId (client r)
        /\ (stored_falsy (sessionId (client r)) = false ->
            call = ContinueSession (o_prompt opts))).
Proof.
  intros Hget Hbusy Hsess. split.
  - intros prev. split.
    + apply FingerprintFacts.sessionConfigKey_inj.
    + intros ->. reflexivity.
  - apply (runTurn_enter_with_session opts now runners runners1 r);
      assumption.
Qed.

Lemma config_change_restarts_session_witness :
  sessionConfigKey config_gpt
  = "{" +:+ JSON_key "cwd" +:+ JSON_quote "/work"
    +:+ "," +:+ JSON_key "sandbox" +:+ JSON_quote "workspace-write"
    +:+ "," +:+ JSON_key "approvalPolicy" +:+ JSON_quote "on-request"
    +:+ "," +:+ JSON_key "model" +:+ JSON_quote "gpt-5.3-codex"
    +:+ "," +:+ JSON_key "reasoningEffort" +:+ JSON_quote "high" +:+ "}"
  /\ exists r' ctx effs,
       runTurn_enter turn_other_model 100 {[ key "s" "c" := bound_runner ]}
       = Ok (<[key "s" "c" := r']> {[ key "s" "c" := bound_runner ]}, ctx,
             [session_reset_event;
              progress "start_session"
                "starting new Codex session (model=o3, cwd=/work)"],
             effs, StartSession (session_config turn_other_model))
       /\ sessionId (client r') = None
       /\ conversationId (client r') = None
       /\ nextConfigKey ctx = sessionConfigKey config_other_model.
Proof.
  split; [reflexivity|].
  assert (get (o_sessionId turn_other_model) (o_chatId turn_other_model)
              (o_instance turn_other_model) {[ key "s" "c" := bound_runner ]}
          = Ok ({[ key "s" "c" := bound_runner ]}, bound_runner)) as Hget
    by reflexivity.
  destruct (config_change_restarts_session turn_other_model 100
              {[ key "s" "c" := bound_runner ]}
              {[ key "s" "c" := bound_runner ]} bound_runner
              Hget eq_refl eq_refl) as (_ & Hrestart & _).
  apply Hrestart. vm_compute. intros [=].
Defined.

(** C5, where the code departs from it.  The fingerprint on record is
    written only once [startSession] has resolved, while the session the
    backend made is bound as soon as a notification names it, and a call
    that is rejected leaves that binding in place.  Three turns of one
    conversation: the first, under [config_gpt], resolves; the second,
    under [config_other_model], restarts the session, the backend names
    the new session, and the turn is aborted; the third, under
    [config_gpt] again, finds its own fingerprint on record and continues
    the session that was started under [config_other_model], with no
    ['session_reset'] event. *)
Theorem aborted_restart_is_continued :
  exists runners1 ctx1 out1 effs1 r1 r1n ctx1n out1n
         runners2 ctx2 effs2 r2 r2n ctx2n out2n runners2a effs2a r2a
         runners3 ctx3 r3,
    runTurn_enter turn_gpt 100 ∅
    = Ok (runners1, ctx1, out1, effs1, StartSession (session_config turn_gpt))
    /\ runners1 !! key "s" "c" = Some r1
    /\ on_notification 110 (session_configured "sess-1") r1 ctx1
       = Some (r1n, ctx1n, out1n)
    /\ runTurn_enter turn_other_model 200
         (settled turn_gpt (StartSession (session_config turn_gpt))
            (Resolved None None) ctx1n r1n runners1)
       = Ok (runners2, ctx2,
             [session_reset_event;
              progress "start_session" (start_message config_other_model)],
             effs2, StartSession (session_config turn_other_model))
    /\ runners2 !! key "s" "c" = Some r2
    /\ on_notification 210 (session_configured "sess-2") r2 ctx2
       = Some (r2n, ctx2n, out2n)
    /\ abort_turn "s" "c" (<[key "s" "c" := r2n]> runners2)
       = (runners2a, effs2a, abort_ok)
    /\ runners2a !! key "s" "c" = Some r2a
    /\ runTurn_enter turn_gpt 300
         (settled turn_other_model
            (StartSession (session_config turn_other_model))
            (Rejected "This operation was aborted") ctx2n r2a runners2a)
       = Ok (runners3, ctx3,
             [progress "continue_session" (continue_message config_gpt)],
             [], ContinueSession "next")
    /\ runners3 !! key "s" "c" = Some r3
    /\ sessionId (client r3) = Some (JStr "sess-2")
    /\ configKey r3 = Some (sessionConfigKey config_gpt)
    /\ sessionConfigKey config_gpt <> sessionConfigKey config_other_model.
Proof.
  do 21 eexists.
  repeat (split; [vm_compute; reflexivity|]).
  vm_compute. intros [=].
Qed.

End RestartFacts.

(* ------------------------------------------------------------------ *)
(** ** Rate-limit windows: the three ways to say "40% used" *)
(* ------------------------------------------------------------------ *)

Module RateLimitFacts.
Import RateLimit.

(** C6.  Whatever JavaScript reads off strings, a window given as
    [{used_percent: 40}], as [{remaining_percent: 60}] or as
    [{used: 40, limit: 100}] normalizes to [used_percent] 40, in binary64
    arithmetic.  In general a finite [used_percent] is kept, a finite
    [remaining_percent] gives [100 - remaining_percent], and a finite
    [used] with a finite positive [limit] gives [used / limit * 100]
    clamped by [Math.max(0, Math.min(100, _))]. *)
Theorem used_percent_from_any_form (Number : string -> float) :
  normalizeRateLimitWindow Number (JObj [("used_percent", JNum 40)])
  = Some 40%float
  /\ normalizeRateLimitWindow Number (JObj [("remaining_percent", JNum 60)])
     = Some 40%float
  /\ normalizeRateLimitWindow Number
       (JObj [("used", JNum 40); ("limit", JNum 100)])
     = Some 40%float
  /\ (forall p, PrimFloat.is_finite p = true ->
        normalizeRateLimitWindow Number (JObj [("used_percent", JNum p)])
        = Some p)
  /\ (forall q, PrimFloat.is_finite q = true ->
        normalizeRateLimitWindow Number (JObj [("remaining_percent", JNum q)])
        = Some (100 - q)%float)
  /\ (forall u l,
        PrimFloat.is_finite u = true -> PrimFloat.is_finite l = true ->
        PrimFloat.ltb 0 l = true ->
        normalizeRateLimitWindow Number
          (JObj [("used", JNum u); ("limit", JNum l)])
        = Some (Math_max 0 (Math_min 100 (u / l * 100)%float)))
  /\ normalizeRateLimitWindow Number
       (JObj [("used", JNum 150); ("limit", JNum 100)])
     = Some 100%float
  /\ normalizeRateLimitWindow Number
       (JObj [("used", JNum (-5)); ("limit", JNum 100)])
     = Some 0%float.
Proof.
  repeat apply conj.
  - vm_compute. reflexivity.
  - vm_compute. reflexivity.
  - vm_compute. reflexivity.
  - intros p Hp. vm_compute in Hp. vm_compute. rewrite Hp. reflexivity.
  - intros q Hq. vm_compute in Hq. vm_compute. rewrite Hq. reflexivity.
  - intros u l Hu Hl Hpos. vm_compute in Hu, Hl, Hpos. vm_compute.
    rewrite Hu, Hl, Hpos. reflexivity.
  - vm_compute. reflexivity.
  - vm_compute. reflexivity.
Qed.

End RateLimitFacts.

(* ------------------------------------------------------------------ *)
(** ** Event ids: contiguous, newest kept, replay since a cursor *)
(* ------------------------------------------------------------------ *)

Module StreamFacts.
Import Sessiond.
Import StreamSpec.

Lemma drop_seqZ (m n : Z) (k : nat) :
  drop k (seqZ m n) = seqZ (m + Z.of_nat k) (n - Z.of_nat k).
Proof.
  apply list_eq. intros i. rewrite lookup_drop.
  destruct (decide (Z.of_nat (k + i) < n)) as [Hlt|Hge].
  - rewrite !lookup_seqZ_lt by lia. f_equal. lia.
  - rewrite !lookup_seqZ_ge by lia. reflexivity.
Qed.

Lemma ids_snoc evs e : ids (evs ++ [e]) = ids evs ++ [id e].
Proof. unfold ids. rewrite fmap_app. reflexivity. Qed.

Lemma newest_feed1 cap all it st :
  newest cap all st -> newest cap (all ++ [it]) (feed1 cap it st).
Proof.
  destruct st as [n evs]. unfold newest, feed1. simpl.
  intros (Hn & Hlen & Hids & Horigin).
  assert (Hfull : ids (evs ++ [event_of n it])
                  = seqZ (n - Z.of_nat (length evs))
                         (Z.of_nat (S (length evs)))).
  { rewrite ids_snoc, Hids, seqZ_S. simpl. do 2 f_equal. lia. }
  assert (Horigin' :
    Forall (fun e => (all ++ [it]) !! Z.to_nat (id e - 1)
                     = Some (ts e, event e, data e))
           (evs ++ [event_of n it])).
  { apply Forall_app. split.
    - eapply Forall_impl; [exact Horigin|]. intros e He. simpl in He.
      rewrite lookup_app_l; [exact He|].
      apply lookup_lt_Some in He. exact He.
    - constructor; [|constructor]. simpl.
      rewrite Hn. replace (Z.to_nat (1 + Z.of_nat (length all) - 1))
        with (length all) by lia.
      destruct it as [[t ev] payload]. simpl.
      apply list_lookup_middle. reflexivity. }
  rewrite length_app. simpl. unfold trim.
  rewrite length_app. simpl.
  destruct (bool_decide (cap < length evs + 1)%nat) eqn:Hcap.
  - apply bool_decide_eq_true in Hcap.
    rewrite length_drop, length_app. simpl.
    repeat split.
    + lia.
    + lia.
    + unfold ids in *. rewrite fmap_drop, Hfull, drop_seqZ. f_equal; lia.
    + apply Forall_drop. exact Horigin'.
  - apply bool_decide_eq_false in Hcap.
    rewrite length_app. simpl.
    repeat split.
    + lia.
    + lia.
    + rewrite Hfull. f_equal; lia.
    + exact Horigin'.
Qed.

Lemma newest_feed cap items :
  forall all st, newest cap all st -> newest cap (all ++ items) (feed cap items st).
Proof.
  induction items as [|it items IH]; intros all st H.
  - rewrite app_nil_r. exact H.
  - unfold feed. simpl. fold (feed cap items (feed1 cap it st)).
    replace (all ++ it :: items) with ((all ++ [it]) ++ items)
      by (rewrite <- app_assoc; reflexivity).
    apply IH, newest_feed1, H.
Qed.

Lemma newest_empty cap : newest cap [] (1, []).
Proof. unfold newest. simpl. repeat split; constructor. Qed.

Lemma ids_filter c evs :
  ids (filter (fun e => c < id e) evs) = filter (fun x => c < x) (ids evs).
Proof.
  induction evs as [|e evs IH]; [reflexivity|].
  unfold ids in *. rewrite fmap_cons, !filter_cons.
  destruct (decide (c < id e)).
  - rewrite fmap_cons, IH. reflexivity.
  - exact IH.
Qed.

Lemma filter_gt_seqZ (c m : Z) (len : nat) :
  filter (fun x => c < x) (seqZ m (Z.of_nat len))
  = seqZ (Z.max m (c + 1)) (m + Z.of_nat len - Z.max m (c + 1)).
Proof.
  revert m. induction len as [|len IH]; intros m.
  - rewrite (seqZ_nil m) by lia. rewrite seqZ_nil by lia. reflexivity.
  - rewrite (seqZ_cons m) by lia. rewrite filter_cons.
    replace (Z.pred (Z.of_nat (S len))) with (Z.of_nat len) by lia.
    rewrite IH. destruct (decide (c < m)).
    + rewrite (seqZ_cons (Z.max m (c + 1))) by lia.
      replace (Z.max m (c + 1)) with m by lia.
      f_equal. f_equal; lia.
    + f_equal; lia.
Qed.

(** Replay since a cursor on a buffer of that shape: the ids above the
    cursor, in order. *)
Lemma newest_since cap all st c :
  newest cap all st ->
  ids (filter (fun e => c < id e) st.2)
  = seqZ (Z.max (st.1 - Z.of_nat (length st.2)) (c + 1))
         (st.1 - Z.max (st.1 - Z.of_nat (length st.2)) (c + 1)).
Proof.
  intros (_ & _ & Hids & _).
  rewrite ids_filter, Hids, filter_gt_seqZ. f_equal. lia.
Qed.

(** *** The gateway's buffers *)

Lemma gateway_buffer_ensure now k streams :
  gateway_buffer k streams
  = (nextId (ensureStream now k streams).2, events (ensureStream now k streams).2)
  /\ gateway_buffer k (ensureStream now k streams).1 = gateway_buffer k streams.
Proof.
  unfold gateway_buffer, ensureStream.
  destruct (streams !! k) as [s|] eqn:Hs; simpl.
  - rewrite Hs. auto.
  - rewrite lookup_insert_eq. auto.
Qed.

Lemma gateway_append_buffer now k ev payload streams :
  gateway_buffer k (appendStreamEvent now k ev payload streams).1
  = feed1 maxEvents (now, ev, payload) (gateway_buffer k streams).
Proof.
  unfold appendStreamEvent.
  destruct (gateway_buffer_ensure now k streams) as [Hb _].
  destruct (ensureStream now k streams) as [streams1 s]. simpl in Hb.
  rewrite Hb. unfold push, gateway_buffer, feed1. simpl.
  rewrite lookup_insert_eq. reflexivity.
Qed.

Lemma gateway_history_buffer k items :
  forall streams,
    gateway_buffer k (gateway_history k items streams)
    = feed maxEvents items (gateway_buffer k streams).
Proof.
  induction items as [|[[t ev] payload] items IH]; intros streams;
    [reflexivity|].
  unfold gateway_history, feed. simpl.
  fold (gateway_history k items (appendStreamEvent t k ev payload streams).1).
  fold (feed maxEvents items
          (feed1 maxEvents (t, ev, payload) (gateway_buffer k streams))).
  rewrite IH, gateway_append_buffer. reflexivity.
Qed.

Lemma gateway_since now k c streams :
  (listStreamEventsSince now k c streams).2
  = filter (fun e => c < id e) (gateway_buffer k streams).2.
Proof.
  unfold listStreamEventsSince.
  destruct (gateway_buffer_ensure now k streams) as [Hb _].
  destruct (ensureStream now k streams) as [streams1 s]. simpl in *.
  rewrite Hb. reflexivity.
Qed.

Lemma gateway_reset_buffer now k streams :
  gateway_buffer k (resetStream now k streams) = (1, []).
Proof.
  unfold resetStream. destruct (ensureStream now k streams) as [streams1 s].
  unfold gateway_buffer. rewrite lookup_insert_eq. reflexivity.
Qed.

(** *** The web server's buffers *)

Lemma store_buffer_ensure now k streams :
  store_buffer k streams
  = (Store.nextId (Store.ensureStream now k streams).2,
     Store.events (Store.ensureStream now k streams).2)
  /\ store_buffer k (Store.ensureStream now k streams).1 = store_buffer k streams.
Proof.
  unfold store_buffer, Store.ensureStream.
  destruct (streams !! k) as [s|] eqn:Hs; simpl.
  - rewrite Hs. auto.
  - rewrite lookup_insert_eq. auto.
Qed.

Lemma store_append_buffer now k ev payload streams :
  store_buffer k (Store.appendStreamEvent now k ev payload streams).1.1
  = feed1 Store.maxEvents (now, ev, payload) (store_buffer k streams).
Proof.
  unfold Store.appendStreamEvent.
  destruct (store_buffer_ensure now k streams) as [Hb _].
  destruct (Store.ensureStream now k streams) as [streams1 s]. simpl in Hb.
  rewrite Hb. unfold Store.push, store_buffer, feed1. simpl.
  rewrite lookup_insert_eq. reflexivity.
Qed.

Lemma store_history_buffer k items :
  forall streams,
    store_buffer k (store_history k items streams)
    = feed Store.maxEvents items (store_buffer k streams).
Proof.
  induction items as [|[[t ev] payload] items IH]; intros streams;
    [reflexivity|].
  unfold store_history, feed. simpl.
  fold (store_history k items
          (Store.appendStreamEvent t k ev payload streams).1.1).
  fold (feed Store.maxEvents items
          (feed1 Store.maxEvents (t, ev, payload) (store_buffer k streams))).
  rewrite IH, store_append_buffer. reflexivity.
Qed.

Lemma store_since now k c streams :
  (Store.listStreamEventsSince now k c streams).2
  = filter (fun e => c < id e) (store_buffer k streams).2.
Proof.
  unfold Store.listStreamEventsSince.
  destruct (store_buffer_ensure now k streams) as [Hb _].
  destruct (Store.ensureStream now k streams) as [streams1 s]. simpl in *.
  rewrite Hb. reflexivity.
Qed.

Lemma store_reset_buffer now k streams :
  store_buffer k (Store.resetStream now k streams) = (1, []).
Proof.
  unfold Store.resetStream.
  destruct (Store.ensureStream now k streams) as [streams1 s].
  unfold store_buffer. rewrite lookup_insert_eq. reflexivity.
Qed.

Lemma filter_exactly_since cap all buf c :
  newest cap all buf ->
  exactly_since c buf (filter (fun e => c < id e) buf.2).
Proof.
  intros H. split.
  - intros e. rewrite list_elem_of_filter. tauto.
  - apply (newest_since cap all buf c H).
Qed.

End StreamFacts.

Module BufferFacts.
Import Sessiond StreamSpec StreamFacts.
Import BufferSpec.

(** With a cap of two, the third append drops the oldest event. *)
Example feed_keeps_newest :
  feed 2 [(10, "start", JNull); (11, "delta", JNull); (12, "done", JNull)]
       (1, [])
  = (4, [ {| id := 2; event := "delta"; data := JNull; ts := 11 |};
          {| id := 3; event := "done"; data := JNull; ts := 12 |} ]).
Proof. reflexivity. Qed.

(** C3.  In a buffer that was just created or reset (next id 1, no
    events), after any run of appends, in the gateway (cap 4000) and in the
    web server's store (cap 2000) alike: the next id is one more than the
    number of appends, so ids are handed out 1, 2, 3, ...; the retained
    events are the newest [min n cap] appended items, unchanged, with
    consecutive ids ending at the last id (trimming only drops a prefix);
    and [listStreamEventsSince(cursor)] returns exactly the retained events
    with an id above the cursor, their ids being consecutive and
    increasing.  [resetStream] and the creation of a missing buffer give
    such an empty buffer. *)
Theorem event_ids_contiguous
    (k : string) (items : list Item) (c now : Z)
    (gw : gmap string ChatStream) (ws : gmap string Store.ChatStream) :
  gateway_buffer k gw = (1, []) ->
  store_buffer k ws = (1, []) ->
  newest 4000 items (gateway_buffer k (gateway_history k items gw))
  /\ exactly_since c (gateway_buffer k (gateway_history k items gw))
       (listStreamEventsSince now k c (gateway_history k items gw)).2
  /\ newest 2000 items (store_buffer k (store_history k items ws))
  /\ exactly_since c (store_buffer k (store_history k items ws))
       (Store.listStreamEventsSince now k c (store_history k items ws)).2
  /\ (forall now0 streams,
        gateway_buffer k (resetStream now0 k streams) = (1, [])
        /\ gateway_buffer k (delete k streams) = (1, []))
  /\ (forall now0 streams,
        store_buffer k (Store.resetStream now0 k streams) = (1, [])
        /\ store_buffer k (delete k streams) = (1, [])).
Proof.
  intros Hgw Hws.
  assert (Hg : newest 4000 items (gateway_buffer k (gateway_history k items gw))).
  { rewrite gateway_history_buffer, Hgw.
    apply (newest_feed maxEvents items [] (1, [])), newest_empty. }
  assert (Hs : newest 2000 items (store_buffer k (store_history k items ws))).
  { rewrite store_history_buffer, Hws.
    apply (newest_feed Store.maxEvents items [] (1, [])), newest_empty. }
  split; [exact Hg|].
  split; [rewrite gateway_since; apply (filter_exactly_since 4000 items), Hg|].
  split; [exact Hs|].
  split; [rewrite store_since; apply (filter_exactly_since 2000 items), Hs|].
  split; intros now0 streams; split.
  - apply gateway_reset_buffer.
  - unfold gateway_buffer. rewrite lookup_delete_eq. reflexivity.
  - apply store_reset_buffer.
  - unfold store_buffer. rewrite lookup_delete_eq. reflexivity.
Qed.

Lemma event_ids_contiguous_witness :
  gateway_buffer "s:c" (resetStream 9 "s:c" ∅) = (1, [])
  /\ store_buffer "s:c" ∅ = (1, [])
  /\ newest 4000 three_items
       (gateway_buffer "s:c"
          (gateway_history "s:c" three_items (resetStream 9 "s:c" ∅)))
  /\ ids (listStreamEventsSince 13 "s:c" 1
            (gateway_history "s:c" three_items (resetStream 9 "s:c" ∅))).2
     = [2; 3].
Proof.
  assert (gateway_buffer "s:c" (resetStream 9 "s:c" ∅) = (1, [])) as Hgw
    by reflexivity.
  assert (store_buffer "s:c" ∅ = (1, [])) as Hws by reflexivity.
  destruct (event_ids_contiguous "s:c" three_items 1 13
              (resetStream 9 "s:c" ∅) ∅ Hgw Hws) as (Hnew & _).
  split; [exact Hgw|]. split; [exact Hws|]. split; [exact Hnew|].
  reflexivity.
Defined.

End BufferFacts.

(* ------------------------------------------------------------------ *)
(** ** Resetting a stream keeps its subscribers *)
(* ------------------------------------------------------------------ *)

Module ListenerFacts.
Import Sessiond (Status, idle, running, done, error, StreamEvent, id, event,
                 data, ts).
Import Store StreamSpec StreamFacts.
Import ListenerSpec.

Lemma heard_app fn a b : heard fn (a ++ b) = heard fn a ++ heard fn b.
Proof. apply omap_app. Qed.

Lemma heard_cons fn f e calls :
  heard fn ((f, e) :: calls)
  = if bool_decide (f = fn) then e :: heard fn calls else heard fn calls.
Proof. unfold heard. simpl. destruct (bool_decide (f = fn)); reflexivity. Qed.

Lemma heard_others fn e (l : list nat) :
  fn ∉ l -> heard fn ((fun f => (f, e)) <$> l) = [].
Proof.
  induction l as [|x l IH]; intros Hnot; [reflexivity|].
  rewrite fmap_cons, heard_cons.
  rewrite bool_decide_eq_false_2.
  - apply IH. intros H. apply Hnot. right. exact H.
  - intros ->. apply Hnot. left.
Qed.

Lemma heard_broadcast fn e (l : list nat) :
  NoDup l -> fn ∈ l -> heard fn ((fun f => (f, e)) <$> l) = [e].
Proof.
  induction 1 as [|x l Hx Hnd IH]; intros Hin; [inversion Hin|].
  rewrite fmap_cons, heard_cons.
  destruct (bool_decide (x = fn)) eqn:E.
  - apply bool_decide_eq_true in E. subst x.
    rewrite (heard_others fn e l Hx). reflexivity.
  - apply bool_decide_eq_false in E.
    apply elem_of_cons in Hin as [->|Hin]; [congruence|]. apply IH, Hin.
Qed.

Lemma appendStreamEvent_frame now k ev payload streams k' :
  k' <> k ->
  (appendStreamEvent now k ev payload streams).1.1 !! k' = streams !! k'.
Proof.
  intros Hne. unfold appendStreamEvent, ensureStream.
  destruct (streams !! k) as [s|]; simpl.
  - apply lookup_insert_ne. congruence.
  - rewrite !lookup_insert_ne by congruence. reflexivity.
Qed.

Lemma run_frame k items :
  forall streams k', k' <> k -> (run k items streams).1 !! k' = streams !! k'.
Proof.
  induction items as [|it items IH]; intros streams k' Hne; [reflexivity|].
  cbn [run].
  pose proof (appendStreamEvent_frame it.1.1 k it.1.2 it.2 streams k' Hne) as Hf.
  destruct (appendStreamEvent it.1.1 k it.1.2 it.2 streams)
    as [[streams1 e] calls1].
  specialize (IH streams1 k' Hne).
  destruct (run k items streams1) as [streams2 calls2].
  simpl in *. congruence.
Qed.

Lemma run_on_stream k items :
  forall streams s,
    streams !! k = Some s ->
    NoDup (listeners s) ->
    exists s',
      (run k items streams).1 !! k = Some s'
      /\ listeners s' = listeners s
      /\ (forall k', k' <> k -> (run k items streams).1 !! k' = streams !! k')
      /\ (forall fn, fn ∈ listeners s ->
            heard fn (run k items streams).2 = created (nextId s) items).
Proof.
  induction items as [|it items IH]; intros streams s Hs Hnd.
  - exists s. simpl. repeat split; auto.
  - cbn [run]. unfold appendStreamEvent, ensureStream. rewrite Hs.
    cbn [push fst snd].
    set (s1 := {| status := Sessiond.latch it.1.2 (status s);
                  nextId := nextId s + 1;
                  events := Sessiond.trim maxEvents
                              (events s ++ [{| id := nextId s; event := it.1.2;
                                               data := it.2; ts := it.1.1 |}]);
                  listeners := listeners s; updatedAt := it.1.1 |}).
    destruct (IH (<[k := s1]> streams) s1) as (s' & Hs' & Hl & Hframe & Hheard).
    { apply lookup_insert_eq. }
    { exact Hnd. }
    destruct (run k items (<[k := s1]> streams)) as [streams2 calls2].
    simpl in *. exists s'. repeat split; auto.
    + intros k' Hne. rewrite Hframe by exact Hne.
      apply lookup_insert_ne. congruence.
    + intros fn Hin. rewrite heard_app, (Hheard fn Hin).
      rewrite (heard_broadcast fn _ (listeners s) Hnd Hin). reflexivity.
Qed.

Lemma NoDup_set_add fn l : NoDup l -> NoDup (set_add fn l).
Proof.
  intros H. unfold set_add. case_bool_decide; [exact H|].
  apply NoDup_app. repeat split; auto.
  - intros x Hx Hx'. apply list_elem_of_singleton in Hx'. subst. contradiction.
  - apply NoDup_singleton.
Qed.

(** C10.  [resetStream] on the web server's store leaves every other
    conversation's stream as it was; the stream of the conversation gets
    status running, no events and next id 1, and keeps its listeners.  So
    a listener subscribed before the reset is still subscribed after it
    and after any run of appends, and is called, in order, with every
    event appended after the reset (ids 1, 2, ...). *)
Theorem resetStream_keeps_listeners
    (streams : gmap string ChatStream) (k : string) (now : Z) :
  (forall k', k' <> k -> resetStream now k streams !! k' = streams !! k')
  /\ (exists s,
        resetStream now k streams !! k = Some s
        /\ status s = running /\ events s = [] /\ nextId s = 1
        /\ listeners s = match streams !! k with
                         | Some s0 => listeners s0
                         | None => []
                         end)
  /\ (forall s0 fn items,
        streams !! k = Some s0 -> NoDup (listeners s0) -> fn ∈ listeners s0 ->
        heard fn (run k items (resetStream now k streams)).2 = created 1 items
        /\ exists s', (run k items (resetStream now k streams)).1 !! k = Some s'
                      /\ fn ∈ listeners s'
                      /\ listeners s' = listeners s0)
  /\ (forall items k', k' <> k ->
        (run k items (resetStream now k streams)).1 !! k' = streams !! k').
Proof.
  assert (Hreset : exists s,
        resetStream now k streams !! k = Some s
        /\ status s = running /\ events s = [] /\ nextId s = 1
        /\ listeners s = match streams !! k with
                         | Some s0 => listeners s0
                         | None => []
                         end).
  { unfold resetStream, ensureStream.
    destruct (streams !! k) as [s0|] eqn:Hs; eexists;
      (split; [apply lookup_insert_eq|]); simpl; auto. }
  assert (Hframe : forall k', k' <> k ->
            resetStream now k streams !! k' = streams !! k').
  { intros k' Hne. unfold resetStream, ensureStream.
    destruct (streams !! k) as [s0|] eqn:Hs.
    - apply lookup_insert_ne. congruence.
    - rewrite !lookup_insert_ne by congruence. reflexivity. }
  split; [exact Hframe|]. split; [exact Hreset|]. split.
  - intros s0 fn items Hs Hnd Hin.
    destruct Hreset as (s & Hk & _ & _ & Hn & Hl). rewrite Hs in Hl.
    destruct (run_on_stream k items (resetStream now k streams) s Hk)
      as (s' & Hs' & Hl' & _ & Hheard).
    { rewrite Hl. exact Hnd. }
    split.
    + rewrite (Hheard fn) by (rewrite Hl; exact Hin). rewrite Hn. reflexivity.
    + exists s'. split; [exact Hs'|]. rewrite Hl', Hl. auto.
  - intros items k' Hne. rewrite run_frame by exact Hne. apply Hframe, Hne.
Qed.

Lemma resetStream_keeps_listeners_witness :
  heard 6 (run "s:c" [(10, "start", JNull); (11, "delta", JStr "hi")]
               (resetStream 9 "s:c" two_streams)).2
  = [ {| id := 1; event := "start"; data := JNull; ts := 10 |};
      {| id := 2; event := "delta"; data := JStr "hi"; ts := 11 |} ]
  /\ resetStream 9 "s:c" two_streams !! "s:d" = two_streams !! "s:d".
Proof.
  destruct (resetStream_keeps_listeners two_streams "s:c" 9)
    as (Hframe & _ & Hheard & _).
  split.
  - refine (proj1 (Hheard _ 6%nat _ eq_refl _ _)).
    + apply (bool_decide_unpack (NoDup [5; 6]%nat)). exact I.
    + apply (bool_decide_unpack (6%nat ∈ [5; 6]%nat)). exact I.
  - apply Hframe. discriminate.
Defined.

End ListenerFacts.

(* ------------------------------------------------------------------ *)
(** ** A cursor ahead of the remote buffer restarts from zero *)
(* ------------------------------------------------------------------ *)

Module CursorFacts.
Import Adapter Manager Bridge.
Import Sessiond (Daemon, StreamEvent, id, event, data, ts, Status, idle,
                 running, done, error, body_status, body_lastEventId).
Import CursorSpec.


Lemma getKnownCursor_mark k i cursors :
  getKnownCursor k (markKnownCursor k i cursors)
  = Z.max (getKnownCursor k cursors) i.
Proof.
  unfold markKnownCursor. case_bool_decide.
  - unfold getKnownCursor at 1. rewrite lookup_insert_eq. simpl. lia.
  - lia.
Qed.


Lemma mirror_cursor sid chatId now e acc :
  getKnownCursor (key sid chatId)
    (knownCursorByChat (mirror sid chatId now e acc).1.1)
  = Z.max (getKnownCursor (key sid chatId) (knownCursorByChat acc.1.1)) (id e).
Proof.
  destruct acc as [[sv flag] calls]. unfold mirror. cbn [fst snd].
  repeat match goal with
  | |- context [Store.appendStreamEvent ?a ?b ?c ?d ?s] =>
      destruct (Store.appendStreamEvent a b c d s) as [[? ?] ?]
  | |- context [if ?b then _ else _] => destruct b
  end; cbn [fst snd knownCursorByChat]; apply getKnownCursor_mark.
Qed.

Lemma mirror_all_cursor sid chatId now evs :
  forall acc,
    getKnownCursor (key sid chatId)
      (knownCursorByChat
         (fold_left (fun a e => mirror sid chatId now e a) evs acc).1.1)
    = max_id evs (getKnownCursor (key sid chatId) (knownCursorByChat acc.1.1)).
Proof.
  induction evs as [|e evs IH]; intros acc; [reflexivity|].
  simpl. rewrite IH, mirror_cursor. reflexivity.
Qed.



Lemma poll_unfold sid chatId now d cursors ps :
  poll sid chatId now d cursors ps
  = ((Sessiond.runtime sid chatId now
        (Sessiond.events_after sid chatId (Z.max 0 (after ps)) now d).1).1,
     (if bool_decide (body_lastEventId (polled_runtime sid chatId now d ps)
                      < after (consumed sid chatId now d cursors ps).1.1)
      then resetKnownCursor (key sid chatId)
             (consumed sid chatId now d cursors ps).1.2
      else (consumed sid chatId now d cursors ps).1.2),
     (consumed sid chatId now d cursors ps).2,
     let ps2 :=
       if bool_decide (body_lastEventId (polled_runtime sid chatId now d ps)
                       < after (consumed sid chatId now d cursors ps).1.1)
       then with_after 0 (consumed sid chatId now d cursors ps).1.1
       else (consumed sid chatId now d cursors ps).1.1 in
     if bool_decide (body_status (polled_runtime sid chatId now d ps) = done)
     then Finished (usage ps2) (rateLimits ps2)
     else if bool_decide (body_status (polled_runtime sid chatId now d ps) = error)
     then Failed (if bool_decide (lastTurnErrorMessage ps2 = "")
                  then "codex_error" else lastTurnErrorMessage ps2)
     else Again ps2).
Proof.
  unfold poll, consumed, polled_runtime.
  destruct (Sessiond.events_after sid chatId (Z.max 0 (after ps)) now d)
    as [d1 evs]. cbn [fst snd].
  destruct (fold_left _ evs (ps, cursors, [])) as [[ps1 cursors1] out].
  cbn [fst snd].
  destruct (Sessiond.runtime sid chatId now d1) as [d2 rt]. cbn [fst snd].
  destruct (bool_decide (body_lastEventId rt < after ps1)); reflexivity.
Qed.










End CursorFacts.

(* ------------------------------------------------------------------ *)
(** ** The heartbeat timer and the closure variables of a turn *)
(* ------------------------------------------------------------------ *)

Module HeartbeatFacts.
Import Adapter Manager Timeline.

Lemma heartbeat_is_progress q p s :
  match heartbeat q p s with
  | raw msg => isProgressMsg msg
  | _ => false
  end = true.
Proof. reflexivity. Qed.


Lemma emit_ctx now e ctx :
  emit now e ctx = (if is_activity e then touch now ctx else ctx, [e]).
Proof.
  unfold emit, is_activity. destruct e as [m|req|msg]; try reflexivity.
  destruct (isProgressMsg msg); reflexivity.
Qed.











End HeartbeatFacts.

(* ------------------------------------------------------------------ *)
(** ** Path segments and allowed roots *)
(* ------------------------------------------------------------------ *)

Module PathFacts.
Import Paths PathSpec.

Lemma is_underscore_spec a : is_underscore a = true <-> a = "_"%char.
Proof.
  unfold is_underscore. rewrite N.eqb_eq. split.
  - intros H. rewrite <- (Ascii.ascii_N_embedding a), H. reflexivity.
  - intros ->. reflexivity.
Qed.

Lemma underscore_safe a : is_underscore a = true -> safe_char a = true.
Proof. intros H. apply is_underscore_spec in H. subst. reflexivity. Qed.

Lemma squash_all_safe b s : all_safe (squash b s) = true.
Proof.
  revert b. induction s as [|a s IH]; intros b; simpl; [reflexivity|].
  destruct (safe_char a) eqn:Ha; simpl.
  - rewrite Ha. apply IH.
  - destruct b; simpl; apply IH.
Qed.

Lemma strip_leading_all_safe s :
  all_safe s = true -> all_safe (strip_leading s) = true.
Proof.
  induction s as [|a s IH]; simpl; [reflexivity|]. intros H.
  apply andb_true_iff in H as [Ha Hs].
  destruct (is_underscore a); [apply IH, Hs|]. simpl. rewrite Ha. exact Hs.
Qed.

Lemma strip_trailing_all_safe s :
  all_safe s = true -> all_safe (strip_trailing s) = true.
Proof.
  induction s as [|a s IH]; simpl; [reflexivity|]. intros H.
  apply andb_true_iff in H as [Ha Hs]. specialize (IH Hs).
  destruct (strip_trailing s) as [|b r].
  - destruct (is_underscore a); simpl; [reflexivity|]. rewrite Ha. reflexivity.
  - simpl in *. rewrite Ha. exact IH.
Qed.

Lemma strip_leading_first s :
  first_char (strip_leading s) <> Some "_"%char.
Proof.
  induction s as [|a s IH]; simpl; [discriminate|].
  destruct (is_underscore a) eqn:Ha; [exact IH|]. simpl. intros [= ->].
  discriminate Ha.
Qed.

Lemma strip_trailing_first s :
  first_char s <> Some "_"%char ->
  first_char (strip_trailing s) <> Some "_"%char.
Proof.
  destruct s as [|a s]; simpl; [discriminate|]. intros H.
  destruct (strip_trailing s).
  - destruct (is_underscore a); simpl; [discriminate | exact H].
  - exact H.
Qed.

Lemma strip_trailing_last s :
  last_char (strip_trailing s) <> Some "_"%char.
Proof.
  induction s as [|a s IH]; simpl; [discriminate|].
  destruct (strip_trailing s) as [|b r] eqn:Hs.
  - destruct (is_underscore a) eqn:Ha; simpl; [discriminate|].
    intros [= ->]. discriminate Ha.
  - exact IH.
Qed.

Lemma squash_fixed s : all_safe s = true -> squash false s = s.
Proof.
  induction s as [|a s IH]; simpl; [reflexivity|]. intros H.
  apply andb_true_iff in H as [Ha Hs]. rewrite Ha, (IH Hs). reflexivity.
Qed.

Lemma strip_leading_fixed s :
  first_char s <> Some "_"%char -> strip_leading s = s.
Proof.
  destruct s as [|a s]; simpl; [reflexivity|]. intros H.
  destruct (is_underscore a) eqn:Ha; [|reflexivity].
  apply is_underscore_spec in Ha. subst. contradiction.
Qed.

Lemma strip_trailing_fixed s :
  last_char s <> Some "_"%char -> strip_trailing s = s.
Proof.
  induction s as [|a s IH]; simpl; [reflexivity|]. intros H.
  destruct s as [|b r].
  - simpl. destruct (is_underscore a) eqn:Ha; [|reflexivity].
    apply is_underscore_spec in Ha. subst. contradiction.
  - rewrite (IH H). reflexivity.
Qed.

Lemma clean_fixed s fallback : clean s -> toSafePathSegment s fallback = s.
Proof.
  intros (Hne & Hsafe & Hfirst & Hlast). unfold toSafePathSegment.
  rewrite (squash_fixed _ Hsafe), (strip_leading_fixed _ Hfirst),
    (strip_trailing_fixed _ Hlast).
  rewrite bool_decide_eq_false_2 by exact Hne. reflexivity.
Qed.

Lemma toSafePathSegment_is_clean input fallback :
  clean fallback -> clean (toSafePathSegment input fallback).
Proof.
  intros Hfb. unfold toSafePathSegment. case_bool_decide as Hempty.
  - exact Hfb.
  - split; [exact Hempty|]. split.
    + apply strip_trailing_all_safe, strip_leading_all_safe, squash_all_safe.
    + split.
      * apply strip_trailing_first, strip_leading_first.
      * apply strip_trailing_last.
Qed.

(** X1.  With a fallback that is itself a plain segment (as ['sid'] and
    ['chat'] are), [toSafePathSegment] always returns a segment that is
    not empty, holds only characters of [[a-zA-Z0-9._-]] (so no path
    separator) and neither starts nor ends with an underscore; such a
    segment it returns unchanged, so applying it twice is the same as
    applying it once. *)
Theorem toSafePathSegment_clean (input fallback : string) :
  clean fallback ->
  clean (toSafePathSegment input fallback)
  /\ (clean input -> toSafePathSegment input fallback = input)
  /\ toSafePathSegment (toSafePathSegment input fallback) fallback
     = toSafePathSegment input fallback.
Proof.
  intros Hfb. split; [apply toSafePathSegment_is_clean, Hfb|]. split.
  - intros Hin. apply clean_fixed, Hin.
  - apply clean_fixed, toSafePathSegment_is_clean, Hfb.
Qed.

Lemma toSafePathSegment_clean_witness :
  clean "chat"
  /\ toSafePathSegment "../a b//c__" "chat" = ".._a_b_c"
  /\ toSafePathSegment "///" "chat" = "chat"
  /\ clean (toSafePathSegment "../a b//c__" "chat").
Proof.
  assert (clean "chat") as Hfb.
  { repeat split; try discriminate; reflexivity. }
  split; [exact Hfb|]. split; [reflexivity|]. split; [reflexivity|].
  exact (proj1 (toSafePathSegment_clean "../a b//c__" "chat" Hfb)).
Defined.

Section Separator.
Variable sep : ascii.

Lemma prefix_app p t : String.prefix p (p +:+ t) = true.
Proof.
  induction p as [|a p IH]; simpl; [destruct t; reflexivity|].
  destruct (Ascii.ascii_dec a a) as [_|N]; [exact IH | contradiction].
Qed.

Lemma prefix_split p s :
  String.prefix p s = true -> exists t, s = p +:+ t.
Proof.
  revert s. induction p as [|a p IH]; intros s H.
  - exists s. reflexivity.
  - destruct s as [|b s]; simpl in H; [discriminate|].
    destruct (Ascii.ascii_dec a b) as [->|_]; [|discriminate].
    destruct (IH s H) as [t ->]. exists t. reflexivity.
Qed.

Lemma within_iff real root :
  isWithinRoot sep real root = true
  <-> real = root \/ exists t, real = with_sep sep root +:+ t.
Proof.
  unfold isWithinRoot, with_sep. case_bool_decide as Heq.
  - split; auto.
  - split.
    + intros H. right. apply prefix_split, H.
    + intros [H|[t ->]]; [contradiction | apply prefix_app].
Qed.

Lemma string_app_length (a b : string) :
  String.length (a +:+ b) = (String.length a + String.length b)%nat.
Proof.
  induction a as [|x a IH]; [reflexivity|].
  rewrite FingerprintFacts.append_cons. simpl. rewrite IH. reflexivity.
Qed.

(** X2.  [isWithinRoot] holds of a root itself, is transitive, and does
    not mistake a sibling whose name merely starts with the name of the
    root for something inside it: below a root that does not end with the
    separator, a path made of the root and more characters is inside
    exactly when the first of these characters is the separator. *)
Theorem isWithinRoot_is_containment :
  (forall p, isWithinRoot sep p p = true)
  /\ (forall a b c,
        isWithinRoot sep a b = true -> isWithinRoot sep b c = true ->
        isWithinRoot sep a c = true)
  /\ (forall root x tail,
        endsWith_sep sep root = false ->
        isWithinRoot sep (root +:+ String x tail) root
        = bool_decide (x = sep)).
Proof.
  split; [|split].
  - intros p. unfold isWithinRoot.
    rewrite bool_decide_eq_true_2 by reflexivity. reflexivity.
  - intros a b c Hab Hbc. apply within_iff in Hab, Hbc. apply within_iff.
    destruct Hab as [->|[t1 ->]]; [exact Hbc|].
    destruct Hbc as [->|[t2 ->]]; [right; exists t1; reflexivity|].
    right. unfold with_sep at 1.
    destruct (endsWith_sep sep (with_sep sep c +:+ t2)).
    + exists (t2 +:+ t1). apply FingerprintFacts.append_assoc.
    + exists (t2 +:+ String sep "" +:+ t1).
      rewrite !FingerprintFacts.append_assoc. reflexivity.
  - intros root x tail Hend. unfold isWithinRoot. rewrite Hend.
    rewrite bool_decide_eq_false_2.
    2:{ intros H. apply (f_equal String.length) in H.
        rewrite string_app_length in H. simpl in H. lia. }
    case_bool_decide as Hx.
    + subst x.
      replace (root +:+ String sep tail)
        with ((root +:+ String sep "") +:+ tail)
        by (rewrite FingerprintFacts.append_assoc; reflexivity).
      apply prefix_app.
    + apply not_true_is_false. intros H. apply prefix_split in H as [t H].
      rewrite FingerprintFacts.append_assoc in H.
      apply FingerprintFacts.append_prefix_inj in H.
      rewrite FingerprintFacts.append_cons in H.
      injection H as -> _. contradiction.
Qed.

End Separator.

End PathFacts.

(* ------------------------------------------------------------------ *)
(** ** Maps in insertion order and the stable sort *)
(* ------------------------------------------------------------------ *)

Module JsMapFacts.
Import StoreSpec.

Lemma jsmap_get_set_eq {A} k (v : A) m :
  JsMap.get k (JsMap.set k v m) = Some v.
Proof.
  induction m as [|[k' v'] m IH]; simpl.
  - rewrite bool_decide_eq_true_2 by reflexivity. reflexivity.
  - case_bool_decide as Hk; simpl.
    + rewrite bool_decide_eq_true_2 by reflexivity. reflexivity.
    + rewrite bool_decide_eq_false_2 by exact Hk. exact IH.
Qed.

Lemma jsmap_get_set_ne {A} k k' (v : A) m :
  k <> k' -> JsMap.get k (JsMap.set k' v m) = JsMap.get k m.
Proof.
  intros Hne. induction m as [|[k0 v0] m IH]; simpl.
  - rewrite bool_decide_eq_false_2 by congruence. reflexivity.
  - case_bool_decide as Hk; simpl.
    + subst k0. rewrite !bool_decide_eq_false_2 by congruence. reflexivity.
    + case_bool_decide; [reflexivity | exact IH].
Qed.

Lemma jsmap_get_delete_eq {A} k (m : list (string * A)) :
  JsMap.get k (JsMap.delete k m) = None.
Proof.
  induction m as [|[k' v'] m IH]; simpl; [reflexivity|].
  case_bool_decide as Hk; [exact IH|]. simpl.
  rewrite bool_decide_eq_false_2 by exact Hk. exact IH.
Qed.

Lemma jsmap_get_delete_ne {A} k k' (m : list (string * A)) :
  k <> k' -> JsMap.get k (JsMap.delete k' m) = JsMap.get k m.
Proof.
  intros Hne. induction m as [|[k0 v0] m IH]; simpl; [reflexivity|].
  case_bool_decide as Hk; simpl.
  - subst k0. rewrite bool_decide_eq_false_2 by congruence. exact IH.
  - case_bool_decide; [reflexivity | exact IH].
Qed.

Lemma jsmap_has_get {A} k (m : list (string * A)) :
  JsMap.has k m = true <-> is_Some (JsMap.get k m).
Proof.
  unfold JsMap.has. destruct (JsMap.get k m); split; intros H;
    try reflexivity; try discriminate; eauto.
  destruct H as [? H]. discriminate H.
Qed.

Lemma jsmap_set_keys_known {A} k (v v0 : A) m :
  JsMap.get k m = Some v0 -> (JsMap.set k v m).*1 = m.*1.
Proof.
  induction m as [|[k' v'] m IH]; simpl; [discriminate|].
  case_bool_decide as Hk; simpl; intros H.
  - subst k'. reflexivity.
  - f_equal. exact (IH H).
Qed.

Lemma jsmap_set_fresh {A} k (v : A) m :
  JsMap.get k m = None -> JsMap.set k v m = m ++ [(k, v)].
Proof.
  induction m as [|[k' v'] m IH]; simpl; [reflexivity|].
  case_bool_decide as Hk; [discriminate|]. intros H.
  rewrite (IH H). reflexivity.
Qed.

Section Sorting.
Context {A : Type} (key : A -> Z).

Lemma insert_desc_perm x l : JsMap.insert_desc key x l ≡ₚ x :: l.
Proof.
  induction l as [|y l IH]; simpl; [reflexivity|].
  destruct (key x <? key y); [|reflexivity].
  rewrite IH. apply Permutation_swap.
Qed.

Lemma sort_desc_perm l : JsMap.sort_desc key l ≡ₚ l.
Proof.
  induction l as [|x l IH]; simpl; [reflexivity|].
  rewrite insert_desc_perm, IH. reflexivity.
Qed.

Lemma insert_desc_descending x l :
  descending key l -> descending key (JsMap.insert_desc key x l).
Proof.
  induction l as [|y l IH]; simpl; [intros _; split; [constructor | exact I]|].
  intros [Hall Hd]. destruct (Z.ltb_spec (key x) (key y)) as [Hlt|Hge].
  - simpl. split; [|apply IH, Hd].
    rewrite insert_desc_perm. constructor; [lia | exact Hall].
  - simpl. split; [|split; assumption].
    constructor; [lia|].
    eapply Forall_impl; [exact Hall|]. simpl. intros z Hz. lia.
Qed.

Lemma sort_desc_descending l : descending key (JsMap.sort_desc key l).
Proof.
  induction l as [|x l IH]; simpl; [exact I|].
  apply insert_desc_descending, IH.
Qed.

Lemma insert_desc_stable x l k :
  filter (fun y => key y = k) (JsMap.insert_desc key x l)
  = filter (fun y => key y = k) (x :: l).
Proof.
  induction l as [|y l IH]; simpl; [reflexivity|].
  destruct (Z.ltb_spec (key x) (key y)) as [Hlt|Hge]; [|reflexivity].
  rewrite (filter_cons _ y), IH, !filter_cons.
  destruct (decide (key y = k)) as [Hy|Hy];
    destruct (decide (key x = k)) as [Hx|Hx]; try reflexivity.
  lia.
Qed.

Lemma sort_desc_stable l k :
  filter (fun y => key y = k) (JsMap.sort_desc key l)
  = filter (fun y => key y = k) l.
Proof.
  induction l as [|x l IH]; simpl; [reflexivity|].
  rewrite insert_desc_stable, !filter_cons, IH. reflexivity.
Qed.

End Sorting.

End JsMapFacts.

(* ------------------------------------------------------------------ *)
(** ** Sessions expire and are refreshed *)
(* ------------------------------------------------------------------ *)

Module SessionStoreFacts.
Import StoreData StoreSpec.

(** X3.  [getSession] hands out a
    session only while its expiry lies in the future.  [refreshSession]
    does nothing for a session that is unknown or has expired (it returns
    [null] and the store is as before, so an expired session is not
    revived); a live session it moves to expire [sessionTtlMs] after now,
    keeping everything else of it, and until then [getSession] finds
    it. *)
Theorem refreshSession_extends_live_sessions
    (id : string) (now : Z) (st : MemoryStore) :
  (forall s, getSession id now st = Some s ->
     sessions st !! id = Some s /\ now < s_expiresAt s)
  /\ (forall s, sessions st !! id = Some s -> s_expiresAt s <= now ->
        getSession id now st = None)
  /\ (getSession id now st = None -> refreshSession id now st = (st, None))
  /\ (forall s, getSession id now st = Some s ->
        refreshSession id now st
        = (with_sessions
             (<[id := set_expiresAt (now + sessionTtlMs st) s]> (sessions st))
             st,
           Some (set_expiresAt (now + sessionTtlMs st) s))
        /\ forall later, later < now + sessionTtlMs st ->
             getSession id later (refreshSession id now st).1
             = Some (set_expiresAt (now + sessionTtlMs st) s)).
Proof.
  split; [|split; [|split]].
  - intros s. unfold getSession.
    destruct (sessions st !! id) as [s0|]; [|discriminate].
    case_bool_decide as Hexp; [discriminate|]. intros [= ->].
    split; [reflexivity | lia].
  - intros s Hs Hexp. unfold getSession. rewrite Hs.
    rewrite bool_decide_eq_true_2 by exact Hexp. reflexivity.
  - intros Hnone. unfold refreshSession. rewrite Hnone. reflexivity.
  - intros s Hs. unfold refreshSession. rewrite Hs. split; [reflexivity|].
    intros later Hlater. unfold getSession. cbn [fst sessions with_sessions].
    rewrite lookup_insert_eq. cbn [s_expiresAt set_expiresAt].
    rewrite bool_decide_eq_false_2 by lia. reflexivity.
Qed.

(** X4.  With a positive time to live,
    the session [getOrCreateSessionWithId] returns is stored under the id
    and is live for [sessionTtlMs] from now on, also when the stored one
    had expired: then it is that session again, with its creation time
    and active chat, and with the persistence flag the caller gave or,
    without one, the flag it had.  An unknown id gets a new session
    created now.  No other session and no chat is touched. *)
Theorem getOrCreateSessionWithId_is_live
    (id : string) (persistent : option bool) (now : Z) (st : MemoryStore) :
  0 < sessionTtlMs st ->
  let r := getOrCreateSessionWithId id persistent now st in
  getSession id now r.1 = Some r.2
  /\ s_expiresAt r.2 = now + sessionTtlMs st
  /\ (forall old, sessions st !! id = Some old ->
        s_createdAt r.2 = s_createdAt old
        /\ activeChatId r.2 = activeChatId old
        /\ createdBySessionId r.2 = createdBySessionId old
        /\ isPersistent r.2
           = match persistent with
             | Some b => Some b
             | None => isPersistent old
             end)
  /\ (sessions st !! id = None ->
        s_id r.2 = id /\ s_createdAt r.2 = now /\ activeChatId r.2 = None
        /\ isPersistent r.2 = persistent)
  /\ (forall id', id' <> id -> sessions r.1 !! id' = sessions st !! id')
  /\ chatsBySession r.1 = chatsBySession st
  /\ credentials r.1 = credentials st.
Proof.
  intros Httl. unfold getOrCreateSessionWithId, getSession, resolveExpiresAt.
  destruct (sessions st !! id) as [old|] eqn:Hold; cbn zeta.
  - destruct persistent as [b|]; cbn [fst snd sessions with_sessions];
      rewrite lookup_insert_eq; cbn;
      (rewrite bool_decide_eq_false_2 by lia);
      (repeat split; auto; try discriminate; try congruence);
      try (intros id' Hne; apply lookup_insert_ne; congruence).
  - cbn [fst snd sessions with_sessions]. rewrite lookup_insert_eq. cbn.
    rewrite bool_decide_eq_false_2 by lia.
    repeat split; auto; try discriminate.
    intros id' Hne. apply lookup_insert_ne. congruence.
Qed.

Lemma getOrCreateSessionWithId_is_live_witness :
  0 < 1000
  /\ getSession "totp" 5000
       {| sessionTtlMs := 1000;
          sessions :=
            {[ "totp" := {| s_id := "totp"; s_createdAt := 10;
                            s_expiresAt := 1010; activeChatId := Some "c1";
                            createdBySessionId := None;
                            createdByCredentialId := None;
                            isPersistent := Some true |} ]};
          chatsBySession := ∅; terminalSessionsBySid := ∅;
          streamsByChatKey := ∅; credentials := ∅;
          credentialsByOwner := ∅; credentialById := ∅ |} = None
  /\ s_expiresAt
       (getOrCreateSessionWithId "totp" None 5000
          {| sessionTtlMs := 1000;
             sessions :=
               {[ "totp" := {| s_id := "totp"; s_createdAt := 10;
                               s_expiresAt := 1010; activeChatId := Some "c1";
                               createdBySessionId := None;
                               createdByCredentialId := None;
                               isPersistent := Some true |} ]};
             chatsBySession := ∅; terminalSessionsBySid := ∅;
             streamsByChatKey := ∅; credentials := ∅;
             credentialsByOwner := ∅; credentialById := ∅ |}).2 = 6000.
Proof.
  split; [lia|]. split; [reflexivity|].
  refine (proj1 (proj2 (getOrCreateSessionWithId_is_live "totp" None 5000
                          {| sessionTtlMs := 1000; sessions := _;
                             chatsBySession := ∅; terminalSessionsBySid := ∅;
                             streamsByChatKey := ∅; credentials := ∅;
                             credentialsByOwner := ∅; credentialById := ∅ |}
                          _))).
  simpl. lia.
Defined.

End SessionStoreFacts.

(* ------------------------------------------------------------------ *)
(** ** Terminal records *)
(* ------------------------------------------------------------------ *)

Module TerminalFacts.
Import StoreData StoreSpec.

Lemma removelast_take {A} (l : list A) :
  removelast l = take (length l - 1) l.
Proof.
  induction l as [|x l IH]; [reflexivity|].
  destruct l as [|y l]; [reflexivity|].
  change (removelast (x :: y :: l)) with (x :: removelast (y :: l)).
  rewrite IH. simpl. rewrite Nat.sub_0_r. reflexivity.
Qed.

Lemma pop_down_take fuel l :
  (length l <= fuel)%nat -> pop_down fuel l = take 20 l.
Proof.
  revert l. induction fuel as [|fuel IH]; intros l Hfuel.
  - destruct l; [reflexivity | simpl in Hfuel; lia].
  - simpl. destruct (Nat.ltb_spec 20 (length l)) as [Hlong|Hshort].
    + rewrite IH, removelast_take.
      * rewrite take_take. f_equal. lia.
      * rewrite removelast_take, length_take. lia.
    + rewrite take_ge by lia. reflexivity.
Qed.

(** X5.  [createTerminalSession] puts the
    new record, marked running, in front of the terminals of the session
    and pops from the end until at most 20 are left: the list is the
    first 20 of the new record followed by the old list, so it never
    grows beyond 20, a full list loses its oldest record, and the
    terminals of other sessions are untouched. *)
Theorem terminal_history_is_bounded
    (sid cwd_ fresh : string) (now : Z) (st : MemoryStore) :
  let r := createTerminalSession sid cwd_ fresh now st in
  listTerminalSessions sid r.1 = take 20 (r.2 :: listTerminalSessions sid st)
  /\ (length (listTerminalSessions sid r.1) <= 20)%nat
  /\ head (listTerminalSessions sid r.1) = Some r.2
  /\ t_status r.2 = t_running
  /\ t_id r.2 = "terminal_" +:+ fresh
  /\ (length (listTerminalSessions sid st) = 20%nat ->
      listTerminalSessions sid r.1
      = r.2 :: take 19 (listTerminalSessions sid st))
  /\ (forall sid', sid' <> sid ->
        listTerminalSessions sid' r.1 = listTerminalSessions sid' st).
Proof.
  cbn zeta. unfold createTerminalSession, listTerminalSessions.
  cbn [fst snd terminalSessionsBySid with_terminals].
  set (old := default [] (terminalSessionsBySid st !! sid)).
  rewrite lookup_insert_eq. rewrite pop_down_take by lia. simpl.
  split; [reflexivity|]. split; [rewrite length_take; lia|].
  split; [reflexivity|]. split; [reflexivity|]. split; [reflexivity|].
  split; [reflexivity|].
  intros sid' Hne. rewrite lookup_insert_ne by congruence. reflexivity.
Qed.

Lemma stop_first_spec terminalId l l1 :
  stop_first terminalId l = Some l1 ->
  exists i item,
    l !! i = Some item /\ t_id item = terminalId
    /\ t_status item = t_running
    /\ l1 = <[i := {| t_id := t_id item; t_createdAt := t_createdAt item;
                      t_cwd := t_cwd item; t_status := t_stopped |}]> l
    /\ (forall j other, (j < i)%nat -> l !! j = Some other ->
                        t_id other <> terminalId).
Proof.
  revert l1. induction l as [|x l IH]; intros l1; simpl; [discriminate|].
  case_bool_decide as Hid.
  - destruct (t_status x) eqn:Hst; [|discriminate]. intros [= <-].
    exists 0%nat, x. repeat split; auto. intros j other Hj. lia.
  - destruct (stop_first terminalId l) as [l2|] eqn:Hs; [|discriminate].
    simpl. intros [= <-].
    destruct (IH l2 eq_refl) as (i & item & Hi & Hitem & Hrun & -> & Hbefore).
    exists (S i), item. repeat split; auto.
    intros [|j] other Hj; simpl.
    + intros [= <-]. exact Hid.
    + apply Hbefore. lia.
Qed.

Lemma stop_first_again terminalId l l1 :
  stop_first terminalId l = Some l1 -> stop_first terminalId l1 = None.
Proof.
  revert l1. induction l as [|x l IH]; intros l1; simpl; [discriminate|].
  case_bool_decide as Hid.
  - destruct (t_status x); [|discriminate]. intros [= <-]. simpl.
    rewrite bool_decide_eq_true_2 by exact Hid. reflexivity.
  - destruct (stop_first terminalId l) as [l2|] eqn:Hs; [|discriminate].
    simpl. intros [= <-]. simpl.
    rewrite bool_decide_eq_false_2 by exact Hid.
    rewrite (IH l2 eq_refl). reflexivity.
Qed.

(** The index [findIndex] returns and the test on the record there. *)
Lemma stop_first_answer terminalId l :
  match stop_first terminalId l with Some _ => true | None => false end
  = match list_find (fun item => t_id item = terminalId) l with
    | Some (_, item) =>
        match t_status item with t_running => true | t_stopped => false end
    | None => false
    end.
Proof.
  induction l as [|x l IH]; [reflexivity|].
  cbn [stop_first list_find].
  destruct (decide (t_id x = terminalId)) as [Hid|Hid].
  - rewrite bool_decide_eq_true_2 by exact Hid.
    destruct (t_status x); reflexivity.
  - rewrite bool_decide_eq_false_2 by exact Hid.
    destruct (list_find _ l) as [[i item]|];
      destruct (stop_first terminalId l); simpl in *;
      try destruct (t_status item); congruence.
Qed.

(** X6.  [setTerminalSessionStopped] answers [true]
    exactly when the first record of the session with that id is running
    (and [false] when that record is stopped or no record has the id); it
    then marks that one record stopped and changes nothing else, and
    asking again answers [false].  When it answers [false] the store is
    unchanged. *)
Theorem terminal_stops_once (sid terminalId : string) (st : MemoryStore) :
  let r := setTerminalSessionStopped sid terminalId st in
  r.2 = match list_find (fun item => t_id item = terminalId)
                (listTerminalSessions sid st) with
        | Some (_, item) =>
            match t_status item with
            | t_running => true
            | t_stopped => false
            end
        | None => false
        end
  /\ (r.2 = true ->
      (exists i item,
         listTerminalSessions sid st !! i = Some item
         /\ t_id item = terminalId /\ t_status item = t_running
         /\ listTerminalSessions sid r.1
            = <[i := {| t_id := t_id item; t_createdAt := t_createdAt item;
                        t_cwd := t_cwd item; t_status := t_stopped |}]>
                (listTerminalSessions sid st)
         /\ (forall j other, (j < i)%nat ->
               listTerminalSessions sid st !! j = Some other ->
               t_id other <> terminalId))
      /\ (forall sid', sid' <> sid ->
            listTerminalSessions sid' r.1 = listTerminalSessions sid' st)
      /\ setTerminalSessionStopped sid terminalId r.1 = (r.1, false))
  /\ (r.2 = false -> r.1 = st).
Proof.
  cbn zeta. unfold setTerminalSessionStopped, listTerminalSessions.
  destruct (terminalSessionsBySid st !! sid) as [l|] eqn:Hl;
    [|split; [reflexivity | split; [discriminate | reflexivity]]].
  pose proof (stop_first_answer terminalId l) as Hans.
  destruct (stop_first terminalId l) as [l1|] eqn:Hs;
    [|split; [exact Hans | split; [discriminate | reflexivity]]].
  cbn [fst snd terminalSessionsBySid with_terminals default].
  split; [exact Hans|].
  rewrite lookup_insert_eq. simpl.
  split; [|discriminate]. intros _. split; [|split].
  - apply stop_first_spec, Hs.
  - intros sid' Hne. rewrite lookup_insert_ne by congruence. reflexivity.
  - rewrite (stop_first_again _ _ _ Hs). reflexivity.
Qed.

End TerminalFacts.

(* ------------------------------------------------------------------ *)
(** ** Credentials: issue, log in, revoke *)
(* ------------------------------------------------------------------ *)

Module CredentialFacts.
Import StoreData StoreSpec.

Section Hashing.
Variable sha256Hex : string -> string.

Lemma draw_token_spec draws creds t :
  draw_token sha256Hex draws creds = Some t ->
  t ∈ draws /\ creds !! sha256Hex t = None.
Proof.
  induction draws as [|d draws IH]; simpl; [discriminate|].
  destruct (creds !! sha256Hex d) eqn:Hd.
  - intros H. destruct (IH H) as [Hin Hnew]. split; [right; exact Hin | exact Hnew].
  - intros [= <-]. split; [left | exact Hd].
Qed.

Lemma draw_token_total draws creds :
  (exists t, t ∈ draws /\ creds !! sha256Hex t = None) ->
  is_Some (draw_token sha256Hex draws creds).
Proof.
  intros (t & Hin & Hnew). induction draws as [|d draws IH]; simpl.
  - inversion Hin.
  - destruct (creds !! sha256Hex d) eqn:Hd; [|eauto].
    apply IH. apply elem_of_cons in Hin as [->|Hin]; [congruence | exact Hin].
Qed.

Lemma createCredential_index_ok sid label draws fresh now st st1 issued :
  index_ok st ->
  createCredential sha256Hex sid label draws fresh now st = Some (st1, issued) ->
  index_ok st1.
Proof.
  intros Hok. unfold createCredential.
  destruct (draw_token sha256Hex draws (credentials st)) as [tok|] eqn:Hdraw;
    [|discriminate].
  apply draw_token_spec in Hdraw as [_ Hnew]. intros [= <- _].
  intros id h. cbn. intros Hid Hne.
  destruct (decide (id = fresh)) as [->|Hfresh].
  - rewrite lookup_insert_eq in Hid. injection Hid as <-.
    rewrite lookup_insert_eq. eexists. split; [reflexivity|]. split; reflexivity.
  - rewrite lookup_insert_ne in Hid by congruence.
    destruct (Hok id h Hid Hne) as (rec & Hrec & Hcid & Hhash).
    exists rec. rewrite lookup_insert_ne by congruence. auto.
Qed.

Lemma consumeCredential_index_ok tok fresh now st :
  index_ok st -> index_ok (consumeCredential sha256Hex tok fresh now st).1.
Proof.
  intros Hok. unfold consumeCredential.
  destruct (credentials st !! sha256Hex tok) as [rec|] eqn:Hrec; [|exact Hok].
  destruct (truthy_num (revokedAt rec)); [exact Hok|].
  intros id h. cbn. intros Hid Hne.
  destruct (Hok id h Hid Hne) as (rec0 & Hrec0 & Hcid & Hhash).
  destruct (decide (h = sha256Hex tok)) as [->|Hh].
  - rewrite lookup_insert_eq. eexists. split; [reflexivity|].
    assert (rec0 = rec) as -> by congruence. cbn. auto.
  - rewrite lookup_insert_ne by congruence. eauto.
Qed.

End Hashing.

Lemma getCredentialById_Some credentialId st rec :
  getCredentialById credentialId st = Some rec ->
  exists h, credentialById st !! credentialId = Some h /\ h <> ""
            /\ credentials st !! h = Some rec.
Proof.
  unfold getCredentialById.
  destruct (credentialById st !! credentialId) as [h|]; [|discriminate].
  case_bool_decide as Hh; [discriminate|]. eauto.
Qed.

Lemma revokeCredential_index_ok sid credentialId now st :
  index_ok st -> index_ok (revokeCredential sid credentialId now st).1.
Proof.
  intros Hok. unfold revokeCredential.
  destruct (getCredentialById credentialId st) as [rec|] eqn:Hget; [|exact Hok].
  destruct (negb _); [exact Hok|].
  destruct (truthy_num (revokedAt rec)); [exact Hok|].
  apply getCredentialById_Some in Hget as (h1 & Hidx & Hne1 & Hrec).
  destruct (Hok _ _ Hidx Hne1) as (rec1 & Hrec1 & Hcid1 & Hhash1).
  assert (rec1 = rec) as -> by congruence.
  intros id h. cbn. intros Hid Hne.
  destruct (Hok id h Hid Hne) as (rec0 & Hrec0 & Hcid & Hhash).
  destruct (decide (h = tokenHash rec)) as [->|Hh].
  - rewrite lookup_insert_eq. eexists. split; [reflexivity|].
    assert (rec0 = rec) as -> by congruence. cbn. auto.
  - rewrite lookup_insert_ne by congruence. eauto.
Qed.

Lemma elem_of_jsmap_add x l : x ∈ JsMap.add x l.
Proof.
  unfold JsMap.add. case_bool_decide; [assumption|].
  apply elem_of_app. right. left.
Qed.

Lemma not_elem_of_jsmap_remove x l : x ∉ JsMap.remove x l.
Proof.
  unfold JsMap.remove. rewrite list_elem_of_filter. intros [H _]. congruence.
Qed.

Section Lifecycle.
Variable sha256Hex : string -> string.

(** X7.  When one of the random tokens drawn
    has a hash that is not in use, [createCredential] returns the first
    such token; no credential that existed is changed and no session is
    created.  Presenting that token to [consumeCredential] succeeds: it
    creates a session, live for [sessionTtlMs], that names the issuing
    session and the credential, and it counts the use.  A token whose
    hash is unknown is refused as ['invalid_credential'] and leaves the
    store as it was. *)
Theorem issued_credential_logs_in
    (sid : string) (label : option string) (draws : list string)
    (fresh : string) (now : Z) (st : MemoryStore) :
  (exists t, t ∈ draws /\ credentials st !! sha256Hex t = None) ->
  (exists st1 issued,
     createCredential sha256Hex sid label draws fresh now st
     = Some (st1, issued)
     /\ token issued ∈ draws
     /\ credentials st !! sha256Hex (token issued) = None
     /\ i_id issued = fresh
     /\ (forall h, h <> sha256Hex (token issued) ->
           credentials st1 !! h = credentials st !! h)
     /\ sessions st1 = sessions st
     /\ forall fresh' now',
          exists st2 session rec,
            consumeCredential sha256Hex (token issued) fresh' now' st1
            = (st2, consumed_ok session fresh)
            /\ sessions st2 !! fresh' = Some session
            /\ s_id session = fresh'
            /\ createdBySessionId session = Some sid
            /\ createdByCredentialId session = Some fresh
            /\ s_expiresAt session = now' + sessionTtlMs st
            /\ credentials st2 !! sha256Hex (token issued) = Some rec
            /\ usedCount rec = Some 1
            /\ lastUsedAt rec = Some now')
  /\ (forall tok fresh' now',
        credentials st !! sha256Hex tok = None ->
        consumeCredential sha256Hex tok fresh' now' st
        = (st, consumed_error "invalid_credential")).
Proof.
  intros Hdraws. split.
  - destruct (draw_token_total sha256Hex draws (credentials st) Hdraws)
      as [tok Hdraw].
    pose proof (draw_token_spec _ _ _ _ Hdraw) as [Hin Hnew].
    unfold createCredential. rewrite Hdraw.
    eexists _, _. split; [reflexivity|]. cbn.
    split; [exact Hin|]. split; [exact Hnew|]. split; [reflexivity|].
    split; [intros h Hh; apply lookup_insert_ne; congruence|].
    split; [reflexivity|].
    intros fresh' now'. unfold consumeCredential. cbn.
    rewrite lookup_insert_eq. cbn.
    eexists _, _, _. split; [reflexivity|]. cbn.
    rewrite !lookup_insert_eq. repeat split; reflexivity.
  - intros tok fresh' now' Hnone. unfold consumeCredential.
    rewrite Hnone. reflexivity.
Qed.

Lemma listed_ids sid st p :
  index_ok st ->
  p ∈ listCredentialsForSession sid st ->
  exists ids, credentialsByOwner st !! sid = Some ids /\ pc_id p ∈ ids.
Proof.
  intros Hok. unfold listCredentialsForSession.
  destruct (credentialsByOwner st !! sid) as [ids|]; [|intros H; inversion H].
  rewrite JsMapFacts.sort_desc_perm. intros Hin. exists ids. split; [reflexivity|].
  apply list_elem_of_omap in Hin as (id & Hid & Hsome).
  destruct (getCredentialById id st) as [rec|] eqn:Hget; [|discriminate].
  destruct (negb _); [discriminate|].
  destruct (truthy_num _); [discriminate|]. injection Hsome as <-.
  apply getCredentialById_Some in Hget as (h & Hidx & Hne & Hrec).
  destruct (Hok _ _ Hidx Hne) as (rec' & Hrec' & Hcid & _).
  assert (rec' = rec) as -> by congruence. cbn. rewrite Hcid. exact Hid.
Qed.

(** X8.  A credential just issued is
    listed for its session.  Only that session can revoke it: for any
    other session [revokeCredential] answers [false] and changes nothing.
    Once revoked (at a clock value other than 0), the credential is
    refused by [consumeCredential] as ['revoked_credential'] without any
    change to the store, it is no longer listed, and revoking it again
    answers [false]. *)
Theorem revoked_credential_is_refused
    (sid : string) (label : option string) (draws : list string)
    (fresh : string) (now now1 : Z) (st st1 : MemoryStore)
    (issued : IssuedCredential) :
  index_ok st ->
  sha256Hex (token issued) <> "" ->
  now1 <> 0 ->
  createCredential sha256Hex sid label draws fresh now st
  = Some (st1, issued) ->
  (exists p, p ∈ listCredentialsForSession sid st1 /\ pc_id p = fresh)
  /\ (forall other, other <> sid ->
        revokeCredential other fresh now1 st1 = (st1, false))
  /\ exists st2,
       revokeCredential sid fresh now1 st1 = (st2, true)
       /\ (forall fresh' now2,
             consumeCredential sha256Hex (token issued) fresh' now2 st2
             = (st2, consumed_error "revoked_credential"))
       /\ (forall now2, revokeCredential sid fresh now2 st2 = (st2, false))
       /\ (forall p, p ∈ listCredentialsForSession sid st2 ->
                     pc_id p <> fresh)
       /\ sessions st2 = sessions st1.
Proof.
  intros Hok Hhash Hnow Hcreate.
  pose proof (createCredential_index_ok _ _ _ _ _ _ _ _ _ Hok Hcreate) as Hok1.
  unfold createCredential in Hcreate.
  destruct (draw_token sha256Hex draws (credentials st)) as [tok|] eqn:Hdraw;
    [|discriminate].
  injection Hcreate as <- <-. cbn [token] in *.
  set (h := sha256Hex tok) in *.
  set (rec := {| c_id := fresh; tokenHash := h;
                 label := Manager.nonempty label;
                 c_createdBySessionId := sid; c_createdAt := now;
                 lastUsedAt := None; usedCount := Some 0;
                 revokedAt := None |}) in *.
  set (st1 := with_owners _ _) in *.
  assert (getCredentialById fresh st1 = Some rec) as Hget.
  { unfold getCredentialById. cbn. rewrite lookup_insert_eq.
    rewrite bool_decide_eq_false_2 by exact Hhash.
    apply lookup_insert_eq. }
  split; [|split].
  - exists (public rec). split; [|reflexivity].
    unfold listCredentialsForSession. cbn. unfold addCredentialOwner.
    rewrite lookup_insert_eq. rewrite JsMapFacts.sort_desc_perm.
    apply list_elem_of_omap. exists fresh. split; [apply elem_of_jsmap_add|].
    fold st1. rewrite Hget. cbn.
    rewrite bool_decide_eq_true_2 by reflexivity. reflexivity.
  - intros other Hother. unfold revokeCredential. rewrite Hget. cbn.
    rewrite bool_decide_eq_false_2 by congruence. reflexivity.
  - pose proof (revokeCredential_index_ok sid fresh now1 st1 Hok1) as Hok2.
    unfold revokeCredential in *. rewrite Hget in *. cbn in Hok2 |- *.
    rewrite bool_decide_eq_true_2 in Hok2 |- * by reflexivity.
    cbn in Hok2 |- *. eexists. split; [reflexivity|].
    assert ((now1 =? 0) = false) as Htruthy by (apply Z.eqb_neq, Hnow).
    split; [|split; [|split]].
    + intros fresh' now2. unfold consumeCredential. cbn. fold h.
      rewrite lookup_insert_eq. cbn. rewrite Htruthy. reflexivity.
    + intros now2. unfold getCredentialById. cbn. rewrite lookup_insert_eq.
      rewrite bool_decide_eq_false_2 by exact Hhash.
      rewrite lookup_insert_eq. cbn.
      rewrite bool_decide_eq_true_2 by reflexivity. cbn.
      rewrite Htruthy. reflexivity.
    + intros p Hp. apply (listed_ids _ _ _ Hok2) in Hp as (ids & Hids & Hin).
      cbn in Hids. unfold removeCredentialOwner, addCredentialOwner in Hids.
      rewrite lookup_insert_eq in Hids.
      intros Heq. rewrite Heq in Hin.
      destruct (JsMap.remove fresh _) as [|x l] eqn:Hrem.
      * rewrite lookup_delete_eq in Hids. discriminate.
      * rewrite lookup_insert_eq in Hids. injection Hids as <-.
        rewrite <- Hrem in Hin. exact (not_elem_of_jsmap_remove _ _ Hin).
    + reflexivity.
Qed.

(** X9.  The credential index of an empty
    store is sound, and issuing, consuming and revoking keep it sound:
    every id in the index with a hash points at a stored record that
    carries this id and this hash. *)
Theorem credential_index_is_kept :
  (forall ttl, index_ok (new_store ttl))
  /\ (forall sid label draws fresh now st st1 issued,
        index_ok st ->
        createCredential sha256Hex sid label draws fresh now st
        = Some (st1, issued) ->
        index_ok st1)
  /\ (forall tok fresh now st,
        index_ok st ->
        index_ok (consumeCredential sha256Hex tok fresh now st).1)
  /\ (forall sid credentialId now st,
        index_ok st ->
        index_ok (revokeCredential sid credentialId now st).1).
Proof.
  split; [|split; [|split]].
  - intros ttl id h Hid. cbn in Hid. rewrite lookup_empty in Hid. discriminate.
  - intros. eapply createCredential_index_ok; eassumption.
  - intros. apply consumeCredential_index_ok. assumption.
  - intros. apply revokeCredential_index_ok. assumption.
Qed.

End Lifecycle.

Lemma issued_credential_logs_in_witness :
  (exists t, t ∈ ["tok-a"; "tok-b"]
             /\ credentials (new_store 1000) !! demo_hash t = None)
  /\ (token <$> (snd <$> createCredential demo_hash "owner" (Some "laptop")
                           ["tok-a"; "tok-b"] "cred1" 50 (new_store 1000)))
     = Some "tok-a".
Proof.
  assert (exists t, t ∈ ["tok-a"; "tok-b"]
                    /\ credentials (new_store 1000) !! demo_hash t = None)
    as Hdraws.
  { exists "tok-a". split; [left | reflexivity]. }
  split; [exact Hdraws|].
  destruct (proj1 (issued_credential_logs_in demo_hash "owner"
                     (Some "laptop") ["tok-a"; "tok-b"] "cred1" 50
                     (new_store 1000) Hdraws))
    as (st1 & issued & Hcreate & _).
  reflexivity.
Defined.

Lemma revoked_credential_is_refused_witness :
  index_ok (new_store 1000)
  /\ (revokeCredential "owner" "cred1" 60 store_with_credential).2 = true
  /\ exists p, p ∈ listCredentialsForSession "owner" store_with_credential
               /\ pc_id p = "cred1".
Proof.
  assert (index_ok (new_store 1000)) as Hok.
  { intros id h Hid. cbn in Hid. rewrite lookup_empty in Hid. discriminate. }
  split; [exact Hok|]. split; [reflexivity|].
  refine (proj1 (revoked_credential_is_refused demo_hash
                   "owner" (Some "laptop") ["tok-a"] "cred1" 50 60
                   (new_store 1000) _ _ Hok _ _ eq_refl)).
  - discriminate.
  - lia.
Defined.

End CredentialFacts.

(* ------------------------------------------------------------------ *)
(** ** Chats, their messages and the active chat *)
(* ------------------------------------------------------------------ *)

Module ChatFacts.
Import StoreData StoreSpec.

Lemma chat_of_lookup sid chatId st :
  chat_of sid chatId st
  = match chatsBySession st !! sid with
    | Some m => JsMap.get chatId m
    | None => None
    end.
Proof.
  unfold chat_of, getChat, getChatsMapForSession.
  destruct (chatsBySession st !! sid); reflexivity.
Qed.

Lemma getChat_registers sid chatId st :
  (getChat sid chatId st).1
  = match chatsBySession st !! sid with
    | Some _ => st
    | None => with_chats (<[sid := []]> (chatsBySession st)) st
    end.
Proof.
  unfold getChat, getChatsMapForSession.
  destruct (chatsBySession st !! sid); reflexivity.
Qed.

Lemma getChat_found sid chatId st chat :
  chat_of sid chatId st = Some chat ->
  getChat sid chatId st = (st, Some chat).
Proof.
  rewrite chat_of_lookup. unfold getChat, getChatsMapForSession.
  destruct (chatsBySession st !! sid); [|discriminate].
  intros ->. reflexivity.
Qed.

Lemma getChat_keeps_chats sid chatId st sid' c' :
  chat_of sid' c' (getChat sid chatId st).1 = chat_of sid' c' st.
Proof.
  rewrite getChat_registers, !chat_of_lookup.
  destruct (chatsBySession st !! sid) eqn:Hs; [reflexivity|]. cbn.
  destruct (decide (sid' = sid)) as [->|Hne].
  - rewrite lookup_insert_eq, Hs. reflexivity.
  - rewrite lookup_insert_ne by congruence. reflexivity.
Qed.

Lemma chat_of_put_eq sid chatId c st :
  chat_of sid chatId (put_chat sid chatId c st) = Some c.
Proof.
  rewrite chat_of_lookup. unfold put_chat. cbn.
  rewrite lookup_insert_eq. apply JsMapFacts.jsmap_get_set_eq.
Qed.

Lemma chat_of_put_ne sid chatId c st sid' c' :
  (sid', c') <> (sid, chatId) ->
  chat_of sid' c' (put_chat sid chatId c st) = chat_of sid' c' st.
Proof.
  intros Hne. rewrite !chat_of_lookup. unfold put_chat. cbn.
  destruct (decide (sid' = sid)) as [->|Hsid].
  - rewrite lookup_insert_eq.
    rewrite JsMapFacts.jsmap_get_set_ne by congruence.
    destruct (chatsBySession st !! sid); reflexivity.
  - rewrite lookup_insert_ne by congruence. reflexivity.
Qed.

(** X10.  [deleteChat] answers [true] exactly when
    the chat exists.  Then the chat is gone, its stream buffer is gone,
    and the session no longer has it as active chat, while every other
    chat, stream and session, and the credentials, are as before.  When
    it answers [false] the store is unchanged. *)
Theorem deleteChat_cleans_up (sid chatId : string) (st : MemoryStore) :
  let r := deleteChat sid chatId st in
  r.2 = bool_decide (is_Some (chat_of sid chatId st))
  /\ (r.2 = false -> r.1 = st)
  /\ (r.2 = true ->
        chat_of sid chatId r.1 = None
        /\ streamsByChatKey r.1 !! Manager.key sid chatId = None
        /\ (forall s, sessions r.1 !! sid = Some s ->
              activeChatId s <> Some chatId)
        /\ (forall sid' c', (sid', c') <> (sid, chatId) ->
              chat_of sid' c' r.1 = chat_of sid' c' st)
        /\ (forall k, k <> Manager.key sid chatId ->
              streamsByChatKey r.1 !! k = streamsByChatKey st !! k)
        /\ (forall sid', sid' <> sid ->
              sessions r.1 !! sid' = sessions st !! sid')
        /\ credentials r.1 = credentials st).
Proof.
  cbn zeta. rewrite chat_of_lookup. unfold deleteChat.
  destruct (chatsBySession st !! sid) as [m|] eqn:Hm.
  2:{ split; [|split; [reflexivity | discriminate]].
      cbn [fst snd negb]. symmetry. apply bool_decide_eq_false_2.
      intros [? ?]; discriminate. }
  unfold JsMap.has. destruct (JsMap.get chatId m) as [chat|] eqn:Hget.
  2:{ split; [|split; [reflexivity | discriminate]].
      cbn [fst snd negb]. symmetry. apply bool_decide_eq_false_2.
      intros [? ?]; discriminate. }
  cbn [negb fst snd]. rewrite bool_decide_eq_true_2 by eauto.
  split; [reflexivity|]. split; [discriminate|]. intros _.
  split; [|split; [|split; [|split; [|split; [|split]]]]].
  - rewrite chat_of_lookup. cbn.
    destruct (JsMap.delete chatId m) eqn:Hdel.
    + rewrite lookup_delete_eq. reflexivity.
    + rewrite lookup_insert_eq, <- Hdel.
      apply JsMapFacts.jsmap_get_delete_eq.
  - cbn. apply lookup_delete_eq.
  - intros s. cbn. destruct (sessions st !! sid) as [s0|] eqn:Hs0.
    + case_bool_decide as Hact.
      * rewrite lookup_insert_eq. intros [= <-]. discriminate.
      * rewrite Hs0. intros [= <-]. exact Hact.
    + rewrite Hs0. discriminate.
  - intros sid' c' Hne. rewrite !chat_of_lookup. cbn.
    destruct (decide (sid' = sid)) as [->|Hsid].
    + rewrite Hm.
      assert (c' <> chatId) as Hc by congruence.
      rewrite <- (JsMapFacts.jsmap_get_delete_ne c' chatId m Hc).
      destruct (JsMap.delete chatId m) eqn:Hdel.
      * rewrite lookup_delete_eq. reflexivity.
      * rewrite lookup_insert_eq. reflexivity.
    + destruct (JsMap.delete chatId m).
      * rewrite lookup_delete_ne by congruence. reflexivity.
      * rewrite lookup_insert_ne by congruence. reflexivity.
  - intros k Hk. cbn. apply lookup_delete_ne. congruence.
  - intros sid' Hne. cbn. destruct (sessions st !! sid); [|reflexivity].
    case_bool_decide; [|reflexivity].
    apply lookup_insert_ne. congruence.
  - reflexivity.
Qed.

Lemma getSession_after_chats sid now st x :
  getSession sid now (with_chats x st) = getSession sid now st.
Proof. reflexivity. Qed.

Lemma setActiveChatId_answer sid c now st :
  (setActiveChatId sid c now st).2
  = bool_decide (is_Some (getSession sid now st)
                 /\ is_Some (chat_of sid c st)).
Proof.
  unfold setActiveChatId. rewrite chat_of_lookup.
  destruct (getSession sid now st) as [s|] eqn:Hs.
  2:{ cbn [fst snd]. symmetry. apply bool_decide_eq_false_2.
      intros [[? ?] _]. discriminate. }
  unfold getChatsMapForSession.
  destruct (chatsBySession st !! sid) as [m|] eqn:Hm.
  + unfold JsMap.has. destruct (JsMap.get c m) eqn:Hget; cbn [fst snd].
    * symmetry. apply bool_decide_eq_true_2. eauto.
    * symmetry. apply bool_decide_eq_false_2.
      intros [_ [? ?]]. discriminate.
  + cbn [fst snd JsMap.has JsMap.get]. symmetry.
    apply bool_decide_eq_false_2. intros [_ [? ?]]. discriminate.
Qed.

Lemma setActiveChatId_then_get sid c now st :
  (setActiveChatId sid c now st).2 = true -> c <> "" ->
  (getActiveChatId sid now (setActiveChatId sid c now st).1).2 = Some c.
Proof.
  unfold setActiveChatId.
  destruct (getSession sid now st) as [s|] eqn:Hs; [|discriminate].
  unfold getChatsMapForSession.
  destruct (chatsBySession st !! sid) as [m|] eqn:Hm; [|discriminate].
  destruct (JsMap.has c m) eqn:Hhas; [|discriminate].
  cbn. intros _ Hne. unfold getActiveChatId, getSession in *. cbn.
  rewrite lookup_insert_eq. cbn.
  destruct (sessions st !! sid) as [s0|]; [|discriminate].
  case_bool_decide as Hexp; [discriminate|]. injection Hs as ->.
  rewrite bool_decide_eq_false_2 by exact Hexp. cbn.
  rewrite bool_decide_eq_false_2 by exact Hne.
  unfold getChatsMapForSession. cbn. rewrite Hm, Hhas. reflexivity.
Qed.

(** X11.  [getActiveChatId] returns an id
    only for a live session and only when the session has a chat with
    that id; an active id that points at no chat is cleared from the
    session.  [setActiveChatId] answers [true] exactly when the session
    is live and has the chat, and [getActiveChatId] then returns it.
    After [deleteChat] removed the active chat, there is no active
    chat. *)
Theorem active_chat_is_never_dangling
    (sid : string) (now : Z) (st : MemoryStore) :
  (forall c, (getActiveChatId sid now st).2 = Some c ->
     is_Some (getSession sid now st)
     /\ is_Some (chat_of sid c st)
     /\ (getActiveChatId sid now st).1 = st)
  /\ (forall s c,
        getSession sid now st = Some s -> activeChatId s = Some c ->
        c <> "" -> chat_of sid c st = None ->
        (getActiveChatId sid now st).2 = None
        /\ sessions (getActiveChatId sid now st).1 !! sid
           = Some (set_activeChatId None s))
  /\ (forall c,
        (setActiveChatId sid c now st).2
        = bool_decide (is_Some (getSession sid now st)
                       /\ is_Some (chat_of sid c st)))
  /\ (forall c,
        (setActiveChatId sid c now st).2 = true -> c <> "" ->
        (getActiveChatId sid now (setActiveChatId sid c now st).1).2 = Some c)
  /\ (forall c,
        (getActiveChatId sid now st).2 = Some c ->
        (getActiveChatId sid now (deleteChat sid c st).1).2 = None).
Proof.
  split; [|split; [|split; [|split]]].
  - intros c. unfold getActiveChatId.
    destruct (getSession sid now st) as [s|] eqn:Hs; [|discriminate].
    destruct (Manager.nonempty (activeChatId s)) as [a|]; [|discriminate].
    rewrite chat_of_lookup. unfold getChatsMapForSession.
    destruct (chatsBySession st !! sid) as [m|] eqn:Hm.
    + unfold JsMap.has. destruct (JsMap.get a m) eqn:Hget; [|discriminate].
      cbn. intros [= <-]. rewrite Hget. eauto.
    + cbn. discriminate.
  - intros s c Hs Hact Hne Hnone. unfold getActiveChatId. rewrite Hs, Hact.
    cbn. rewrite bool_decide_eq_false_2 by exact Hne.
    rewrite chat_of_lookup in Hnone. unfold getChatsMapForSession.
    destruct (chatsBySession st !! sid) as [m|] eqn:Hm.
    + unfold JsMap.has. rewrite Hnone. cbn.
      split; [reflexivity | apply lookup_insert_eq].
    + cbn. split; [reflexivity | apply lookup_insert_eq].
  - intros c. apply setActiveChatId_answer.
  - intros c. apply setActiveChatId_then_get.
  - intros c. unfold getActiveChatId at 1.
    destruct (getSession sid now st) as [s|] eqn:Hs; [|discriminate].
    destruct (Manager.nonempty (activeChatId s)) as [a|] eqn:Ha;
      [|discriminate].
    unfold getChatsMapForSession.
    destruct (chatsBySession st !! sid) as [m|] eqn:Hm; [|discriminate].
    destruct (JsMap.has a m) eqn:Hhas; [|discriminate].
    cbn. intros [= <-].
    assert (activeChatId s = Some a) as Hact.
    { unfold Manager.nonempty in Ha. destruct (activeChatId s); [|discriminate].
      case_bool_decide; [discriminate|]. congruence. }
    unfold deleteChat. rewrite Hm, Hhas. cbn.
    unfold getSession in Hs.
    destruct (sessions st !! sid) as [s0|] eqn:Hs0; [|discriminate].
    case_bool_decide as Hexp; [discriminate|]. injection Hs as ->.
    rewrite bool_decide_eq_true_2 by exact Hact.
    unfold getActiveChatId, getSession. cbn. rewrite lookup_insert_eq. cbn.
    rewrite bool_decide_eq_false_2 by exact Hexp. reflexivity.
Qed.

Lemma chat_of_with_sessions sid c x st :
  chat_of sid c (with_sessions x st) = chat_of sid c st.
Proof. rewrite !chat_of_lookup. reflexivity. Qed.

Lemma createChat_unfold sid fresh now st :
  createChat sid fresh now st
  = (let chat :=
       {| chat_id := fresh; chat_createdAt := now; chat_updatedAt := now;
          messages := [];
          settings := {| model := None; reasoningEffort := None;
                         cwd := None; sandbox := None;
                         approvalPolicy := None |} |} in
     let st2 := put_chat sid fresh chat st in
     (match getSession sid now st with
      | Some s =>
          with_sessions
            (<[sid := set_activeChatId (Some fresh) s]> (sessions st)) st2
      | None => st2
      end, chat)).
Proof.
  unfold createChat, getChatsMapForSession, put_chat.
  destruct (chatsBySession st !! sid) as [m|] eqn:Hm; cbn zeta.
  - cbn [default from_option id]. unfold id.
    rewrite getSession_after_chats. reflexivity.
  - cbn [chatsBySession with_chats default from_option]. unfold id.
    rewrite insert_insert_eq.
    change (getSession sid now (with_chats ?x ?y)) with (getSession sid now st).
    destruct (getSession sid now st); reflexivity.
Qed.

(** X12.  [createChat] stores an empty chat
    without settings under the new id; for a live session it becomes the
    active chat, for any other session no session is touched.  No other
    chat changes. *)
Theorem createChat_becomes_active
    (sid fresh : string) (now : Z) (st : MemoryStore) :
  let r := createChat sid fresh now st in
  chat_of sid fresh r.1 = Some r.2
  /\ chat_id r.2 = fresh /\ messages r.2 = []
  /\ chat_createdAt r.2 = now /\ chat_updatedAt r.2 = now
  /\ (forall sid' c', (sid', c') <> (sid, fresh) ->
        chat_of sid' c' r.1 = chat_of sid' c' st)
  /\ (is_Some (getSession sid now st) -> fresh <> "" ->
      (getActiveChatId sid now r.1).2 = Some fresh)
  /\ (getSession sid now st = None -> sessions r.1 = sessions st)
  /\ streamsByChatKey r.1 = streamsByChatKey st.
Proof.
  cbn zeta. rewrite createChat_unfold. cbn zeta. cbn [fst snd].
  set (chat := {| chat_id := fresh; chat_createdAt := now;
                  chat_updatedAt := now; messages := []; settings := _ |}).
  pose proof (chat_of_put_eq sid fresh chat st) as Hput.
  pose proof (chat_of_put_ne sid fresh chat st) as Hne.
  destruct (getSession sid now st) as [s|] eqn:Hs.
  - rewrite chat_of_with_sessions. split; [exact Hput|].
    split; [reflexivity|]. split; [reflexivity|]. split; [reflexivity|].
    split; [reflexivity|].
    split; [intros sid' c' H; rewrite chat_of_with_sessions; auto|].
    split; [|split; [discriminate | reflexivity]].
    + intros _ Hfresh. unfold getActiveChatId, getSession in *.
      cbn [sessions with_sessions]. rewrite lookup_insert_eq.
      cbn [s_expiresAt set_activeChatId activeChatId].
      destruct (sessions st !! sid) as [s0|]; [|discriminate].
      case_bool_decide as Hexp; [discriminate|]. injection Hs as ->.
      rewrite bool_decide_eq_false_2 by exact Hexp.
      unfold Manager.nonempty. cbn [set_activeChatId activeChatId].
      rewrite bool_decide_eq_false_2 by exact Hfresh.
      unfold getChatsMapForSession, put_chat.
      cbn [chatsBySession with_chats with_sessions].
      rewrite lookup_insert_eq.
      unfold JsMap.has. rewrite JsMapFacts.jsmap_get_set_eq. reflexivity.
  - split; [exact Hput|]. repeat split; auto.
    intros [? ?]. discriminate.
Qed.

End ChatFacts.

(* ------------------------------------------------------------------ *)
(** ** Message text, repaired histories and the chat list *)
(* ------------------------------------------------------------------ *)

Module MessageFacts.
Import StoreData StoreSpec ChatFacts.

Lemma update_text_found mid f msgs m0 :
  head (filter (fun m => m_id m = mid) msgs) = Some m0 ->
  exists ms,
    update_text mid f msgs = Some ms
    /\ head (filter (fun m => m_id m = mid) ms) = Some (with_text f m0)
    /\ (forall mid', mid' <> mid ->
          filter (fun m => m_id m = mid') ms
          = filter (fun m => m_id m = mid') msgs)
    /\ m_id <$> ms = m_id <$> msgs
    /\ role <$> ms = role <$> msgs
    /\ m_createdAt <$> ms = m_createdAt <$> msgs.
Proof.
  induction msgs as [|m msgs IH]; [discriminate|].
  rewrite filter_cons. simpl update_text.
  destruct (decide (m_id m = mid)) as [Hm|Hm].
  - rewrite bool_decide_eq_true_2 by exact Hm. simpl. intros [= <-].
    eexists. split; [reflexivity|]. split.
    + rewrite filter_cons. simpl. rewrite decide_True by exact Hm. reflexivity.
    + split; [|repeat split; reflexivity].
      intros mid' Hne. rewrite !filter_cons. simpl.
      destruct (decide (m_id m = mid')); [congruence | reflexivity].
  - rewrite bool_decide_eq_false_2 by exact Hm. intros Hhead.
    destruct (IH Hhead) as (ms & -> & Hh & Hother & Hids & Hroles & Htimes).
    eexists. split; [reflexivity|]. split.
    + rewrite filter_cons. rewrite decide_False by exact Hm. exact Hh.
    + split; [|repeat split; simpl; f_equal; assumption].
      intros mid' Hne. rewrite !filter_cons, (Hother mid' Hne). reflexivity.
Qed.

Lemma update_text_missing mid f msgs :
  head (filter (fun m => m_id m = mid) msgs) = None ->
  update_text mid f msgs = None.
Proof.
  induction msgs as [|m msgs IH]; [reflexivity|].
  rewrite filter_cons. simpl update_text.
  destruct (decide (m_id m = mid)) as [Hm|Hm]; [discriminate|].
  rewrite bool_decide_eq_false_2 by exact Hm. intros H.
  rewrite (IH H). reflexivity.
Qed.

Lemma text_of_chat sid chatId mid st :
  text_of sid chatId mid st
  = chat_of sid chatId st
      ≫= fun c => text <$> head (filter (fun m => m_id m = mid) (messages c)).
Proof. unfold text_of. destruct (chat_of sid chatId st); reflexivity. Qed.

Lemma write_text_step sid chatId mid f now st old :
  text_of sid chatId mid st = Some old ->
  exists chat ms,
    chat_of sid chatId st = Some chat
    /\ write_text sid chatId mid f now st
       = (put_chat sid chatId (set_messages ms now chat) st, Returned tt)
    /\ text <$> head (filter (fun m => m_id m = mid) ms) = Some (f old)
    /\ (forall mid', mid' <> mid ->
          filter (fun m => m_id m = mid') ms
          = filter (fun m => m_id m = mid') (messages chat))
    /\ m_id <$> ms = m_id <$> messages chat
    /\ role <$> ms = role <$> messages chat
    /\ m_createdAt <$> ms = m_createdAt <$> messages chat.
Proof.
  rewrite text_of_chat.
  destruct (chat_of sid chatId st) as [chat|] eqn:Hchat; [|discriminate].
  simpl. destruct (head _) as [m0|] eqn:Hhead; [|discriminate].
  intros [= <-].
  destruct (update_text_found mid f _ _ Hhead)
    as (ms & Hup & Hh & Hother & Hids & Hroles & Htimes).
  exists chat, ms. split; [reflexivity|].
  unfold write_text. rewrite (getChat_found _ _ _ _ Hchat), Hup.
  split; [reflexivity|]. rewrite Hh. repeat split; auto.
Qed.

Lemma string_append_nil_r (s : string) : s +:+ "" = s.
Proof.
  induction s as [|a s IH]; [reflexivity|].
  rewrite FingerprintFacts.append_cons, IH. reflexivity.
Qed.

(** X13.  When the chat has a message with
    the given id, appending deltas one after the other never throws and
    leaves the text of the first such message equal to its old text
    followed by all the deltas in order.  Every other message keeps its
    text, all messages keep their ids, roles, times and order, and no
    other chat changes. *)
Theorem deltas_accumulate_in_message
    (sid chatId mid : string) (ds : list string) (now : Z)
    (st : MemoryStore) (old : string) :
  text_of sid chatId mid st = Some old ->
  exists st',
    append_deltas sid chatId mid ds now st = Some st'
    /\ text_of sid chatId mid st' = Some (old +:+ concat_strings ds)
    /\ (forall mid', mid' <> mid ->
          text_of sid chatId mid' st' = text_of sid chatId mid' st)
    /\ (forall sid' c', (sid', c') <> (sid, chatId) ->
          chat_of sid' c' st' = chat_of sid' c' st)
    /\ (forall c, chat_of sid chatId st = Some c ->
          exists c', chat_of sid chatId st' = Some c'
                     /\ m_id <$> messages c' = m_id <$> messages c
                     /\ role <$> messages c' = role <$> messages c
                     /\ m_createdAt <$> messages c'
                        = m_createdAt <$> messages c).
Proof.
  revert st old. induction ds as [|d ds IH]; intros st old Hold.
  - exists st. simpl. split; [reflexivity|].
    split; [rewrite Hold, string_append_nil_r; reflexivity|].
    split; [reflexivity|]. split; [reflexivity|]. eauto.
  - destruct (write_text_step sid chatId mid (fun o => o +:+ d) now st old Hold)
      as (chat & ms & Hchat & Hstep & Htext & Hother & Hids & Hroles & Htimes).
    simpl append_deltas. unfold appendToMessageText. rewrite Hstep.
    set (st1 := put_chat sid chatId (set_messages ms now chat) st) in *.
    assert (chat_of sid chatId st1 = Some (set_messages ms now chat)) as Hchat1
      by apply chat_of_put_eq.
    assert (text_of sid chatId mid st1 = Some (old +:+ d)) as Hold1.
    { rewrite text_of_chat, Hchat1. exact Htext. }
    destruct (IH st1 _ Hold1) as (st' & Hrun & Hfinal & Hmids & Hchats & Hshape).
    exists st'. split; [exact Hrun|]. split.
    + rewrite Hfinal. f_equal. simpl.
      apply FingerprintFacts.append_assoc.
    + split; [|split].
      * intros mid' Hne. rewrite (Hmids mid' Hne).
        rewrite !text_of_chat, Hchat1, Hchat. simpl.
        rewrite (Hother mid' Hne). reflexivity.
      * intros sid' c' Hne. rewrite (Hchats sid' c' Hne).
        apply chat_of_put_ne, Hne.
      * intros c Hc. assert (c = chat) as -> by congruence.
        destruct (Hshape _ Hchat1) as (c' & Hc' & H1 & H2 & H3).
        exists c'. split; [exact Hc'|]. simpl in H1, H2, H3.
        rewrite H1, H2, H3. auto.
Qed.

Lemma deltas_accumulate_in_message_witness :
  text_of "s" "c" "m2" store_with_chat = Some ""
  /\ exists st',
       append_deltas "s" "c" "m2" ["Hel"; "lo"] 2 store_with_chat = Some st'
       /\ text_of "s" "c" "m2" st' = Some "Hello".
Proof.
  split; [reflexivity|].
  destruct (deltas_accumulate_in_message "s" "c" "m2" ["Hel"; "lo"] 2
              store_with_chat "" eq_refl)
    as (st' & Hrun & Htext & _).
  exists st'. split; [exact Hrun | exact Htext].
Defined.

Lemma update_text_none_any mid (f g : string -> string) msgs :
  update_text mid f msgs = None -> update_text mid g msgs = None.
Proof.
  induction msgs as [|m l IH]; simpl; [reflexivity|].
  case_bool_decide; [discriminate|].
  destruct (update_text mid f l); [discriminate|]. intros _.
  rewrite IH by reflexivity. reflexivity.
Qed.

(** X14.  [appendToMessageText] and
    [setMessageText] throw ['chat_not_found'] when the session has no
    such chat and ['message_not_found'] when the chat has no message
    with the id; a call that throws changes no chat.  Otherwise
    [setMessageText] makes the text of the first message with the id the
    given text. *)
Theorem message_writes_report_what_is_missing
    (sid chatId mid arg : string) (now : Z) (st : MemoryStore) :
  (chat_of sid chatId st = None ->
     (appendToMessageText sid chatId mid arg now st).2
     = Thrown "chat_not_found"
     /\ (setMessageText sid chatId mid arg now st).2
        = Thrown "chat_not_found")
  /\ (is_Some (chat_of sid chatId st) ->
      text_of sid chatId mid st = None ->
      (appendToMessageText sid chatId mid arg now st).2
      = Thrown "message_not_found"
      /\ (setMessageText sid chatId mid arg now st).2
         = Thrown "message_not_found")
  /\ (forall e sid' c',
        (appendToMessageText sid chatId mid arg now st).2 = Thrown e
        \/ (setMessageText sid chatId mid arg now st).2 = Thrown e ->
        chat_of sid' c' (appendToMessageText sid chatId mid arg now st).1
        = chat_of sid' c' st
        /\ chat_of sid' c' (setMessageText sid chatId mid arg now st).1
           = chat_of sid' c' st)
  /\ (is_Some (text_of sid chatId mid st) ->
      (setMessageText sid chatId mid arg now st).2 = Returned tt
      /\ text_of sid chatId mid (setMessageText sid chatId mid arg now st).1
         = Some arg).
Proof.
  assert (Hthrow : forall f e sid' c',
            (write_text sid chatId mid f now st).2 = Thrown e ->
            chat_of sid' c' (write_text sid chatId mid f now st).1
            = chat_of sid' c' st).
  { intros f e sid' c'. unfold write_text.
    pose proof (getChat_keeps_chats sid chatId st sid' c') as Hkeep.
    destruct (getChat sid chatId st) as [st1 [chat|]]; [|intros _; exact Hkeep].
    destruct (update_text mid f (messages chat)); [discriminate|].
    intros _. exact Hkeep. }
  assert (Hsame : forall f g,
            (exists e, (write_text sid chatId mid f now st).2 = Thrown e)
            -> exists e, (write_text sid chatId mid g now st).2 = Thrown e).
  { intros f g [e He]. unfold write_text in *.
    destruct (getChat sid chatId st) as [st1 [chat|]]; [|eauto].
    destruct (update_text mid f (messages chat)) eqn:Hf; [discriminate|].
    rewrite (update_text_none_any mid f g _ Hf). eauto. }
  split; [|split; [|split]].
  - intros Hnone. unfold appendToMessageText, setMessageText, write_text.
    unfold chat_of in Hnone.
    destruct (getChat sid chatId st) as [st1 found]. simpl in Hnone.
    subst found. split; reflexivity.
  - intros [chat Hchat] Htext. rewrite text_of_chat, Hchat in Htext.
    simpl in Htext.
    destruct (head _) eqn:Hhead; [discriminate|].
    unfold appendToMessageText, setMessageText, write_text.
    rewrite (getChat_found _ _ _ _ Hchat).
    rewrite !(update_text_missing _ _ _ Hhead). split; reflexivity.
  - intros e sid' c' [He|He]; unfold appendToMessageText, setMessageText in *.
    + destruct (Hsame _ (fun _ => arg) (ex_intro _ e He)) as [e' He'].
      split; eapply Hthrow; eassumption.
    + destruct (Hsame _ (fun old => old +:+ arg) (ex_intro _ e He))
        as [e' He'].
      split; eapply Hthrow; eassumption.
  - intros [old Hold].
    destruct (write_text_step sid chatId mid (fun _ => arg) now st old Hold)
      as (chat & ms & Hchat & Hstep & Htext & _).
    unfold setMessageText. rewrite Hstep. split; [reflexivity|].
    cbn [fst]. rewrite text_of_chat, chat_of_put_eq. exact Htext.
Qed.

Lemma safe_message_loose now i m :
  m_id m <> "" -> safe_message now i (loose m) = m.
Proof.
  intros Hid. unfold safe_message, loose, Manager.nonempty. cbn.
  rewrite bool_decide_eq_false_2 by exact Hid. destruct m; reflexivity.
Qed.

Lemma safe_message_id now i m : m_id (safe_message now i m) <> "".
Proof.
  unfold safe_message, Manager.nonempty. cbn.
  destruct (l_id m) as [s|].
  - case_bool_decide as Hs; [|exact Hs].
    rewrite FingerprintFacts.append_cons. discriminate.
  - rewrite FingerprintFacts.append_cons. discriminate.
Qed.

Lemma imap_safe_loose now (typed : list ChatMessage) :
  Forall (fun m => m_id m <> "") typed ->
  forall k, imap (fun i => safe_message now (k + i)) (loose <$> typed) = typed.
Proof.
  induction 1 as [|m typed Hm _ IH]; intros k; [reflexivity|].
  cbn [fmap list_fmap imap]. rewrite safe_message_loose by exact Hm.
  f_equal. rewrite <- (IH (S k)) at 2. apply imap_ext.
  intros i x _. cbn. f_equal. lia.
Qed.

Lemma imap_safe_typed now (typed : list ChatMessage) :
  Forall (fun m => m_id m <> "") typed ->
  imap (safe_message now) (loose <$> typed) = typed.
Proof. intros H. exact (imap_safe_loose now typed H 0%nat). Qed.

Lemma replaceMessages_found sid chatId msgs now st chat :
  chat_of sid chatId st = Some chat ->
  replaceMessages sid chatId msgs now st
  = (put_chat sid chatId
       (set_messages (imap (safe_message now) msgs) now chat) st,
     Returned (imap (safe_message now) msgs)).
Proof.
  intros Hchat. unfold replaceMessages.
  rewrite (getChat_found _ _ _ _ Hchat). reflexivity.
Qed.

(** X15.  For a chat that exists,
    [replaceMessages] returns and stores one message per message given,
    in order, and each of them has a non-empty id.  A message that has a
    non-empty string id, one of the three roles, a string text and a
    finite time is stored as it is; so a list of well-typed messages with
    non-empty ids is stored unchanged.  No other chat changes. *)
Theorem replaceMessages_repairs_messages
    (sid chatId : string) (msgs : list LooseMessage) (now : Z)
    (st : MemoryStore) (chat : Chat) :
  chat_of sid chatId st = Some chat ->
  exists safe,
    replaceMessages sid chatId msgs now st
    = (put_chat sid chatId (set_messages safe now chat) st, Returned safe)
    /\ chat_of sid chatId (replaceMessages sid chatId msgs now st).1
       = Some (set_messages safe now chat)
    /\ length safe = length msgs
    /\ Forall (fun m => m_id m <> "") safe
    /\ (forall i m, msgs !! i = Some m -> well_formed m ->
          exists m', safe !! i = Some m' /\ loose m' = m)
    /\ (forall typed, msgs = loose <$> typed ->
          Forall (fun m => m_id m <> "") typed -> safe = typed)
    /\ (forall sid' c', (sid', c') <> (sid, chatId) ->
          chat_of sid' c' (replaceMessages sid chatId msgs now st).1
          = chat_of sid' c' st).
Proof.
  intros Hchat. unfold replaceMessages.
  rewrite (getChat_found _ _ _ _ Hchat). eexists. split; [reflexivity|].
  cbn [fst]. split; [apply chat_of_put_eq|].
  split; [apply length_imap|]. split.
  - apply Forall_forall. intros m Hin.
    apply list_elem_of_lookup in Hin as [i Hi].
    rewrite list_lookup_imap in Hi.
    destruct (msgs !! i); [|discriminate]. injection Hi as <-.
    apply safe_message_id.
  - split; [|split].
    + intros i m Hi ((s & Hs & Hne) & [r Hr] & [t Ht] & [c Hc]).
      rewrite list_lookup_imap, Hi. eexists. split; [reflexivity|].
      unfold loose, safe_message, Manager.nonempty. cbn.
      rewrite Hs, Hr, Ht, Hc. rewrite bool_decide_eq_false_2 by exact Hne.
      cbn. destruct m; cbn in *; congruence.
    + intros typed -> Hids. exact (imap_safe_loose now typed Hids 0%nat).
    + intros sid' c' Hne. apply chat_of_put_ne, Hne.
Qed.

Lemma replaceMessages_repairs_messages_witness :
  chat_of "s" "c" store_with_chat = Some demo_chat
  /\ exists safe,
       (replaceMessages "s" "c"
          [ {| l_id := None; l_role := None; l_text := Some "x";
               l_createdAt := None |} ] 7 store_with_chat).2 = Returned safe
       /\ length safe = 1%nat.
Proof.
  split; [reflexivity|].
  destruct (replaceMessages_repairs_messages "s" "c"
              [ {| l_id := None; l_role := None; l_text := Some "x";
                   l_createdAt := None |} ] 7 store_with_chat demo_chat
              eq_refl)
    as (safe & Heq & _ & Hlen & _).
  exists safe. split; [rewrite Heq; reflexivity | exact Hlen].
Defined.

(** X16.  [listChats] returns one summary per chat
    of the session, ordered by [updatedAt] from the newest down; chats
    updated at the same time stay in the order in which they were
    created.  The preview of a chat is the text of its last message, and
    there is none for a chat without messages. *)
Theorem listChats_newest_first (sid : string) (st : MemoryStore) :
  let chats := (default [] (chatsBySession st !! sid)).*2 in
  let l := (listChats sid st).2 in
  descending cs_updatedAt l
  /\ l ≡ₚ summary_of <$> chats
  /\ (forall t,
        filter (fun s => cs_updatedAt s = t) l
        = filter (fun s => cs_updatedAt s = t) (summary_of <$> chats))
  /\ (forall c, preview (summary_of c) = text <$> last (messages c))
  /\ (forall sid' c', chat_of sid' c' (listChats sid st).1
                      = chat_of sid' c' st).
Proof.
  cbn zeta. unfold listChats, getChatsMapForSession.
  assert (forall sid' c',
            chat_of sid' c'
              (with_chats (<[sid := []]> (chatsBySession st)) st)
            = chat_of sid' c' st \/ is_Some (chatsBySession st !! sid)) as Hreg.
  { intros sid' c'. destruct (chatsBySession st !! sid) eqn:Hs; [eauto|].
    left. rewrite !chat_of_lookup. cbn.
    destruct (decide (sid' = sid)) as [->|Hne].
    - rewrite lookup_insert_eq, Hs. reflexivity.
    - rewrite lookup_insert_ne by congruence. reflexivity. }
  destruct (chatsBySession st !! sid) as [m|] eqn:Hm; cbn [fst snd default].
  - split; [apply JsMapFacts.sort_desc_descending|].
    split; [apply JsMapFacts.sort_desc_perm|].
    split; [intros t; apply JsMapFacts.sort_desc_stable|].
    split; reflexivity.
  - split; [exact I|]. split; [reflexivity|]. split; [reflexivity|].
    split; [reflexivity|]. intros sid' c'.
    destruct (Hreg sid' c') as [H|[? H]]; [exact H | discriminate].
Qed.

End MessageFacts.

(* ------------------------------------------------------------------ *)
(** ** Compaction, the chat view and the settings route *)
(* ------------------------------------------------------------------ *)

Module WebFacts.
Import StoreData StoreSpec ChatFacts WebApi WebSpec.

Lemma substring_length_le n s :
  (String.length (String.substring 0 n s) <= n)%nat.
Proof.
  revert s. induction n as [|n IH]; intros s.
  - destruct s; simpl; lia.
  - destruct s as [|a s]; simpl; [lia|]. specialize (IH s). lia.
Qed.

Lemma clipped_length n s :
  (String.length (String.substring 0 n s +:+ "...") <= n + 3)%nat.
Proof.
  rewrite PathFacts.string_app_length. pose proof (substring_length_le n s).
  simpl. lia.
Qed.

Lemma role_name_length r : (String.length (role_name r) <= 9)%nat.
Proof. destruct r; simpl; lia. Qed.

(** X17.  The summary of the messages that
    are compacted is empty for no messages and never longer than 2003
    characters; each of its lines, one per message, is at most 272
    characters long: the role in brackets and the text, cut to 257
    characters and three dots when it is longer than 260. *)
Theorem compaction_summary_is_bounded (msgs : list ChatMessage) :
  (String.length (summarizeChatForCompact msgs) <= 2003)%nat
  /\ summarizeChatForCompact [] = ""
  /\ (forall m, (String.length (summary_line m) <= 272)%nat)
  /\ (forall m, (String.length (text m) <= 260)%nat ->
        summary_line m = "[" +:+ role_name (role m) +:+ "] " +:+ text m)
  /\ (forall m, (260 < String.length (text m))%nat ->
        String.length (summary_line m)
        = (String.length (role_name (role m)) + 263)%nat).
Proof.
  split; [|split; [reflexivity|split; [|split]]].
  - destruct msgs as [|m msgs]; [simpl; lia|].
    unfold summarizeChatForCompact.
    set (raw := String.concat _ _).
    destruct (Nat.ltb_spec COMPACT_SUMMARY_MAX_CHARS (String.length raw))
      as [Hlong|Hshort].
    + apply (clipped_length 2000).
    + unfold COMPACT_SUMMARY_MAX_CHARS in Hshort. lia.
  - intros m. unfold summary_line.
    rewrite !PathFacts.string_app_length.
    pose proof (role_name_length (role m)).
    destruct (Nat.ltb_spec 260 (String.length (text m))) as [Hlong|Hshort].
    + pose proof (clipped_length 257 (text m)). simpl. lia.
    + simpl. lia.
  - intros m Hshort. unfold summary_line.
    destruct (Nat.ltb_spec 260 (String.length (text m))); [lia | reflexivity].
  - intros m Hlong. unfold summary_line.
    destruct (Nat.ltb_spec 260 (String.length (text m))) as [_|?]; [|lia].
    rewrite !PathFacts.string_app_length. simpl.
    assert (String.length (String.substring 0 257 (text m)) = 257%nat) as ->.
    { clear -Hlong. revert Hlong. generalize (text m). generalize 257%nat.
      induction n as [|n IH]; intros s Hs.
      - destruct s; reflexivity.
      - destruct s as [|a s]; simpl in *; [lia|]. rewrite IH; lia. }
    lia.
Qed.

Lemma keep_is_drop (msgs : list ChatMessage) n :
  0 <= n ->
  (if 0 <? n then drop (length msgs - Z.to_nat n) msgs else [])
  = drop (length msgs - Z.to_nat n) msgs.
Proof.
  intros Hn. destruct (Z.ltb_spec 0 n) as [_|Hz]; [reflexivity|].
  replace (Z.to_nat n) with 0%nat by lia.
  rewrite Nat.sub_0_r, drop_all. reflexivity.
Qed.

Lemma normalizeCompactKeep_nonneg v : 0 <= normalizeCompactKeep v.
Proof.
  destruct v; unfold normalizeCompactKeep, COMPACT_KEEP_LAST_DEFAULT; lia.
Qed.

Lemma buildCompactedMessages_cases msgs keepLast now :
  buildCompactedMessages msgs keepLast now
  = let k := Z.to_nat (normalizeCompactKeep keepLast) in
    if (length msgs <=? k)%nat then (msgs, 0%nat)
    else (compact_summary (take (length msgs - k) msgs) now
            :: drop (length msgs - k) msgs,
          (length msgs - k)%nat).
Proof.
  cbn zeta. unfold buildCompactedMessages.
  pose proof (normalizeCompactKeep_nonneg keepLast) as Hn.
  rewrite (keep_is_drop msgs _ Hn).
  set (k := Z.to_nat (normalizeCompactKeep keepLast)).
  rewrite length_drop.
  destruct (Nat.leb_spec (length msgs) k) as [Hshort|Hlong].
  - destruct (Nat.ltb_spec (length msgs - (length msgs - k)) (length msgs));
      [lia|].
    replace (length msgs - k)%nat with 0%nat by lia. reflexivity.
  - destruct (Nat.ltb_spec (length msgs - (length msgs - k)) (length msgs));
      [|lia].
    replace (length msgs - (length msgs - (length msgs - k)))%nat
      with (length msgs - k)%nat by lia.
    assert (length (take (length msgs - k) msgs) = (length msgs - k)%nat)
      as Hlen by (rewrite length_take; lia).
    unfold compact_summary. rewrite Hlen.
    destruct (take (length msgs - k) msgs) as [|x l] eqn:Ht.
    + simpl in Hlen. lia.
    + rewrite <- Hlen. reflexivity.
Qed.

(** X18.  With k the normalised number
    of messages to keep (8 when the number given is not finite, never
    below 0), a history of at most k messages comes back unchanged with
    nothing removed.  A longer history comes back as one new system
    message, whose text is a summary of the messages removed, followed by
    the last k messages unchanged and in order; the count of removed
    messages is the length of the history minus k.  The result is never
    longer than the history. *)
Theorem compaction_keeps_recent_messages
    (msgs : list ChatMessage) (keepLast : number) (now : Z) :
  let k := Z.to_nat (normalizeCompactKeep keepLast) in
  let r := buildCompactedMessages msgs keepLast now in
  ((length msgs <= k)%nat -> r = (msgs, 0%nat))
  /\ ((k < length msgs)%nat ->
        r = (compact_summary (take (length msgs - k) msgs) now
               :: drop (length msgs - k) msgs,
             (length msgs - k)%nat)
        /\ length (drop (length msgs - k) msgs) = k
        /\ msgs = take (length msgs - k) msgs ++ drop (length msgs - k) msgs)
  /\ (length r.1 <= length msgs)%nat
  /\ role (compact_summary (take (length msgs - k) msgs) now) = system
  /\ normalizeCompactKeep not_finite = 8
  /\ (forall fl, normalizeCompactKeep (finite fl) = Z.max 0 fl).
Proof.
  cbn zeta. rewrite buildCompactedMessages_cases. cbn zeta.
  set (k := Z.to_nat (normalizeCompactKeep keepLast)).
  split; [|split; [|split; [|split; [|split]]]]; try reflexivity.
  - intros H. destruct (Nat.leb_spec (length msgs) k); [reflexivity | lia].
  - intros H. destruct (Nat.leb_spec (length msgs) k); [lia|].
    split; [reflexivity|]. split; [rewrite length_drop; lia|].
    symmetry. apply take_drop.
  - destruct (Nat.leb_spec (length msgs) k); cbn; [lia|].
    rewrite length_drop. lia.
Qed.

Lemma chat_of_with_streams sid c x st :
  chat_of sid c (with_streams x st) = chat_of sid c st.
Proof. rewrite !chat_of_lookup. reflexivity. Qed.

Lemma getStreamRuntime_status now sid chatId st :
  Sessiond.rt_status
    (Store.getStreamRuntime now (Manager.key sid chatId)
       (streamsByChatKey st)).2
  = stream_status sid chatId st.
Proof.
  unfold Store.getStreamRuntime, Store.ensureStream, stream_status.
  destruct (streamsByChatKey st !! Manager.key sid chatId); reflexivity.
Qed.

Lemma compact_summary_id removed now : m_id (compact_summary removed now) <> "".
Proof. cbn. rewrite FingerprintFacts.append_cons. discriminate. Qed.

(** X19.  For a chat that exists, the
    compact route refuses with 409 ['chat_busy'] while the stream of the
    chat is running.  Otherwise, with k the number of messages to keep
    (8 when none is given), a history of at most k messages is left
    alone; a longer one is replaced by a summary message followed by its
    last k messages, which stay exactly as they were when their ids are
    not empty, and the reply counts the messages removed and kept.  A
    refusal changes no message, and no other chat is ever changed. *)
Theorem compact_route_replaces_old_history
    (sid chatId : string) (keep : option Z) (now : Z) (st : MemoryStore)
    (chat : Chat) :
  chat_of sid chatId st = Some chat ->
  let k := Z.to_nat (Z.max 0 (default 8 keep)) in
  let n := length (messages chat) in
  let r := compact_route sid chatId (Some keep) now st in
  (stream_status sid chatId st = Sessiond.running ->
     r.2 = compact_refused 409 "chat_busy"
     /\ chat_of sid chatId r.1 = Some chat)
  /\ (stream_status sid chatId st <> Sessiond.running -> (n <= k)%nat ->
      r.2 = compact_nothing /\ chat_of sid chatId r.1 = Some chat)
  /\ (stream_status sid chatId st <> Sessiond.running -> (k < n)%nat ->
      Forall (fun m => m_id m <> "") (drop (n - k) (messages chat)) ->
      r.2 = compact_done (n - k) (S k)
      /\ chat_of sid chatId r.1
         = Some (set_messages
                   (compact_summary (take (n - k) (messages chat)) now
                      :: drop (n - k) (messages chat)) now chat))
  /\ (stream_status sid chatId st <> Sessiond.running ->
      (compact_route sid chatId None now st).2
      = compact_refused 400 "bad_request")
  /\ (forall sid' c', (sid', c') <> (sid, chatId) ->
        chat_of sid' c' r.1 = chat_of sid' c' st).
Proof.
  intros Hchat. cbn zeta. unfold compact_route.
  rewrite (getChat_found _ _ _ _ Hchat).
  pose proof (getStreamRuntime_status now sid chatId st) as Hrt.
  destruct (Store.getStreamRuntime now (Manager.key sid chatId)
              (streamsByChatKey st)) as [streams1 rt].
  cbn [snd] in Hrt. rewrite Hrt.
  rewrite buildCompactedMessages_cases. cbn zeta.
  change (normalizeCompactKeep (finite (default COMPACT_KEEP_LAST_DEFAULT keep)))
    with (Z.max 0 (default 8 keep)).
  set (k := Z.to_nat (Z.max 0 (default 8 keep))).
  set (n := length (messages chat)).
  set (st2 := with_streams streams1 st).
  assert (Hchat2 : chat_of sid chatId st2 = Some chat)
    by (unfold st2; rewrite chat_of_with_streams; exact Hchat).
  assert (Hother : forall sid' c', chat_of sid' c' st2 = chat_of sid' c' st)
    by (intros; apply chat_of_with_streams).
  split; [|split; [|split; [|split]]].
  - intros Hrun. rewrite bool_decide_eq_true_2 by exact Hrun.
    split; [reflexivity | exact Hchat2].
  - intros Hrun Hshort. rewrite bool_decide_eq_false_2 by exact Hrun.
    destruct (Nat.leb_spec n k); [|lia].
    destruct (messages chat); split; first [reflexivity | exact Hchat2].
  - intros Hrun Hlong Hids. rewrite bool_decide_eq_false_2 by exact Hrun.
    destruct (Nat.leb_spec n k); [lia|].
    destruct (n - k)%nat as [|d] eqn:Hd; [lia|].
    rewrite (MessageFacts.replaceMessages_found _ _ _ _ _ _ Hchat2).
    match goal with
    | |- context [loose <$> (?x :: ?l)] =>
        assert (Forall (fun m => m_id m <> "") (x :: l)) as Hall
          by (constructor; [apply compact_summary_id | exact Hids]);
        rewrite (MessageFacts.imap_safe_typed now _ Hall)
    end.
    cbn [fst snd length]. rewrite length_drop.
    split; [f_equal; lia | apply chat_of_put_eq].
  - intros Hrun. rewrite bool_decide_eq_false_2 by exact Hrun. reflexivity.
  - intros sid' c' Hne. case_bool_decide; [apply Hother|].
    destruct (Nat.leb_spec n k).
    + destruct (messages chat); apply Hother.
    + destruct (n - k)%nat as [|d] eqn:Hd; [apply Hother|].
      rewrite (MessageFacts.replaceMessages_found _ _ _ _ _ _ Hchat2).
      cbn [fst]. rewrite chat_of_put_ne by exact Hne. apply Hother.
Qed.

Lemma compact_route_replaces_old_history_witness :
  chat_of "s" "c" store_with_chat = Some demo_chat
  /\ (compact_route "s" "c" (Some (Some 1)) 9 store_with_chat).2
     = compact_done 1 2.
Proof.
  split; [reflexivity|].
  refine (proj1 (proj1 (proj2 (proj2
            (compact_route_replaces_old_history "s" "c" (Some 1) 9
               store_with_chat demo_chat eq_refl))) _ _ _)).
  - discriminate.
  - simpl. lia.
  - repeat constructor; discriminate.
Defined.

(** X20.  For a chat that exists,
    whatever the body of the settings route holds, the sandbox and the
    approval policy of the chat stay as they were, and so do its
    messages.  A body the schema accepts is answered with ok and sets,
    clears or leaves the model, the reasoning effort and the working
    directory as the body says; a body with an empty model or working
    directory is answered with 400 and changes nothing. *)
Theorem settings_route_leaves_sandbox_alone
    (sid chatId : string) (body : ChatSettingsPatch) (now : Z)
    (st : MemoryStore) (chat : Chat) :
  chat_of sid chatId st = Some chat ->
  let r := settings_route sid chatId body now st in
  exists chat',
    chat_of sid chatId r.1 = Some chat'
    /\ sandbox (settings chat') = sandbox (settings chat)
    /\ approvalPolicy (settings chat') = approvalPolicy (settings chat)
    /\ messages chat' = messages chat
    /\ (valid_settings body = true ->
          r.2 = Sessiond.reply_ok
          /\ model (settings chat')
             = apply_patch (p_model body) (model (settings chat))
          /\ reasoningEffort (settings chat')
             = apply_patch (p_reasoningEffort body)
                 (reasoningEffort (settings chat))
          /\ cwd (settings chat')
             = apply_patch (p_cwd body) (cwd (settings chat))
          /\ chat_updatedAt chat' = now)
    /\ (valid_settings body = false ->
          r.2 = Sessiond.reply_error 400 "bad_request" /\ r.1 = st)
    /\ (forall sid' c', (sid', c') <> (sid, chatId) ->
          chat_of sid' c' r.1 = chat_of sid' c' st).
Proof.
  intros Hchat. cbn zeta. unfold settings_route.
  rewrite (getChat_found _ _ _ _ Hchat).
  destruct (valid_settings body) eqn:Hvalid; cbn [negb].
  - unfold updateChatSettings. rewrite (getChat_found _ _ _ _ Hchat).
    cbn [fst snd]. eexists. split; [apply chat_of_put_eq|].
    cbn. repeat split; try reflexivity; try discriminate.
    intros sid' c' Hne. apply chat_of_put_ne, Hne.
  - exists chat. cbn [fst snd]. repeat split; auto; discriminate.
Qed.

Lemma settings_route_leaves_sandbox_alone_witness :
  chat_of "s" "c" store_with_chat = Some demo_chat
  /\ exists chat',
       chat_of "s" "c"
         (settings_route "s" "c"
            {| p_model := Some (Some "gpt"); p_reasoningEffort := None;
               p_cwd := None;
               p_sandbox := Some (Some Manager.danger_full_access);
               p_approvalPolicy := Some (Some Manager.never) |} 5
            store_with_chat).1 = Some chat'
       /\ sandbox (settings chat') = Some Manager.read_only.
Proof.
  split; [reflexivity|].
  destruct (settings_route_leaves_sandbox_alone "s" "c"
              {| p_model := Some (Some "gpt"); p_reasoningEffort := None;
                 p_cwd := None;
                 p_sandbox := Some (Some Manager.danger_full_access);
                 p_approvalPolicy := Some (Some Manager.never) |} 5
              store_with_chat demo_chat eq_refl)
    as (chat' & Hc & Hs & _).
  exists chat'. split; [exact Hc | exact Hs].
Defined.

(** X21.  For a chat that exists, the chat
    route sends all messages when no tail is asked for (or one that is
    not a positive number), and otherwise the last n of them, where n is
    the tail rounded down and capped at 1000: the messages sent are the
    history from [messagesStart] on, and start and number sent add up to
    [messagesTotal].  The settings sent carry neither sandbox nor
    approval policy.  For a live session the chat is the active chat
    afterwards. *)
Theorem chat_route_sends_the_tail
    (sid chatId : string) (rawTail : number) (now : Z) (st : MemoryStore)
    (chat : Chat) :
  chat_of sid chatId st = Some chat ->
  exists view,
    (chat_route sid chatId rawTail now st).2 = Some view
    /\ messagesTotal view = length (messages chat)
    /\ v_messages view = drop (messagesStart view) (messages chat)
    /\ (messagesStart view + length (v_messages view))%nat
       = messagesTotal view
    /\ (forall fl, rawTail = finite fl -> 0 < fl ->
          length (v_messages view)
          = Nat.min (Z.to_nat (Z.min 1000 fl)) (length (messages chat)))
    /\ (rawTail = not_finite \/ (exists fl, rawTail = finite fl /\ fl <= 0) ->
        v_messages view = messages chat /\ messagesStart view = 0%nat)
    /\ sandbox (v_settings view) = None
    /\ approvalPolicy (v_settings view) = None
    /\ model (v_settings view) = model (settings chat)
    /\ cwd (v_settings view) = cwd (settings chat)
    /\ (is_Some (getSession sid now st) -> chatId <> "" ->
        (getActiveChatId sid now (chat_route sid chatId rawTail now st).1).2
        = Some chatId).
Proof.
  intros Hchat. unfold chat_route.
  rewrite (getChat_found _ _ _ _ Hchat).
  pose proof (setActiveChatId_answer sid chatId now st) as Hans.
  pose proof (setActiveChatId_then_get sid chatId now st) as Hget.
  destruct (setActiveChatId sid chatId now st) as [st2 ok].
  cbn [fst snd] in *. eexists. split; [reflexivity|]. cbn.
  set (tail := match rawTail with
               | finite fl => Z.max 0 (Z.min 1000 fl)
               | not_finite => 0
               end).
  split; [reflexivity|].
  split; [destruct (0 <? tail); [reflexivity | rewrite drop_0; reflexivity]|].
  split; [destruct (0 <? tail); [rewrite length_drop|]; lia|].
  split; [|split].
  - intros fl -> Hfl. unfold tail.
    destruct (Z.ltb_spec 0 (Z.max 0 (Z.min 1000 fl))); [|lia].
    rewrite length_drop. lia.
  - intros Hnone.
    assert (tail = 0) as ->.
    { unfold tail. destruct Hnone as [->|(fl & -> & Hfl)]; [reflexivity | lia]. }
    split; reflexivity.
  - repeat split; try reflexivity.
    intros Hlive Hne. apply Hget; [|exact Hne].
    rewrite Hans. apply bool_decide_eq_true_2. split; [exact Hlive|].
    rewrite Hchat. eauto.
Qed.

Lemma chat_route_sends_the_tail_witness :
  chat_of "s" "c" store_with_chat = Some demo_chat
  /\ exists view,
       (chat_route "s" "c" (finite 1) 5 store_with_chat).2 = Some view
       /\ messagesTotal view = 2%nat
       /\ v_messages view = drop (messagesStart view) (messages demo_chat).
Proof.
  split; [reflexivity|].
  destruct (chat_route_sends_the_tail "s" "c" (finite 1) 5 store_with_chat
              demo_chat eq_refl) as (view & Hv & Ht & Hm & _).
  exists view. split; [exact Hv|]. split; [exact Ht | exact Hm].
Defined.

End WebFacts.

(* ------------------------------------------------------------------ *)
(** ** The daemon: runtime, start, settle, reset and abort *)
(* ------------------------------------------------------------------ *)

Module DaemonFacts.
Import Adapter Manager Sessiond SessiondApi.
Import SessionSpec DaemonSpec.

Lemma ensureStream_found now k streams s :
  streams !! k = Some s -> ensureStream now k streams = (streams, s).
Proof. unfold ensureStream. intros ->. reflexivity. Qed.

Lemma ensureStream_missing now k streams :
  streams !! k = None ->
  ensureStream now k streams = (<[k := idle_stream now]> streams, idle_stream now).
Proof. unfold ensureStream. intros ->. reflexivity. Qed.

Lemma ensureStream_lookup now k streams :
  (ensureStream now k streams).1 !! k = Some (ensureStream now k streams).2.
Proof.
  unfold ensureStream. destruct (streams !! k) eqn:H; simpl.
  - exact H.
  - apply lookup_insert_eq.
Qed.

Lemma ensureStream_frame now k streams k' :
  k' <> k -> (ensureStream now k streams).1 !! k' = streams !! k'.
Proof.
  intros Hne. unfold ensureStream. destruct (streams !! k); simpl.
  - reflexivity.
  - apply lookup_insert_ne. congruence.
Qed.

Lemma appendStreamEvent_lookup now k ev payload streams :
  (appendStreamEvent now k ev payload streams).1 !! k
  = Some (push now ev payload (ensureStream now k streams).2).1.
Proof.
  unfold appendStreamEvent.
  destruct (ensureStream now k streams) as [streams1 s]. simpl.
  apply lookup_insert_eq.
Qed.

Lemma appendStreamEvent_other now k ev payload streams k' :
  k' <> k -> (appendStreamEvent now k ev payload streams).1 !! k' = streams !! k'.
Proof.
  intros Hne. unfold appendStreamEvent.
  pose proof (ensureStream_frame now k streams k' Hne) as Hf.
  destruct (ensureStream now k streams) as [streams1 s]. simpl in *.
  rewrite lookup_insert_ne by congruence. exact Hf.
Qed.

Lemma append_all_other now k items :
  forall streams k', k' <> k ->
    append_all now k items streams !! k' = streams !! k'.
Proof.
  induction items as [|[ev payload] items IH]; intros streams k' Hne;
    [reflexivity|].
  simpl. rewrite IH by exact Hne. apply appendStreamEvent_other, Hne.
Qed.

Lemma latch_done st : latch "done" st = done.
Proof. reflexivity. Qed.

Lemma latch_turn_error st : latch "turn_error" st = error.
Proof. reflexivity. Qed.

(** [GET /v1/chats/runtime] on a chat that has a stream. *)
Lemma runtime_found sid cid now d s :
  streamsByChatKey d !! key sid cid = Some s ->
  runtime sid cid now d
  = if bool_decide (status s = running) && negb (isBusy sid cid (codex d))
    then ({| codex := codex d;
             streamsByChatKey :=
               <[key sid cid := (push now "done" reconciled_done s).1]>
                 (streamsByChatKey d) |},
          {| body_status := done; body_lastEventId := Z.max 0 (nextId s);
             body_updatedAt := now;
             body_busy := isBusy sid cid (codex d) |})
    else ({| codex := codex d; streamsByChatKey := streamsByChatKey d |},
          {| body_status := status s;
             body_lastEventId := Z.max 0 (nextId s - 1);
             body_updatedAt := updatedAt s;
             body_busy := isBusy sid cid (codex d) |}).
Proof.
  intros Hs. unfold runtime, getStreamRuntime.
  rewrite (ensureStream_found _ _ _ _ Hs). cbn [runtime_of rt_status].
  destruct (bool_decide (status s = running)
            && negb (isBusy sid cid (codex d))) eqn:Hc.
  - unfold appendStreamEvent. rewrite (ensureStream_found _ _ _ _ Hs).
    cbn [push fst].
    rewrite (ensureStream_found now _ _ _ (lookup_insert_eq _ _ _)).
    cbn. unfold reconciled_done.
    replace (nextId s + 1 - 1) with (nextId s) by lia. reflexivity.
  - rewrite (ensureStream_found _ _ _ _ Hs). reflexivity.
Qed.

(** [GET /v1/chats/runtime] on a chat without a stream. *)
Lemma runtime_missing sid cid now d :
  streamsByChatKey d !! key sid cid = None ->
  runtime sid cid now d
  = ({| codex := codex d;
        streamsByChatKey :=
          <[key sid cid := idle_stream now]> (streamsByChatKey d) |},
     {| body_status := idle; body_lastEventId := 0; body_updatedAt := now;
        body_busy := isBusy sid cid (codex d) |}).
Proof.
  intros Hs. unfold runtime, getStreamRuntime.
  rewrite (ensureStream_missing _ _ _ Hs).
  cbn [runtime_of rt_status idle_stream status].
  rewrite bool_decide_eq_false_2 by discriminate. cbn [andb].
  rewrite (ensureStream_found now _ _ _ (lookup_insert_eq _ _ _)).
  reflexivity.
Qed.

(** X22.  [GET /v1/chats/runtime] never
    answers [running] for a chat whose runner is not busy: when the stream
    is still marked running and the runner is idle or gone, it first
    appends one [done] event with [{ok: true, reconciled: true}], which
    takes the next event id; otherwise the stream is left as it is (a chat
    without a stream gets an idle one).  Runners and the streams of other
    chats are not touched, and asking again changes nothing and gives the
    same answer. *)
Theorem runtime_closes_an_orphaned_stream
    (sid cid : string) (now : Z) (d : Daemon) :
  let k := key sid cid in
  let s := (ensureStream now k (streamsByChatKey d)).2 in
  let orphaned :=
    bool_decide (status s = running) && negb (isBusy sid cid (codex d)) in
  let d' := (runtime sid cid now d).1 in
  let body := (runtime sid cid now d).2 in
  (body_status body = running -> body_busy body = true)
  /\ body_busy body = isBusy sid cid (codex d)
  /\ codex d' = codex d
  /\ (forall k', k' <> k ->
        streamsByChatKey d' !! k' = streamsByChatKey d !! k')
  /\ streamsByChatKey d' !! k
     = Some (if orphaned
             then {| status := done; nextId := nextId s + 1;
                     events :=
                       trim maxEvents
                         (events s ++ [ {| id := nextId s; event := "done";
                                           data := reconciled_done;
                                           ts := now |} ]);
                     updatedAt := now |}
             else s)
  /\ body_status body = (if orphaned then done else status s)
  /\ (forall now', runtime sid cid now' d' = (d', body)).
Proof.
  intros k s orphaned d' body. subst d' body orphaned s k.
  destruct d as [runners streams]. cbn [codex streamsByChatKey].
  destruct (streams !! key sid cid) as [s|] eqn:Hs.
  - rewrite (ensureStream_found _ _ _ _ Hs). cbn [snd].
    rewrite (runtime_found sid cid now (Build_Daemon runners streams) s Hs).
    cbn [codex streamsByChatKey].
    destruct (bool_decide (status s = running)) eqn:Hrun;
      destruct (isBusy sid cid runners) eqn:Hbusy;
      cbn [andb negb fst snd body_status body_busy codex streamsByChatKey].
    + repeat split; auto.
      intros now'.
      rewrite (runtime_found sid cid now' (Build_Daemon runners streams) s Hs).
      cbn [codex streamsByChatKey]. rewrite Hrun, Hbusy. reflexivity.
    + repeat split; auto.
      * discriminate.
      * intros k' Hne. apply lookup_insert_ne. congruence.
      * rewrite lookup_insert_eq. reflexivity.
      * intros now'.
        rewrite (runtime_found sid cid now' (Build_Daemon runners _) _
                   (lookup_insert_eq _ _ _)).
        cbn [codex streamsByChatKey push fst status nextId updatedAt].
        rewrite latch_done, Hbusy.
        rewrite bool_decide_eq_false_2 by discriminate. cbn [andb].
        replace (nextId s + 1 - 1) with (nextId s) by lia. reflexivity.
    + apply bool_decide_eq_false in Hrun.
      repeat split; auto; try congruence.
      intros now'.
      rewrite (runtime_found sid cid now' (Build_Daemon runners streams) s Hs).
      cbn [codex streamsByChatKey].
      rewrite bool_decide_eq_false_2 by exact Hrun.
      rewrite ?Hbusy. reflexivity.
    + apply bool_decide_eq_false in Hrun.
      repeat split; auto; try congruence.
      intros now'.
      rewrite (runtime_found sid cid now' (Build_Daemon runners streams) s Hs).
      cbn [codex streamsByChatKey].
      rewrite bool_decide_eq_false_2 by exact Hrun.
      rewrite ?Hbusy. reflexivity.
  - rewrite (ensureStream_missing _ _ _ Hs). cbn [snd].
    rewrite (runtime_missing sid cid now (Build_Daemon runners streams) Hs).
    cbn [fst snd body_status body_busy codex streamsByChatKey idle_stream
         status andb].
    rewrite bool_decide_eq_false_2 by discriminate. cbn [andb].
    repeat split; auto.
    + discriminate.
    + intros k' Hne. apply lookup_insert_ne. congruence.
    + rewrite lookup_insert_eq. reflexivity.
    + intros now'.
      rewrite (runtime_found sid cid now' (Build_Daemon runners _) _
                 (lookup_insert_eq _ _ _)).
      cbn. reflexivity.
Qed.

Lemma resetSessionState_onEvent c :
  onEvent (resetSessionState c).1 = onEvent c.
Proof.
  unfold resetSessionState, abortPendingApprovals, stopActiveClaudeProcess.
  cbn [set_pending activeClaudeProc].
  destruct (activeClaudeProc c) as [p|]; [|reflexivity].
  cbn. destruct (bool_decide (pid p = pid p)); reflexivity.
Qed.

Lemma continueSession_begin_onEvent c c1 :
  continueSession_begin c = Some c1 -> onEvent c1 = onEvent c.
Proof.
  unfold continueSession_begin.
  destruct (stored_falsy (Adapter.sessionId c)); [discriminate|].
  destruct (stored_falsy (conversationId c)); intros [= <-]; reflexivity.
Qed.

(** [runTurn] on a runner that is not busy, from [get] to the backend
    call. *)
Lemma runTurn_enter_from opts now runners runners1 r0 :
  get (o_sessionId opts) (o_chatId opts) (o_instance opts) runners
  = Ok (runners1, r0) ->
  busy r0 = false ->
  exists r ctx stages effs call,
    runTurn_enter opts now runners
    = Ok (<[key (o_sessionId opts) (o_chatId opts) := r]> runners1, ctx,
          (fun p => progress p.1 p.2) <$> stages,
          signal_effects (o_signal opts) ++ effs, call)
    /\ (length stages <= 2)%nat
    /\ busy r = true
    /\ abort r = Some (bool_decide (o_signal opts = Some true))
    /\ onEvent (client r) = true
    /\ instanceId r = instanceId r0
    /\ codexHome r = codexHome r0
    /\ (hasSession (client r0) = false ->
        stages = [("start_session", start_message (o_config opts))]
        /\ effs = []
        /\ call = StartSession (session_config opts)
        /\ client r = set_saw false (setEventHandler true (client r0))
        /\ configKey r = configKey r0).
Proof.
  intros Hget Hbusy.
  assert (Hsig :
    (match o_signal opts with
     | Some true =>
         controller_abort
           (set_client (setEventHandler true
                          (client (set_abort (Some false) (set_busy true r0))))
              (set_abort (Some false) (set_busy true r0)))
     | _ => (set_client (setEventHandler true
                           (client (set_abort (Some false) (set_busy true r0))))
               (set_abort (Some false) (set_busy true r0)), [])
     end)
    = ({| client := setEventHandler true (client r0); busy := true;
          abort := Some (bool_decide (o_signal opts = Some true));
          configKey := configKey r0;
          instanceId := instanceId r0; codexHome := codexHome r0 |},
       signal_effects (o_signal opts))).
  { destruct (o_signal opts) as [[|]|]; reflexivity. }
  unfold runTurn_enter. rewrite Hget, Hbusy, Hsig.
  cbn [client configKey nextConfigKey].
  unfold emit, progress. rewrite !SessionFacts.progress_is_progress.
  change (hasSession (setEventHandler true (client r0)))
    with (hasSession (client r0)).
  destruct (hasSession (client r0)) eqn:Hsess.
  - destruct (bool_decide (configKey r0 = Some (sessionConfigKey (o_config opts))))
      eqn:Hkey; cbn [negb andb].
    + cbn [client]. change (hasSession (setEventHandler true (client r0)))
        with (hasSession (client r0)). rewrite Hsess. cbn [negb].
      destruct (continueSession_begin (setEventHandler true (client r0)))
        as [c1|] eqn:Hc.
      * eexists _, _, [("continue_session", _)], [], _.
        split; [reflexivity|]. cbn.
        apply continueSession_begin_onEvent in Hc. cbn in Hc.
        repeat split; auto; try lia; try discriminate.
      * eexists _, _, [("continue_session", _)], [], _.
        split; [reflexivity|]. cbn.
        repeat split; auto; try lia; try discriminate.
    + pose proof (resetSessionState_onEvent (setEventHandler true (client r0)))
        as Hon.
      destruct (SessionFacts.resetSessionState_drops
                  (setEventHandler true (client r0))) as (Hhas & _).
      destruct (resetSessionState (setEventHandler true (client r0)))
        as [c effs1] eqn:Hreset.
      cbn [fst] in Hhas, Hon. cbn [set_client client]. rewrite Hhas.
      cbn [negb].
      eexists _, _, [("session_reset", _); ("start_session", _)], effs1, _.
      split; [reflexivity|]. cbn.
      repeat split; auto; try lia; try discriminate.
  - cbn [negb andb client]. change (hasSession (setEventHandler true (client r0)))
      with (hasSession (client r0)). rewrite Hsess. cbn [negb].
    eexists _, _, [("start_session", _)], [], _.
    split; [reflexivity|]. cbn.
    repeat split; auto; lia.
Qed.

Lemma isBusy_false_runner sid cid runners r :
  isBusy sid cid runners = false -> runners !! key sid cid = Some r ->
  busy r = false.
Proof. unfold isBusy. intros Hb Hr. rewrite Hr in Hb. exact Hb. Qed.

(** [get] on a chat that is not busy: it never throws, and it makes a
    fresh runner unless the one it finds is bound to the same instance. *)
Lemma get_free sid cid binding runners :
  isBusy sid cid runners = false ->
  exists runners1 r0,
    get sid cid binding runners = Ok (runners1, r0)
    /\ busy r0 = false
    /\ (forall k', k' <> key sid cid -> runners1 !! k' = runners !! k')
    /\ (forall r1, (<[key sid cid := r1]> runners1)
                   = <[key sid cid := r1]> runners)
    /\ match runners !! key sid cid with
       | Some r =>
           if bool_decide (instanceId r = wanted_instance binding)
              && bool_decide (codexHome r = wanted_home binding)
           then r0 = r
           else r0 = fresh_runner binding
       | None => r0 = fresh_runner binding
       end.
Proof.
  intros Hb. unfold get. fold (wanted_instance binding) (wanted_home binding).
  destruct (runners !! key sid cid) as [r|] eqn:Hr.
  - pose proof (isBusy_false_runner _ _ _ _ Hb Hr) as Hbusy.
    destruct (bool_decide (instanceId r = wanted_instance binding)
              && bool_decide (codexHome r = wanted_home binding)).
    + eexists _, _. split; [reflexivity|]. repeat split; auto.
    + rewrite Hbusy. eexists _, _. split; [reflexivity|].
      repeat split; auto.
      * intros k' Hne. rewrite lookup_insert_ne by congruence.
        apply lookup_delete_ne. congruence.
      * intros r1. rewrite insert_insert_eq. apply insert_delete_eq.
  - eexists _, _. split; [reflexivity|]. repeat split; auto.
    + intros k' Hne. apply lookup_insert_ne. congruence.
    + intros r1. apply insert_insert_eq.
Qed.

Lemma resetStream_eq now k streams :
  resetStream now k streams
  = <[k := {| status := running; nextId := 1; events := [];
              updatedAt := now |}]> streams.
Proof.
  unfold resetStream, ensureStream. destruct (streams !! k); [reflexivity|].
  apply insert_insert_eq.
Qed.

Lemma appendStreamEvent_found now k ev payload streams s :
  streams !! k = Some s ->
  (appendStreamEvent now k ev payload streams).1
  = <[k := (push now ev payload s).1]> streams.
Proof.
  intros Hs. unfold appendStreamEvent.
  rewrite (ensureStream_found _ _ _ _ Hs). reflexivity.
Qed.

Lemma append_all_found now k items :
  forall streams s,
    streams !! k = Some s ->
    append_all now k items streams
    = <[k := fold_left (fun s0 it => (push now it.1 it.2 s0).1) items s]>
        streams.
Proof.
  induction items as [|[ev payload] items IH]; intros streams s Hs.
  - simpl. symmetry. apply insert_id, Hs.
  - cbn [append_all fold_left fst snd].
    rewrite (appendStreamEvent_found _ _ _ _ _ _ Hs).
    rewrite (IH _ _ (lookup_insert_eq _ _ _)).
    apply insert_insert_eq.
Qed.

Lemma trim_short evs : (length evs <= maxEvents)%nat -> trim maxEvents evs = evs.
Proof.
  intros H. unfold trim. rewrite bool_decide_eq_false_2 by lia. reflexivity.
Qed.

(** The stream of a chat after the start handler wrote the [start] event
    and the progress events of [runTurn]. *)
Lemma start_stream now k payload amid stages streams :
  (length stages <= 2)%nat ->
  append_all now k
    (stream_of_event amid <$> ((fun p => progress p.1 p.2) <$> stages))
    (appendStreamEvent now k "start" payload (resetStream now k streams)).1
  = <[k := {| status := running;
              nextId := 2 + Z.of_nat (length stages);
              events :=
                {| id := 1; event := "start"; data := payload; ts := now |}
                :: imap (fun i p => progress_event (2 + Z.of_nat i) now p.1 p.2)
                     stages;
              updatedAt := now |}]> streams.
Proof.
  intros Hlen. rewrite resetStream_eq.
  rewrite (appendStreamEvent_found _ _ _ _ _ _ (lookup_insert_eq _ _ _)).
  rewrite insert_insert_eq.
  rewrite (append_all_found _ _ _ _ _ (lookup_insert_eq _ _ _)).
  rewrite insert_insert_eq. f_equal.
  destruct stages as [|[s1 m1] [|[s2 m2] [|? ?]]]; simpl in Hlen; try lia;
    reflexivity.
Qed.

(** The start handler on a chat that is not busy. *)
Lemma start_free (b : StartBody) (now : Z) (d : Daemon) :
  valid_start b = true ->
  isBusy (Sessiond.sessionId b) (chatId b) (codex d) = false ->
  exists d' effs f r stages,
    start b now d = (d', effs, reply_ok, Some f)
    /\ f_key f = key (Sessiond.sessionId b) (chatId b)
    /\ codex d' !! key (Sessiond.sessionId b) (chatId b) = Some r
    /\ busy r = true /\ abort r = Some false /\ onEvent (client r) = true
    /\ instanceId r = wanted_instance (instance b)
    /\ codexHome r = wanted_home (instance b)
    /\ (length stages <= 2)%nat
    /\ streamsByChatKey d' !! key (Sessiond.sessionId b) (chatId b)
       = Some {| status := running;
                 nextId := 2 + Z.of_nat (length stages);
                 events :=
                   start_event b now
                   :: imap (fun i p =>
                              progress_event (2 + Z.of_nat i) now p.1 p.2)
                        stages;
                 updatedAt := now |}
    /\ (forall k', k' <> key (Sessiond.sessionId b) (chatId b) ->
          codex d' !! k' = codex d !! k'
          /\ streamsByChatKey d' !! k' = streamsByChatKey d !! k')
    /\ (codex d !! key (Sessiond.sessionId b) (chatId b) = None ->
        stages = [("start_session", start_message (config b))]
        /\ effs = []
        /\ f_call f = StartSession (session_config (turn_opts b))
        /\ client r = setEventHandler true new_client).
Proof.
  intros Hv Hb. unfold start. rewrite Hv, Hb. cbn [negb].
  destruct (get_free _ _ (instance b) _ Hb)
    as (runners1 & r0 & Hget & Hbusy0 & Hframe & Hins & Hwhich).
  destruct (runTurn_enter_from (turn_opts b) now (codex d) runners1 r0
              Hget Hbusy0)
    as (r & ctx & stages & effs & call & Henter & Hlen & Hbusy & Habort
        & Hon & Hinst & Hhome & Hfresh).
  change (runTurn_enter _ now (codex d))
    with (runTurn_enter (turn_opts b) now (codex d)).
  rewrite Henter. cbn [turn_opts o_sessionId o_chatId o_signal signal_effects
                       app] in *.
  rewrite Hins, (start_stream _ _ _ _ _ _ Hlen).
  eexists _, _, _, r, stages. split; [reflexivity|].
  cbn [f_key f_call codex streamsByChatKey].
  rewrite !lookup_insert_eq.
  assert (Hwanted : instanceId r0 = wanted_instance (instance b)
                    /\ codexHome r0 = wanted_home (instance b)).
  { destruct (codex d !! key (Sessiond.sessionId b) (chatId b)) as [r1|].
    - destruct (bool_decide (instanceId r1 = wanted_instance (instance b)))
        eqn:H1;
        destruct (bool_decide (codexHome r1 = wanted_home (instance b)))
          eqn:H2; cbn [andb] in Hwhich; subst r0; try (split; reflexivity).
      apply bool_decide_eq_true in H1, H2. split; assumption.
    - subst r0. split; reflexivity. }
  destruct Hwanted as [Hw1 Hw2].
  repeat split; auto; try congruence.
  - rewrite lookup_insert_ne by congruence. reflexivity.
  - rewrite lookup_insert_ne by congruence. reflexivity.
  - rewrite H in Hwhich. subst r0. apply (Hfresh eq_refl).
  - rewrite H in Hwhich. subst r0.
    destruct (Hfresh eq_refl) as (_ & -> & _). reflexivity.
  - rewrite H in Hwhich. subst r0. apply (Hfresh eq_refl).
  - rewrite H in Hwhich. subst r0.
    destruct (Hfresh eq_refl) as (_ & _ & _ & -> & _). reflexivity.
Qed.

(** X23.  On a chat that is not busy, a valid start
    request is always accepted and a turn is in flight afterwards: the
    runner of the chat is busy, bound to the instance asked for, with a
    live abort controller and an event handler; the stream of the chat was
    emptied and is running, and holds the [start] event with id 1 followed
    by at most two progress events of [runTurn] with the next ids.  The
    runners and streams of other chats are not touched.  A chat without a
    runner gets a new client, and [startSession] is what the turn calls. *)
Theorem start_opens_a_turn (b : StartBody) (now : Z) (d : Daemon) :
  valid_start b = true ->
  isBusy (Sessiond.sessionId b) (chatId b) (codex d) = false ->
  exists d' effs f r stages,
    start b now d = (d', effs, reply_ok, Some f)
    /\ f_key f = key (Sessiond.sessionId b) (chatId b)
    /\ codex d' !! key (Sessiond.sessionId b) (chatId b) = Some r
    /\ busy r = true /\ abort r = Some false /\ onEvent (client r) = true
    /\ instanceId r = wanted_instance (instance b)
    /\ codexHome r = wanted_home (instance b)
    /\ (length stages <= 2)%nat
    /\ streamsByChatKey d' !! key (Sessiond.sessionId b) (chatId b)
       = Some {| status := running;
                 nextId := 2 + Z.of_nat (length stages);
                 events :=
                   start_event b now
                   :: imap (fun i p =>
                              progress_event (2 + Z.of_nat i) now p.1 p.2)
                        stages;
                 updatedAt := now |}
    /\ (forall k', k' <> key (Sessiond.sessionId b) (chatId b) ->
          codex d' !! k' = codex d !! k'
          /\ streamsByChatKey d' !! k' = streamsByChatKey d !! k')
    /\ (codex d !! key (Sessiond.sessionId b) (chatId b) = None ->
        stages = [("start_session", start_message (config b))]
        /\ effs = []
        /\ f_call f = StartSession (session_config (turn_opts b))
        /\ client r = setEventHandler true new_client).
Proof. exact (start_free b now d). Qed.

Lemma start_opens_a_turn_witness :
  exists d' f,
    start first_start 5 empty_daemon = (d', [], reply_ok, Some f)
    /\ f_call f = StartSession (session_config (turn_opts first_start)).
Proof.
  destruct (start_opens_a_turn first_start 5 empty_daemon eq_refl eq_refl)
    as (d' & effs & f & r & stages & Hs & _ & _ & _ & _ & _ & _ & _ & _ & _
        & _ & Hnew).
  destruct (Hnew eq_refl) as (_ & He & Hc & _).
  exists d', f. rewrite <- He. split; [exact Hs | exact Hc].
Defined.

(** X24.  [POST /v1/chats/reset] drops the runner of
    the chat, and with it the Codex session it held, and leaves the chat
    with an empty idle stream; other chats keep their runners and streams.
    Afterwards the runtime of the chat reads idle, last event id 0, not
    busy, no event is listed whatever the cursor, and the next valid start
    is accepted and calls [startSession] on a new client, with no process
    or approval touched. *)
Theorem reset_chat_starts_over (sid cid : string) (now : Z) (d : Daemon) :
  let k := key sid cid in
  let d' := reset_chat sid cid now d in
  codex d' !! k = None
  /\ streamsByChatKey d' !! k = Some (idle_stream now)
  /\ (forall k', k' <> k ->
        codex d' !! k' = codex d !! k'
        /\ streamsByChatKey d' !! k' = streamsByChatKey d !! k')
  /\ (forall now',
        runtime sid cid now' d'
        = (d', {| body_status := idle; body_lastEventId := 0;
                  body_updatedAt := now; body_busy := false |}))
  /\ (forall now' after, events_after sid cid after now' d' = (d', []))
  /\ (forall b now',
        valid_start b = true ->
        Sessiond.sessionId b = sid -> chatId b = cid ->
        exists d'' f r,
          start b now' d' = (d'', [], reply_ok, Some f)
          /\ f_call f = StartSession (session_config (turn_opts b))
          /\ codex d'' !! k = Some r
          /\ client r = setEventHandler true new_client).
Proof.
  intros k d'.
  assert (Hd' : d' = {| codex := delete k (codex d);
                        streamsByChatKey :=
                          <[k := idle_stream now]> (streamsByChatKey d) |}).
  { subst d'. unfold reset_chat. fold k. rewrite resetStream_eq.
    rewrite (ensureStream_found now k _ _ (lookup_insert_eq _ _ _)).
    unfold reset. fold k. cbn [set_status status nextId events updatedAt].
    rewrite insert_insert_eq. reflexivity. }
  clearbody d'. subst d'. cbn [codex streamsByChatKey].
  assert (Hbusy : isBusy sid cid (delete k (codex d)) = false).
  { unfold isBusy. fold k. rewrite lookup_delete_eq. reflexivity. }
  split; [apply lookup_delete_eq|].
  split; [apply lookup_insert_eq|].
  split.
  { intros k' Hne. split.
    - apply lookup_delete_ne. congruence.
    - apply lookup_insert_ne. congruence. }
  split.
  { intros now'.
    rewrite (runtime_found sid cid now' (Build_Daemon _ _) _
               (lookup_insert_eq _ _ _)).
    cbn [codex streamsByChatKey idle_stream status].
    rewrite bool_decide_eq_false_2 by discriminate. cbn [andb].
    rewrite Hbusy. reflexivity. }
  split.
  { intros now' after. unfold events_after, listStreamEventsSince.
    cbn [codex streamsByChatKey].
    rewrite (ensureStream_found now' _ _ _ (lookup_insert_eq _ _ _)).
    reflexivity. }
  intros b now' Hv Hsid Hcid.
  assert (Hfree : isBusy (Sessiond.sessionId b) (chatId b)
                    (codex (Build_Daemon (delete k (codex d))
                              (<[k := idle_stream now]> (streamsByChatKey d))))
                  = false).
  { rewrite Hsid, Hcid. exact Hbusy. }
  destruct (start_free b now' _ Hv Hfree)
    as (d'' & effs & f & r & stages & Hs & _ & Hr & _ & _ & _ & _ & _ & _ & _
        & _ & Hnew).
  rewrite Hsid, Hcid in Hr, Hnew. fold k in Hr, Hnew.
  destruct (Hnew (lookup_delete_eq _ _)) as (_ & He & Hc & Hcl).
  exists d'', f, r. rewrite <- He. auto.
Qed.

Lemma append_all_snoc now k ev payload items :
  forall streams,
    append_all now k (items ++ [(ev, payload)]) streams
    = (appendStreamEvent now k ev payload (append_all now k items streams)).1.
Proof.
  induction items as [|[ev1 p1] items IH]; intros streams; [reflexivity|].
  simpl. apply IH.
Qed.

Lemma closing_events_last outcome :
  exists items ev payload,
    closing_events outcome = items ++ [(ev, payload)]
    /\ forall st, latch ev st = closed_status outcome.
Proof.
  destruct outcome as [usage rateLimits|m]; cbn [closing_events].
  - eexists (_ ++ _), "done", _. split.
    + rewrite <- app_assoc. reflexivity.
    + reflexivity.
  - exists [], "turn_error". eexists. split; reflexivity.
Qed.

Lemma set_client_same r : set_client (client r) r = r.
Proof. destruct r; reflexivity. Qed.

(** X25.  When a turn settles, however it ends,
    the [finally] block of [runTurn] releases the runner the turn
    captured when it began, and no other: that runner is no longer busy
    and has neither an abort controller nor an event handler, but keeps
    its client and its instance binding, and the fingerprint of the
    configuration is recorded on it only when the turn started a session
    and resolved.  The closing events go to the stream of the chat of the
    turn, which ends up [done] after a resolved turn and [error] after a
    rejected one; the other streams are not touched.  Whatever runners are
    registered, the runtime of the chat then reports that status and
    appends nothing. *)
Theorem settle_releases_the_chat
    (f : Flight) (outcome : Outcome) (now : Z) (r : RunnerState)
    (streams : gmap string ChatStream) :
  let r' := (settle f outcome now r streams).1 in
  let streams' := (settle f outcome now r streams).2 in
  busy r' = false /\ abort r' = None
  /\ client r' = setEventHandler false (client r)
  /\ instanceId r' = instanceId r /\ codexHome r' = codexHome r
  /\ configKey r'
     = match f_call f, outcome with
       | StartSession _, Resolved _ _ => Some (nextConfigKey (f_ctx f))
       | _, _ => configKey r
       end
  /\ (exists s,
        streams' !! f_key f = Some s /\ status s = closed_status outcome)
  /\ (forall k', k' <> f_key f -> streams' !! k' = streams !! k')
  /\ (forall sid cid runners now',
        f_key f = key sid cid ->
        (runtime sid cid now'
           {| codex := runners; streamsByChatKey := streams' |}).1
        = {| codex := runners; streamsByChatKey := streams' |}
        /\ body_status
             (runtime sid cid now'
                {| codex := runners; streamsByChatKey := streams' |}).2
           = closed_status outcome).
Proof.
  intros r' streams'. subst r' streams'. unfold settle. cbn [fst snd].
  destruct (closing_events_last outcome) as (items & ev & payload & Hc & Hl).
  assert (Hs : exists s,
    append_all now (f_key f) (closing_events outcome) streams !! f_key f
    = Some s /\ status s = closed_status outcome).
  { rewrite Hc, append_all_snoc, appendStreamEvent_lookup.
    eexists. split; [reflexivity|]. cbn [push fst status]. apply Hl. }
  assert (Hopen : bool_decide (closed_status outcome = running) = false).
  { apply bool_decide_eq_false_2. destruct outcome; discriminate. }
  unfold runTurn_settle.
  split; [reflexivity|]. split; [reflexivity|].
  split; [destruct (f_call f), outcome; reflexivity|].
  split; [destruct (f_call f), outcome; reflexivity|].
  split; [destruct (f_call f), outcome; reflexivity|].
  split; [destruct (f_call f), outcome; reflexivity|].
  split; [exact Hs|].
  split; [intros k' Hne; apply append_all_other, Hne|].
  intros sid cid runners now' Hk. destruct Hs as (s & Hs & Hst).
  rewrite Hk in Hs |- *.
  rewrite (runtime_found sid cid now' (Build_Daemon runners _) s Hs).
  rewrite Hst, Hopen. cbn [andb fst snd body_status]. auto.
Qed.

Lemma abortPendingApprovals_empties c :
  pendingApprovals (abortPendingApprovals c).1.1 = [].
Proof.
  unfold abortPendingApprovals, stopActiveClaudeProcess.
  cbn [set_pending activeClaudeProc].
  destruct (activeClaudeProc c) as [p|]; [|reflexivity].
  cbn. destruct (bool_decide (pid p = pid p)); reflexivity.
Qed.

Lemma controller_abort_keeps r :
  client (controller_abort r).1 = client r
  /\ busy (controller_abort r).1 = busy r.
Proof.
  unfold controller_abort. destruct (abort r) as [[|]|]; split; reflexivity.
Qed.

Lemma approve_nothing_pending i decision c :
  pendingApprovals c = [] -> Adapter.approve i decision c = (c, [], false).
Proof. unfold Adapter.approve. intros ->. reflexivity. Qed.

(** X26.  [POST /v1/chats/abort] on a
    chat that is not running a turn is answered 409 ['not_running'] and
    changes nothing.  On a running turn it is answered [ok]; it never
    writes to the stream of the chat and does not release the runner: the
    chat stays busy until the turn settles, so a start right after the
    abort is still refused with 409 ['chat_busy'].  No approval is pending
    afterwards, so a late approval is answered 404 ['not_found'], resolves
    nothing and changes nothing. *)
Theorem abort_chat_stops_only_a_running_turn (sid cid : string) (d : Daemon) :
  let d' := (abort_chat sid cid d).1.1 in
  streamsByChatKey d' = streamsByChatKey d
  /\ (forall k', k' <> key sid cid -> codex d' !! k' = codex d !! k')
  /\ (isBusy sid cid (codex d) = false ->
      abort_chat sid cid d = (d, [], reply_error 409 "not_running"))
  /\ (isBusy sid cid (codex d) = true ->
      (abort_chat sid cid d).2 = reply_ok
      /\ isBusy sid cid (codex d') = true
      /\ hasPendingApproval sid cid (codex d') = false
      /\ (forall i decision,
            approve_chat sid cid i decision d'
            = (d', [], reply_error 404 "not_found"))
      /\ (forall b now,
            valid_start b = true ->
            Sessiond.sessionId b = sid -> chatId b = cid ->
            start b now d' = (d', [], reply_error 409 "chat_busy", None))).
Proof.
  intros d'. subst d'. destruct d as [runners streams].
  unfold abort_chat, abort_turn, isBusy. cbn [codex streamsByChatKey].
  destruct (runners !! key sid cid) as [r|] eqn:Hr.
  - destruct (busy r) eqn:Hbusy; cbn [negb].
    + pose proof (abortPendingApprovals_empties (client r)) as Hp.
      destruct (abortPendingApprovals (client r)) as [[c effs1] n].
      cbn [fst] in Hp.
      destruct (controller_abort_keeps (set_client c r)) as [Hc Hb].
      destruct (controller_abort (set_client c r)) as [r1 effs2].
      cbn [fst snd codex streamsByChatKey] in *.
      rewrite lookup_insert_eq.
      assert (Hb1 : busy r1 = true) by (rewrite Hb; exact Hbusy).
      assert (Hp1 : pendingApprovals (client r1) = [])
        by (rewrite Hc; exact Hp).
      split; [reflexivity|].
      split; [intros k' Hne; apply lookup_insert_ne; congruence|].
      split; [discriminate|].
      intros _. split; [reflexivity|]. split; [exact Hb1|].
      split.
      { unfold hasPendingApproval, hasPendingApprovals.
        rewrite lookup_insert_eq, Hp1. reflexivity. }
      split.
      { intros i decision. unfold approve_chat, approve.
        cbn [codex streamsByChatKey]. rewrite lookup_insert_eq.
        rewrite (approve_nothing_pending _ _ _ Hp1).
        rewrite set_client_same, insert_insert_eq. reflexivity. }
      intros b now Hv Hsid Hcid. unfold start. rewrite Hv. cbn [negb].
      unfold isBusy. cbn [codex]. rewrite Hsid, Hcid, lookup_insert_eq, Hb1.
      reflexivity.
    + cbn [fst snd codex streamsByChatKey].
      split; [reflexivity|]. split; [reflexivity|].
      split; [reflexivity|]. discriminate.
  - cbn [fst snd codex streamsByChatKey].
    split; [reflexivity|]. split; [reflexivity|].
    split; [reflexivity|]. discriminate.
Qed.

(** X27.  When a turn asks for another
    Codex instance, or another home, than the one the idle runner of the
    chat is bound to, [runTurn] replaces the runner by a new one bound to
    what was asked: the client is new, so the session and the recorded
    configuration are forgotten, and the turn calls [startSession].  Only
    the progress event of stage ['start_session'] is emitted, with no
    ['session_reset'], and nothing is done to the old client: no approval
    is resolved and no process is signalled. *)
Theorem instance_change_starts_a_new_session
    (opts : TurnOpts) (now : Z) (runners : gmap string RunnerState)
    (r : RunnerState) :
  runners !! key (o_sessionId opts) (o_chatId opts) = Some r ->
  busy r = false ->
  instanceId r <> wanted_instance (o_instance opts)
  \/ codexHome r <> wanted_home (o_instance opts) ->
  exists ctx r',
    runTurn_enter opts now runners
    = Ok (<[key (o_sessionId opts) (o_chatId opts) := r']> runners, ctx,
          [progress "start_session" (start_message (o_config opts))],
          signal_effects (o_signal opts),
          StartSession (session_config opts))
    /\ client r' = setEventHandler true new_client
    /\ configKey r' = None
    /\ instanceId r' = wanted_instance (o_instance opts)
    /\ codexHome r' = wanted_home (o_instance opts)
    /\ busy r' = true.
Proof.
  intros Hr Hbusy Hdiff.
  assert (Hfree : isBusy (o_sessionId opts) (o_chatId opts) runners = false).
  { unfold isBusy. rewrite Hr. exact Hbusy. }
  destruct (get_free _ _ (o_instance opts) _ Hfree)
    as (runners1 & r0 & Hget & Hbusy0 & _ & Hins & Hwhich).
  rewrite Hr in Hwhich.
  assert (Hsame : bool_decide (instanceId r = wanted_instance (o_instance opts))
                  && bool_decide (codexHome r = wanted_home (o_instance opts))
                  = false).
  { destruct Hdiff as [Hd|Hd].
    - rewrite (bool_decide_eq_false_2 _ Hd). reflexivity.
    - rewrite (bool_decide_eq_false_2 _ Hd). apply andb_false_r. }
  rewrite Hsame in Hwhich. subst r0.
  destruct (runTurn_enter_from opts now runners runners1 _ Hget eq_refl)
    as (r' & ctx & stages & effs & call & Henter & _ & Hb' & _ & _ & Hi & Hh
        & Hfresh).
  destruct (Hfresh eq_refl) as (-> & -> & -> & Hcl & Hck).
  exists ctx, r'. rewrite Henter, Hins, app_nil_r.
  repeat split; auto.
Qed.

Lemma instance_change_starts_a_new_session_witness :
  exists ctx r',
    runTurn_enter other_instance 7 {[ key "s" "c" := settled_runner ]}
    = Ok (<[key "s" "c" := r']> {[ key "s" "c" := settled_runner ]}, ctx,
          [progress "start_session" (start_message plain_config)], [],
          StartSession (session_config other_instance))
    /\ Adapter.sessionId (client r') = None.
Proof.
  assert (Hr : ({[ key "s" "c" := settled_runner ]} : gmap string RunnerState)
               !! key (o_sessionId other_instance) (o_chatId other_instance)
               = Some settled_runner) by reflexivity.
  assert (Hd : instanceId settled_runner
               <> wanted_instance (o_instance other_instance))
    by discriminate.
  destruct (instance_change_starts_a_new_session other_instance 7
              {[ key "s" "c" := settled_runner ]} settled_runner
              Hr eq_refl (or_introl Hd))
    as (ctx & r' & He & Hc & _).
  exists ctx, r'. split; [exact He|]. rewrite Hc. reflexivity.
Defined.

End DaemonFacts.

(* ================================================================== *)
(** ** A turn in flight on the gateway daemon: heartbeats and the end *)
(* ================================================================== *)

Module TurnFacts.
Import Adapter Manager Sessiond Timeline.
Import StreamSpec DaemonSpec TurnSpec.






Lemma emit_all_out now es ctx : (emit_all now es ctx).2 = es.
Proof.
  revert ctx. induction es as [|e rest IH]; intros ctx; [reflexivity|].
  cbn [emit_all]. rewrite HeartbeatFacts.emit_ctx.
  specialize (IH (if is_activity e then touch now ctx else ctx)).
  destruct (emit_all now rest _) as [ctx2 out2]. cbn [snd] in *.
  rewrite IH. reflexivity.
Qed.


















(** A turn with one delta at 5 s and then silence, the timer firing every
    five seconds: heartbeats go out at 15 s and at 25 s only. *)
Example quiet_turn_heartbeats :
  exists d1 effs f r0 r1 f1 streams1 s,
    start first_start 0 empty_daemon = (d1, effs, reply_ok, Some f)
    /\ codex d1 !! key "s" "c" = Some r0
    /\ play quiet_run (r0, f, streamsByChatKey d1) = Some (r1, f1, streams1)
    /\ streams1 !! key "s" "c" = Some s
    /\ shown s
       = [(0, "start", None); (0, "progress", Some "start_session");
          (5000, "delta", None); (15000, "progress", Some "heartbeat");
          (25000, "progress", Some "heartbeat")].
Proof.
  do 8 eexists. split; [vm_compute; reflexivity|].
  split; [vm_compute; reflexivity|].
  split; [vm_compute; reflexivity|].
  split; vm_compute; reflexivity.
Qed.


(** The interval of a settled turn is still armed: [heartbeatTimer] is
    declared inside the [try] block of [runTurn], the [finally] block
    cannot name it, and the [ReferenceError] is caught before
    [clearInterval] is reached.  A firing after the turn settled puts a
    heartbeat behind the terminal event. *)
Lemma heartbeat_after_the_terminal_event :
  exists d1 effs f r0 r1 streams1 f2 streams2 s,
    start first_start 0 empty_daemon = (d1, effs, reply_ok, Some f)
    /\ codex d1 !! key "s" "c" = Some r0
    /\ settle f (Resolved None None) 2000 r0 (streamsByChatKey d1)
       = (r1, streams1)
    /\ tick f 12000 r1 streams1 = (f2, streams2)
    /\ streams2 !! key "s" "c" = Some s
    /\ shown s
       = [(0, "start", None); (0, "progress", Some "start_session");
          (2000, "done", None); (12000, "progress", Some "heartbeat")].
Proof.
  do 9 eexists. split; [vm_compute; reflexivity|].
  split; [vm_compute; reflexivity|].
  split; [vm_compute; reflexivity|].
  split; [vm_compute; reflexivity|].
  split; vm_compute; reflexivity.
Qed.

End TurnFacts.

(* ------------------------------------------------------------------ *)
(** ** Rate limits found in a payload *)
(* ------------------------------------------------------------------ *)

Module UsageFacts.
Import Usage UsageSpec.

Lemma asObj_Some x r : asObj x = Some r -> x = Some r /\ isObj r = true.
Proof.
  unfold asObj. destruct x as [v|]; [|discriminate].
  destruct (isObj v) eqn:Hv; [|discriminate]. intros [= <-]. auto.
Qed.

Lemma asObj_obj r : isObj r = true -> asObj (Some r) = Some r.
Proof. unfold asObj. intros ->. reflexivity. Qed.

Lemma or_else_Some a b r :
  or_else a b = Some r -> a = Some r \/ b = Some r.
Proof. destruct a; simpl; auto. Qed.

Lemma or_else_is_Some a b :
  is_Some a \/ is_Some b -> is_Some (or_else a b).
Proof. destruct a; simpl; [eauto|]. intros [[? [=]]|H]; exact H. Qed.

Lemma assoc_in_values k fs x : assoc k fs = Some x -> x ∈ fs.*2.
Proof.
  induction fs as [|[k' v] fs IH]; [discriminate|]. simpl.
  destruct (bool_decide (k' = k)).
  - intros [= ->]. apply list_elem_of_here.
  - intros H. apply list_elem_of_further, IH, H.
Qed.

Lemma get_in_values v k x : get v k = Some x -> x ∈ values v.
Proof. destruct v; try discriminate. apply assoc_in_values. Qed.

Lemma get_isObj v k x : get v k = Some x -> isObj v = true.
Proof. destruct v; try discriminate. reflexivity. Qed.

Lemma values_isObj v y : y ∈ values v -> isObj v = true.
Proof. destruct v; simpl; try reflexivity; intros H; inversion H. Qed.

Lemma direct_Some v r :
  direct v = Some r ->
  isObj r = true /\ exists k, k ∈ limit_keys /\ get v k = Some r.
Proof.
  unfold direct, limit_keys. intros H.
  repeat (apply or_else_Some in H as [H|H]);
    apply asObj_Some in H as [H Hr]; (split; [exact Hr|]);
    eexists; (split; [|exact H]); set_solver.
Qed.

Lemma direct_found v k r :
  k ∈ limit_keys -> get v k = Some r -> isObj r = true -> is_Some (direct v).
Proof.
  unfold limit_keys, direct. intros Hk Hg Hr.
  repeat (apply elem_of_cons in Hk as [->|Hk]);
    [ | | | | inversion Hk ]; rewrite Hg, (asObj_obj _ Hr);
    repeat first [ solve [eauto] | apply or_else_is_Some; right ];
    apply or_else_is_Some; left; eauto.
Qed.

Lemma under_Some h v r :
  under h v = Some r ->
  isObj r = true
  /\ exists holder k,
       holder ∈ values v /\ k ∈ limit_keys /\ get holder k = Some r.
Proof.
  unfold under. destruct (asObj (get v h)) as [holder|] eqn:Hh; [|discriminate].
  apply asObj_Some in Hh as [Hh _]. intros H.
  apply or_else_Some in H as [H|H]; apply asObj_Some in H as [H Hr];
    (split; [exact Hr|]); exists holder; eexists;
    (split; [exact (get_in_values _ _ _ Hh)|]); (split; [|exact H]);
    unfold limit_keys; set_solver.
Qed.

Lemma first_found_Some f l r :
  first_found f l = Some r -> exists x, x ∈ l /\ f x = Some r.
Proof.
  induction l as [|x l IH]; [discriminate|]. simpl.
  destruct (f x) as [found|] eqn:Hx.
  - intros [= <-]. exists x. split; [apply list_elem_of_here | exact Hx].
  - intros H. destruct (IH H) as (y & Hy & Hf).
    exists y. split; [apply list_elem_of_further, Hy | exact Hf].
Qed.

Lemma first_found_is_Some f l x :
  x ∈ l -> is_Some (f x) -> is_Some (first_found f l).
Proof.
  intros Hx Hf. induction l as [|y l IH]; [inversion Hx|]. simpl.
  destruct (f y) as [found|] eqn:Hy; [eauto|].
  apply elem_of_cons in Hx as [->|Hx].
  - rewrite Hy in Hf. destruct Hf as [? [=]].
  - apply IH, Hx.
Qed.

(** What is found lies under one of the four names, at most as many
    levels down as the search has levels. *)
Lemma searchRec_sound levels :
  forall v r,
    searchRec levels v = Some r ->
    isObj r = true
    /\ exists holder k n,
         at_depth n holder v /\ (n <= levels)%nat
         /\ k ∈ limit_keys /\ get holder k = Some r.
Proof.
  induction levels as [|levels IH]; intros v r; [discriminate|].
  cbn [searchRec]. destruct (negb (isObj v)); [discriminate|].
  destruct (direct v) as [r0|] eqn:Hd.
  { intros [= ->]. apply direct_Some in Hd as (Hr & k & Hk & Hg).
    split; [exact Hr|]. exists v, k, 0%nat. simpl. repeat split; auto. lia. }
  assert (Hunder : forall h r0, under h v = Some r0 ->
    isObj r0 = true
    /\ exists holder k n,
         at_depth n holder v /\ (n <= S levels)%nat
         /\ k ∈ limit_keys /\ get holder k = Some r0).
  { intros h r0 Hu. apply under_Some in Hu as (Hr & holder & k & Hin & Hk & Hg).
    split; [exact Hr|]. exists holder, k, 1%nat. simpl.
    repeat split; eauto. lia. }
  destruct (under "usage" v) as [r0|] eqn:Hu1.
  { intros [= ->]. eapply Hunder, Hu1. }
  destruct (under "meta" v) as [r0|] eqn:Hu2.
  { intros [= ->]. eapply Hunder, Hu2. }
  destruct (under "info" v) as [r0|] eqn:Hu3.
  { intros [= ->]. eapply Hunder, Hu3. }
  intros H. apply first_found_Some in H as (y & Hy & Hf).
  destruct (IH _ _ Hf) as (Hr & holder & k & n & Hat & Hn & Hk & Hg).
  split; [exact Hr|]. exists holder, k, (S n). simpl.
  repeat split; eauto. lia.
Qed.

(** Limits that lie fewer levels down than the search has levels are
    not missed. *)
Lemma searchRec_complete levels :
  forall v holder k r n,
    at_depth n holder v -> (n < levels)%nat ->
    k ∈ limit_keys -> get holder k = Some r -> isObj r = true ->
    is_Some (searchRec levels v).
Proof.
  induction levels as [|levels IH]; intros v holder k r n Hat Hn Hk Hg Hr;
    [lia|].
  assert (Hv : isObj v = true).
  { destruct n as [|n]; simpl in Hat.
    - subst holder. exact (get_isObj _ _ _ Hg).
    - destruct Hat as (y & Hy & _). exact (values_isObj _ _ Hy). }
  cbn [searchRec]. rewrite Hv. cbn [negb].
  destruct (direct v) as [r0|] eqn:Hd; [eauto|].
  destruct (under "usage" v); [eauto|].
  destruct (under "meta" v); [eauto|].
  destruct (under "info" v); [eauto|].
  destruct n as [|n]; simpl in Hat.
  - subst holder. pose proof (direct_found _ _ _ Hk Hg Hr) as Hf.
    rewrite Hd in Hf. destruct Hf as [? [=]].
  - destruct Hat as (y & Hy & Hat).
    apply (first_found_is_Some _ _ y Hy).
    apply (IH y holder k r n); auto. lia.
Qed.

Lemma searchRec_nested r :
  isObj r = true ->
  forall n levels,
    searchRec levels (nested n (JObj [("rate_limits", r)]))
    = if (n <? levels)%nat then Some r else None.
Proof.
  intros Hr. induction n as [|n IH]; intros [|levels]; try reflexivity.
  - change (nested 0 (JObj [("rate_limits", r)]))
      with (JObj [("rate_limits", r)]).
    cbn [searchRec isObj negb]. unfold direct.
    change (get (JObj [("rate_limits", r)]) "rate_limits") with (Some r).
    rewrite (asObj_obj _ Hr). reflexivity.
  - change (nested (S n) (JObj [("rate_limits", r)]))
      with (JArr [nested n (JObj [("rate_limits", r)])]).
    cbn [searchRec isObj negb direct under get asObj or_else values
         first_found].
    rewrite IH. change (S n <? S levels)%nat with (n <? levels)%nat.
    destruct (n <? levels)%nat; reflexivity.
Qed.

(** X28.  [extractRateLimits] returns
    only an object that is stored under one of the names [rate_limits],
    [rateLimits], [rate_limits_raw] and [rateLimitsRaw] somewhere in the
    payload, and it returns [null] for a payload that is not an object.
    It does not miss limits: when some object at most eight levels down
    holds an object under one of these names, the result is not [null];
    an object under [rate_limits] of the payload itself is the result.
    Deeper than that nothing is found: limits wrapped in [n] arrays are
    returned exactly when [n] is at most 8. *)
Theorem extractRateLimits_finds_nested_limits (v : json) :
  (forall r,
     extractRateLimits v = Some r ->
     isObj r = true
     /\ exists holder k n,
          at_depth n holder v /\ (n <= 9)%nat
          /\ k ∈ limit_keys /\ get holder k = Some r)
  /\ (isObj v = false -> extractRateLimits v = None)
  /\ (forall holder k r n,
        at_depth n holder v -> (n <= 8)%nat ->
        k ∈ limit_keys -> get holder k = Some r -> isObj r = true ->
        is_Some (extractRateLimits v))
  /\ (forall r,
        get v "rate_limits" = Some r -> isObj r = true ->
        extractRateLimits v = Some r)
  /\ (forall n,
        isObj v = true ->
        extractRateLimits (nested n (JObj [("rate_limits", v)]))
        = if (n <=? 8)%nat then Some v else None).
Proof.
  unfold extractRateLimits. split; [|split; [|split; [|split]]].
  - intros r. apply searchRec_sound.
  - intros Hv. cbn [searchRec]. rewrite Hv. reflexivity.
  - intros holder k r n Hat Hn. apply (searchRec_complete 9 v holder k r n Hat).
    lia.
  - intros r Hg Hr. cbn [searchRec]. rewrite (get_isObj _ _ _ Hg).
    cbn [negb]. unfold direct. rewrite Hg, (asObj_obj _ Hr). reflexivity.
  - intros n Hv. rewrite (searchRec_nested v Hv n 9). reflexivity.
Qed.

End UsageFacts.

(* ------------------------------------------------------------------ *)
(** ** The standard output of the Claude backend *)
(* ------------------------------------------------------------------ *)

Module ClaudeFacts.
Import Adapter Claude.
Import TextSpec ClaudeSpec.

Lemma raws_app a b : raws (a ++ b) = raws a ++ raws b.
Proof. apply omap_app. Qed.

Lemma default_conversation_keeps c :
  onEvent (default_conversation c) = onEvent c
  /\ sawAssistantTextInFlight (default_conversation c)
     = sawAssistantTextInFlight c.
Proof.
  unfold default_conversation.
  destruct (stored_falsy (conversationId c)
            && negb (stored_falsy (Adapter.sessionId c)));
    split; reflexivity.
Qed.

(** What one line of output makes the handler forward. *)
Lemma onStdoutLine_by_kind (l : Line) (c : Client) :
  onEvent c = true ->
  exists c' out,
    onStdoutLine l.1 l.2 c = (c', out)
    /\ onEvent c' = true
    /\ raws out = [line_raw l]
    /\ agent_messages out
       = match line_delta l with
         | Some t => [t]
         | None =>
             match line_assistant l with
             | Some t => if sawAssistantTextInFlight c then [] else [t]
             | None => []
             end
         end
    /\ sawAssistantTextInFlight c'
       = match line_delta l, line_assistant l with
         | None, None => sawAssistantTextInFlight c
         | _, _ => true
         end.
Proof.
  intros Hon. destruct l as [[payload|] line];
    unfold line_delta, line_assistant, line_raw, line_payload;
    cbn [fst snd onStdoutLine].
  - unfold handleClaudeJsonLine.
    rewrite (TextFacts.updateIdentifiers_ends payload c).
    destruct (TextFacts.updateIdentifiers_keeps payload c) as (Hon0 & Hsaw0 & _).
    set (c0 := left_by (updateIdentifiersFromEvent payload c)) in *.
    clearbody c0.
    destruct (identifiers_throw payload) eqn:Hthrow.
    { assert (Hread : readable payload = false).
      { unfold readable. rewrite Hthrow. destruct payload; reflexivity. }
      rewrite Hread. unfold fire, claude_stdout. rewrite Hon0, Hon.
      eexists _, _. split; [reflexivity|]. cbn.
      repeat split; auto. congruence. }
    destruct (default_conversation_keeps c0) as (Hon2 & Hsaw2).
    set (c1 := default_conversation c0) in *.
    assert (Hc1 : onEvent c1 = true) by congruence.
    assert (Hs1 : sawAssistantTextInFlight c1 = sawAssistantTextInFlight c)
      by congruence.
    clearbody c1.
    assert (Hgen :
      payload <> JNull ->
      exists c' out,
        (let '(c2, out1) :=
           match stream_delta payload with
           | Some t => (set_saw true c1, fire c1 (agent_message t))
           | None => (c1, [])
           end in
         let '(c3, out2) :=
           if isObj payload && type_is payload "assistant"
              && negb (sawAssistantTextInFlight c2)
           then
             let t := extractClaudeAssistantText payload in
             if bool_decide (t = "") then (c2, [])
             else (set_saw true c2, fire c2 (agent_message t))
           else (c2, []) in
         (c3, out1 ++ out2 ++ fire c3 (claude_event payload)))
        = (c', out)
        /\ onEvent c' = true
        /\ raws out = [JObj [("type", JStr "claude_event"); ("data", payload)]]
        /\ agent_messages out
           = match stream_delta payload with
             | Some t => [t]
             | None =>
                 match (if isObj payload && type_is payload "assistant"
                        then let t := extractClaudeAssistantText payload in
                             if bool_decide (t = "") then None else Some t
                        else None) with
                 | Some t => if sawAssistantTextInFlight c then [] else [t]
                 | None => []
                 end
             end
        /\ sawAssistantTextInFlight c'
           = match stream_delta payload,
                   (if isObj payload && type_is payload "assistant"
                    then let t := extractClaudeAssistantText payload in
                         if bool_decide (t = "") then None else Some t
                    else None) with
             | None, None => sawAssistantTextInFlight c
             | _, _ => true
             end).
    { intros _. unfold fire, claude_event. rewrite <- Hs1.
      destruct (stream_delta payload) as [t|].
      - cbn [set_saw sawAssistantTextInFlight onEvent negb andb].
        rewrite andb_false_r.
        eexists _, _. split; [reflexivity|]. cbn. rewrite !Hc1. cbn.
        destruct (isObj payload && type_is payload "assistant");
          [destruct (bool_decide (extractClaudeAssistantText payload = ""))|];
          repeat split; auto.
      - destruct (isObj payload && type_is payload "assistant"); cbn [andb].
        + destruct (sawAssistantTextInFlight c1) eqn:Hsaw; cbn [negb].
          * eexists _, _. split; [reflexivity|]. cbn. rewrite !Hc1. cbn.
            destruct (bool_decide (extractClaudeAssistantText payload = ""));
              repeat split; auto.
          * cbn zeta.
            destruct (bool_decide (extractClaudeAssistantText payload = "")).
            -- eexists _, _. split; [reflexivity|]. cbn. rewrite !Hc1. cbn.
               repeat split; auto.
            -- eexists _, _. split; [reflexivity|]. cbn. rewrite !Hc1. cbn.
               repeat split; auto.
        + eexists _, _. split; [reflexivity|]. cbn. rewrite !Hc1. cbn.
          repeat split; auto. }
    unfold readable. rewrite Hthrow. cbn [negb].
    destruct payload;
      try (destruct Hgen as (c' & out & Heq & H); [discriminate|];
           exists c', out; split; [exact Heq | exact H]).
    unfold fire, claude_stdout. rewrite Hc1.
    eexists _, _. split; [reflexivity|]. cbn. repeat split; auto.
  - unfold fire, claude_stdout. rewrite Hon.
    eexists _, _. split; [reflexivity|]. cbn. repeat split; auto.
Qed.

(** The lines of a turn, whatever the flag says at its start. *)
Lemma stdout_lines_text (lines : list Line) :
  forall c,
    onEvent c = true ->
    exists c' out,
      stdout_lines lines c = (c', out)
      /\ raws out = line_raw <$> lines
      /\ agent_messages out
         = (if sawAssistantTextInFlight c then [] else leading_assistant lines)
           ++ omap line_delta lines.
Proof.
  induction lines as [|l lines IH]; intros c Hon.
  - exists c, []. cbn. destruct (sawAssistantTextInFlight c); auto.
  - destruct (onStdoutLine_by_kind l c Hon)
      as (c1 & out1 & H1 & Hon1 & Hraw1 & Htext1 & Hsaw1).
    destruct (IH c1 Hon1) as (c2 & out2 & H2 & Hraw2 & Htext2).
    exists c2, (out1 ++ out2). split.
    { destruct l as [parsed line]. cbn [stdout_lines]. cbn [fst snd] in H1.
      rewrite H1, H2. reflexivity. }
    split.
    { rewrite raws_app, Hraw1, Hraw2. reflexivity. }
    rewrite TextFacts.agent_messages_app, Htext2.
    cbn [leading_assistant omap list_omap].
    destruct (line_delta l) as [t|].
    + rewrite Htext1, Hsaw1.
      destruct (sawAssistantTextInFlight c); reflexivity.
    + destruct (line_assistant l) as [t|]; rewrite Htext1, Hsaw1.
      * destruct (sawAssistantTextInFlight c); reflexivity.
      * destruct (sawAssistantTextInFlight c); reflexivity.
Qed.

(** X29.  In a turn of the Claude backend (the
    per-turn flag having been reset by [startSession] or
    [continueSession]) with a handler registered, every line of output
    that is not blank gives exactly one raw event, in order: a
    [claude_event] carrying the payload when the line is JSON that the
    handler reads without a [TypeError] (it is not [null], and the session
    and conversation identifiers it carries have a string), and otherwise
    a [claude_stdout] carrying the line: when the line is not JSON, is
    [null], or carries an identifier that has no string; no line makes the
    reader of the output fail.  Every text delta of the stream that is so
    read is forwarded as assistant text, and a whole assistant message is
    forwarded only when it comes before any delta and any other whole
    message, so a message that sums up the deltas is not repeated.  The
    text of a delta whose session id is an object with a property
    [toString] is not forwarded. *)
Theorem claude_output_becomes_events
    (c c0 : Client) (lines : list Line) :
  onEvent c = true ->
  (c0 = startSession_begin c \/ continueSession_begin c = Some c0) ->
  (exists c' out,
     stdout_lines lines c0 = (c', out)
     /\ raws out = line_raw <$> lines
     /\ agent_messages out = leading_assistant lines ++ omap line_delta lines
     /\ agent_text out
        = concat_text (leading_assistant lines ++ omap line_delta lines)
     /\ (leading_assistant lines = [] ->
         agent_text out = concat_text (omap line_delta lines)))
  /\ (forall text raw_line,
        (onStdoutLine (unreadable_line text raw_line).1 raw_line c).2
        = [claude_stdout raw_line]).
Proof.
  intros Hon Hbegin.
  destruct (TextFacts.begin_resets_flag c c0 Hbegin) as [Hsaw Hon0].
  destruct (stdout_lines_text lines c0) as (c' & out & Hrun & Hraw & Htext);
    [congruence|].
  rewrite Hsaw in Htext.
  split.
  - exists c', out. repeat split; auto.
    + rewrite TextFacts.agent_text_concat, Htext. reflexivity.
    + intros Hnone. rewrite TextFacts.agent_text_concat, Htext, Hnone.
      reflexivity.
  - intros text raw_line.
    unfold unreadable_line, onStdoutLine, handleClaudeJsonLine. cbn [fst].
    rewrite (TextFacts.updateIdentifiers_ends (unreadable_payload text) c).
    destruct (TextFacts.updateIdentifiers_keeps (unreadable_payload text) c)
      as (Hk & _).
    change (identifiers_throw (unreadable_payload text)) with true.
    cbn [snd]. unfold fire. rewrite Hk, Hon. reflexivity.
Qed.

Lemma claude_output_becomes_events_witness :
  exists c' out,
    stdout_lines [text_delta_line "Hel"; (None, "warming up");
                  text_delta_line "lo"; assistant_line "Hello";
                  (Some JNull, "null"); unreadable_line "lost" "{...}"]
                 (startSession_begin (setEventHandler true new_client))
    = (c', out)
    /\ agent_text out = "Hello"
    /\ length (raws out) = 6%nat.
Proof.
  destruct (proj1 (claude_output_becomes_events
              (setEventHandler true new_client)
              (startSession_begin (setEventHandler true new_client))
              [text_delta_line "Hel"; (None, "warming up");
               text_delta_line "lo"; assistant_line "Hello";
               (Some JNull, "null"); unreadable_line "lost" "{...}"]
              eq_refl (or_introl eq_refl)))
    as (c' & out & Hrun & Hraw & _ & Htext & _).
  exists c', out. split; [exact Hrun|]. split.
  - rewrite Htext. reflexivity.
  - rewrite Hraw. reflexivity.
Defined.

End ClaudeFacts.

(* ------------------------------------------------------------------ *)
(** ** From the runner in the daemon to the handler of the web server *)
(* ------------------------------------------------------------------ *)

Module RelayFacts.
Import Adapter Manager Bridge.
Import Sessiond (Daemon, StreamEvent, ChatStream, id, event, data, ts,
                 stream_of_event, json_of_request, append_all, push, trim,
                 maxEvents, nextId, events, status, body_status,
                 body_lastEventId, done, error, running).
Import StreamSpec ListenerSpec CursorSpec RelaySpec.

(** One event of the runner, through the stream and the loop. *)
Lemma consume_posted k now amid e n ps cursors out :
  consume k
    (event_of n (now, (stream_of_event amid e).1, (stream_of_event amid e).2))
    (ps, cursors, out)
  = (with_after n ps, markKnownCursor k n cursors, out ++ [relayed e]).
Proof.
  unfold consume, event_of, relayed. cbn [fst snd id event data].
  destruct e as [m|r|msg]; cbn [stream_of_event fst snd].
  - reflexivity.
  - reflexivity.
  - destruct (isProgressMsg msg); reflexivity.
Qed.

Lemma consume_all_posted k now amid es :
  forall n ps cursors out,
    exists ps' cursors',
      fold_left (fun acc e => consume k e acc)
        (created n (posted now amid es)) (ps, cursors, out)
      = (ps', cursors', out ++ (relayed <$> es))
      /\ usage ps' = usage ps /\ rateLimits ps' = rateLimits ps
      /\ lastTurnErrorMessage ps' = lastTurnErrorMessage ps
      /\ after ps' = match es with
                     | [] => after ps
                     | _ => n + Z.of_nat (length es) - 1
                     end.
Proof.
  induction es as [|e es IH]; intros n ps cursors out.
  - exists ps, cursors. rewrite app_nil_r. cbn. auto.
  - cbn [posted fmap list_fmap created fold_left].
    rewrite consume_posted.
    destruct (IH (n + 1) (with_after n ps) (markKnownCursor k n cursors)
                 (out ++ [relayed e]))
      as (ps' & cursors' & Hrun & Hu & Hr & Hm & Ha).
    exists ps', cursors'. split.
    { unfold posted in Hrun. rewrite Hrun, <- app_assoc. reflexivity. }
    repeat split; auto.
    rewrite Ha. destruct es; cbn [length with_after after]; lia.
Qed.

(** The stream object after a run of appends that stays under the cap. *)
Lemma fold_push_created now items :
  forall s,
    (length (events s) + length items <= maxEvents)%nat ->
    events (fold_left (fun s0 it => (push now it.1 it.2 s0).1) items s)
    = events s ++ created (nextId s) ((fun p => (now, p.1, p.2)) <$> items).
Proof.
  induction items as [|[ev payload] items IH]; intros s Hlen.
  - cbn. rewrite app_nil_r. reflexivity.
  - cbn [fold_left fmap list_fmap created fst snd length] in *.
    rewrite IH.
    + cbn [push fst events nextId].
      rewrite DaemonFacts.trim_short by (rewrite length_app; simpl; lia).
      rewrite <- app_assoc. reflexivity.
    + cbn [push fst events].
      rewrite DaemonFacts.trim_short by (rewrite length_app; simpl; lia).
      rewrite length_app. simpl. lia.
Qed.

Lemma fold_push_nextId now items :
  forall s,
    nextId (fold_left (fun s0 it => (push now it.1 it.2 s0).1) items s)
    = nextId s + Z.of_nat (length items).
Proof.
  induction items as [|[ev payload] items IH]; intros s.
  - cbn. lia.
  - cbn [fold_left length]. rewrite IH. cbn [push fst nextId snd]. lia.
Qed.

Lemma created_ids n items : Forall (fun e => n <= id e) (created n items).
Proof.
  revert n. induction items as [|it items IH]; intros n; [constructor|].
  cbn [created]. constructor; [simpl; lia|].
  eapply Forall_impl; [apply IH|]. simpl. intros e He. lia.
Qed.

Lemma filter_new (a : Z) (old new : list StreamEvent) :
  Forall (fun e => id e <= a) old ->
  Forall (fun e => a < id e) new ->
  filter (fun e => a < id e) (old ++ new) = new.
Proof.
  intros Hold Hnew. rewrite filter_app.
  replace (filter (fun e => a < id e) old) with (@nil StreamEvent).
  - simpl. induction Hnew as [|e new He Hnew IH]; [reflexivity|].
    rewrite filter_cons_True by exact He. rewrite IH. reflexivity.
  - symmetry. induction Hold as [|e old He Hold IH]; [reflexivity|].
    rewrite filter_cons_False by lia. exact IH.
Qed.

(** X30.  For a polling loop of the web
    server that has consumed every event of the stream of a chat: when
    the runner in the daemon then emits any run of events (short enough
    for the buffer), the next iteration of the loop hands each of them
    to the handler, once and in order: assistant text and raw events as
    they were emitted, a progress message with its stage, message and
    detail, an approval request as its payload.  Nothing an earlier
    iteration handed over comes again, the usage, the rate limits and
    the error message the loop holds are not touched, and a loop that
    goes on has its cursor on the last of these events. *)
Theorem runner_events_cross_the_gateway
    (sid cid : string) (now now' : Z) (amid : option string)
    (es : list CodexRunnerEvent) (d : Daemon) (s : ChatStream)
    (cursors : gmap string Z) (ps : PollState) :
  Sessiond.streamsByChatKey d !! key sid cid = Some s ->
  Forall (fun e => id e < nextId s) (events s) ->
  after ps = nextId s - 1 -> 1 <= nextId s ->
  (length (events s) + length es <= maxEvents)%nat ->
  (poll sid cid now' (after_events sid cid now amid es d) cursors ps).1.2
  = relayed <$> es
  /\ forall ps',
       (poll sid cid now' (after_events sid cid now amid es d) cursors ps).2
       = Again ps' ->
       after ps' = after ps + Z.of_nat (length es)
       /\ usage ps' = usage ps /\ rateLimits ps' = rateLimits ps
       /\ lastTurnErrorMessage ps' = lastTurnErrorMessage ps.
Proof.
  intros Hs Hold Hafter Hpos Hlen.
  rewrite CursorFacts.poll_unfold. cbn [fst snd].
  assert (Hevs :
    (Sessiond.events_after sid cid (Z.max 0 (after ps)) now'
       (after_events sid cid now amid es d)).2
    = created (nextId s) (posted now amid es)).
  { unfold Sessiond.events_after, Sessiond.listStreamEventsSince, after_events.
    cbn [Sessiond.codex Sessiond.streamsByChatKey].
    rewrite (DaemonFacts.append_all_found _ _ _ _ _ Hs).
    rewrite (DaemonFacts.ensureStream_found now' _ _ _ (lookup_insert_eq _ _ _)).
    cbn [snd]. unfold Sessiond.since.
    rewrite fold_push_created by (rewrite length_fmap; exact Hlen).
    replace ((fun p : string * json => (now, p.1, p.2))
               <$> (stream_of_event amid <$> es))
      with (posted now amid es)
      by (unfold posted; rewrite <- list_fmap_compose; reflexivity).
    apply filter_new.
    - eapply Forall_impl; [exact Hold|]. simpl. intros e He. lia.
    - eapply Forall_impl; [apply created_ids|]. simpl. intros e He. lia. }
  unfold consumed. rewrite Hevs.
  destruct (consume_all_posted (key sid cid) now amid es (nextId s) ps cursors [])
    as (ps1 & cursors1 & Hrun & Hu & Hr & Hm & Ha).
  rewrite Hrun. cbn [fst snd]. split; [reflexivity|].
  intros ps' Hres.
  assert (Ha' : after ps1 = after ps + Z.of_nat (length es)).
  { rewrite Ha. destruct es; cbn [length]; lia. }
  assert (Hkeep :
    bool_decide (body_lastEventId
                   (polled_runtime sid cid now'
                      (after_events sid cid now amid es d) ps)
                 < after ps1) = false).
  { apply bool_decide_eq_false_2. unfold polled_runtime.
    unfold Sessiond.events_after, Sessiond.listStreamEventsSince, after_events.
    cbn [Sessiond.codex Sessiond.streamsByChatKey].
    rewrite (DaemonFacts.append_all_found _ _ _ _ _ Hs).
    rewrite (DaemonFacts.ensureStream_found now' _ _ _ (lookup_insert_eq _ _ _)).
    cbn [fst].
    rewrite (DaemonFacts.runtime_found sid cid now' (Sessiond.Build_Daemon _ _)
               _ (lookup_insert_eq _ _ _)).
    pose proof (fold_push_nextId now (stream_of_event amid <$> es) s) as Hn.
    rewrite length_fmap in Hn.
    destruct (bool_decide (status _ = running) && negb _);
      cbn [snd body_lastEventId]; rewrite Hn; lia. }
  rewrite Hkeep in Hres.
  destruct (bool_decide (body_status _ = done)); [discriminate|].
  destruct (bool_decide (body_status _ = error)); [discriminate|].
  injection Hres as <-. auto.
Qed.

Lemma runner_events_cross_the_gateway_witness :
  (poll "s" "c" 30
     (after_events "s" "c" 20 None
        [agent_message "lo"; raw (JStr "note");
         progress "start_session" "starting"]
        BusySpec.daemon_mid_turn)
     ∅ caught_up).1.2
  = [forwarded (agent_message "lo"); forwarded (raw (JStr "note"));
     forwarded (raw (JObj [("type", JStr "progress");
                           ("stage", JStr "start_session");
                           ("message", JStr "starting");
                           ("detail", JNull)]))].
Proof.
  refine (proj1 (runner_events_cross_the_gateway "s" "c" 20 30 None
                   [agent_message "lo"; raw (JStr "note");
                    progress "start_session" "starting"]
                   BusySpec.daemon_mid_turn _ ∅ caught_up
                   eq_refl _ eq_refl _ _)).
  - repeat constructor.
  - simpl. lia.
  - simpl. unfold maxEvents. lia.
Defined.

End RelayFacts.
